(** * AFD interpreter: a shallow embedding of [src/processor.py] and
  [src/summarizer.py], and the properties of the specification checked
  against it.

  Text model.  [_read_text_afd] decodes the file with latin-1, so every
  character of every line is one of the 256 code points U+0000..U+00FF
  and each character is exactly one byte.  A Python [str] of the
  interpreter is therefore a [list ascii]; the result of [str.upper],
  which may leave latin-1, is a list of code points. *)

From Stdlib Require Import String Ascii List NArith ZArith Bool Lia.
From Stdlib Require Import Sorting.Sorted Permutation.
From Equations Require Import Equations.
Import ListNotations.

Local Open Scope N_scope.

(* ===================================================================== *)
(** * Python built-ins used by the sources, on latin-1 text              *)
(* ===================================================================== *)

Module Py.

Definition str := list ascii.
(** A string that may contain any code point (result of [upper]). *)
Definition ustr := list N.

Definition ord (c : ascii) : N := N_of_ascii c.
Definition chr (n : N) : ascii := ascii_of_N n.
Definition lit (s : string) : str := list_ascii_of_string s.
Definition code_points (s : str) : ustr := map ord s.

Definition between (lo hi n : N) : bool := (lo <=? n) && (n <=? hi).

(** [str.isspace] / the characters removed by [str.strip()]. *)
Definition isspace (c : ascii) : bool :=
  let n := ord c in
  between 9 13 n || between 28 32 n || (n =? 133) || (n =? 160).

(** Numeric_Type Decimal: what [int()] and the regex class [\d] accept. *)
Definition isdecimal (c : ascii) : bool := between 48 57 (ord c).

(** Numeric_Type Digit or Decimal: the decimals and the superscripts
    U+00B2, U+00B3, U+00B9. *)
Definition isdigit_char (c : ascii) : bool :=
  let n := ord c in
  between 48 57 n || (n =? 178) || (n =? 179) || (n =? 185).

(** [s.isdigit()]: false on the empty string. *)
Definition isdigit (s : str) : bool :=
  match s with
  | [] => false
  | _ => forallb isdigit_char s
  end.

Fixpoint lstrip (s : str) : str :=
  match s with
  | c :: s' => if isspace c then lstrip s' else s
  | [] => []
  end.

Definition rstrip (s : str) : str := rev (lstrip (rev s)).
Definition strip (s : str) : str := rstrip (lstrip s).

(** [str.upper] of one latin-1 character (full case mapping). *)
Definition upper_char (c : ascii) : ustr :=
  let n := ord c in
  if between 97 122 n then [n - 32]
  else if n =? 181 then [924]
  else if n =? 223 then [83; 83]
  else if between 224 254 n && negb (n =? 247) then [n - 32]
  else if n =? 255 then [376]
  else [n].

Definition upper (s : str) : ustr := flat_map upper_char s.

(** Normalisation of one slice bound: negative counts from the end,
    then clamp into [0, len]. *)
Definition clamp (len : nat) (i : Z) : nat :=
  let l := Z.of_nat len in
  let i' := (if i <? 0 then i + l else i)%Z in
  Z.to_nat (Z.max 0 (Z.min l i')).

(** [s[lo:hi]]. *)
Definition slice {A} (s : list A) (lo hi : Z) : list A :=
  let a := clamp (length s) lo in
  let b := clamp (length s) hi in
  firstn (b - a) (skipn a s).

(** [s[lo:]]. *)
Definition slice_from {A} (s : list A) (lo : Z) : list A :=
  skipn (clamp (length s) lo) s.

(** [s[i]] for [i >= 0]; [None] stands for IndexError. *)
Definition index {A} (s : list A) (i : nat) : option A := nth_error s i.

(** ** [int(s)] in base 10 *)

(** White space skipped by the integer parser: the non-ASCII spaces are
    first mapped to a blank, the ASCII ones are those of C's isspace
    (U+001C..U+001F are not among them). *)
Definition int_space (c : ascii) : bool :=
  let n := ord c in
  between 9 13 n || (n =? 32) || (n =? 133) || (n =? 160).

Fixpoint skip_int_space (s : str) : str :=
  match s with
  | c :: s' => if int_space c then skip_int_space s' else s
  | [] => []
  end.

Definition digit_val (c : ascii) : Z := Z.of_N (ord c - 48).

Definition underscore (c : ascii) : bool := ord c =? 95.

(** Digits with single underscores between them, then optional trailing
    white space up to the end.  [acc] is the value read so far and the
    previous character was a digit. *)
Fixpoint int_digits (acc : Z) (s : str) : option Z :=
  match s with
  | [] => Some acc
  | c :: s' =>
      if isdecimal c then int_digits (10 * acc + digit_val c)%Z s'
      else if underscore c then
        match s' with
        | d :: s'' =>
            if isdecimal d then int_digits (10 * acc + digit_val d)%Z s''
            else None
        | [] => None
        end
      else if int_space c then
        match skip_int_space s' with [] => Some acc | _ => None end
      else None
  end.

Definition int_unsigned (s : str) : option Z :=
  match s with
  | c :: s' => if isdecimal c then int_digits (digit_val c) s' else None
  | [] => None
  end.

(** [None] stands for [ValueError: invalid literal for int()].  The
    strings converted by the sources have at most 9 characters, far below
    the interpreter's limit on the number of digits. *)
Definition int (s : str) : option Z :=
  match skip_int_space s with
  | c :: s' =>
      if ord c =? 43 then int_unsigned s'
      else if ord c =? 45 then option_map Z.opp (int_unsigned s')
      else int_unsigned (c :: s')
  | [] => None
  end.

(** ** Formatting *)

Definition hex_digit (d : N) : ascii :=
  if d <? 10 then chr (48 + d) else chr (55 + d).

(** Least significant digit first. *)
Fixpoint hex_rev (fuel : nat) (n : N) : str :=
  match fuel with
  | O => []
  | S fuel' =>
      if n <? 16 then [hex_digit n]
      else hex_digit (n mod 16) :: hex_rev fuel' (n / 16)
  end.

Definition zero_pad (width : nat) (s : str) : str :=
  repeat "0"%char (width - length s) ++ s.

(** [f"{n:04X}"]. *)
Definition format_04X (n : N) : str :=
  zero_pad 4 (rev (hex_rev (S (N.to_nat (N.size n))) n)).

Definition dec_digit (d : N) : ascii := chr (48 + d).

Fixpoint dec_rev (fuel : nat) (n : N) : str :=
  match fuel with
  | O => []
  | S fuel' =>
      if n <? 10 then [dec_digit n]
      else dec_digit (n mod 10) :: dec_rev fuel' (n / 10)
  end.

(** [f"{n:0{width}d}"] for [n >= 0]. *)
Definition format_0d (width : nat) (n : N) : str :=
  zero_pad width (rev (dec_rev (S (N.to_nat (N.size n))) n)).

(** ** [s.replace("\r\n", "\n")] and [s.split("\n")] *)

Definition CR : ascii := chr 13.
Definition LF : ascii := chr 10.

Fixpoint replace_crlf (s : str) : str :=
  match s with
  | c :: s' =>
      match s' with
      | d :: s'' =>
          if Ascii.eqb c CR && Ascii.eqb d LF then LF :: replace_crlf s''
          else c :: replace_crlf s'
      | [] => [c]
      end
  | [] => []
  end.

(** [cur] is the current line, reversed. *)
Fixpoint split_lf_acc (cur : str) (s : str) : list str :=
  match s with
  | [] => [rev cur]
  | c :: s' =>
      if Ascii.eqb c LF then rev cur :: split_lf_acc [] s'
      else split_lf_acc (c :: cur) s'
  end.

Definition split_lf (s : str) : list str := split_lf_acc [] s.

(** [list.sort] / [sorted]: stable, ascending for the strict order [lt]. *)
Fixpoint insert_by {A} (lt : A -> A -> bool) (x : A) (l : list A) : list A :=
  match l with
  | [] => [x]
  | y :: l' => if lt y x then y :: insert_by lt x l' else x :: l
  end.

Definition sort_by {A} (lt : A -> A -> bool) (l : list A) : list A :=
  fold_right (insert_by lt) [] l.

(** [sorted(l)] on integers. *)
Definition sorted (l : list Z) : list Z := sort_by Z.ltb l.

(** [a < b] on strings: lexicographic on code points. *)
Fixpoint str_ltb (a b : str) : bool :=
  match a, b with
  | _, [] => false
  | [], _ :: _ => true
  | x :: a', y :: b' =>
      if ord x <? ord y then true
      else if ord y <? ord x then false
      else str_ltb a' b'
  end.

(** [a == b] on lists, from the equality of the elements. *)
Fixpoint list_eqb {A} (eqb : A -> A -> bool) (a b : list A) : bool :=
  match a, b with
  | [], [] => true
  | x :: a', y :: b' => eqb x y && list_eqb eqb a' b'
  | _, _ => false
  end.

Definition str_eqb (a b : str) : bool := list_eqb Ascii.eqb a b.

Definition ustr_eqb (a b : ustr) : bool := list_eqb N.eqb a b.

End Py.

(* ===================================================================== *)
(** * processor.py                                                       *)
(* ===================================================================== *)

Module Processor.
Import Py.

(** [raw.decode("latin-1", errors="replace")]: total, one character per
    byte. *)
Definition decode_latin1 (raw : list Byte.byte) : str :=
  map ascii_of_byte raw.

(** [s.encode("latin-1", errors="replace")] on latin-1 text: every
    character is encodable, nothing is replaced. *)
Definition encode_latin1 (s : str) : list Byte.byte :=
  map byte_of_ascii s.

Definition _split_lines (s : str) : list str :=
  let s := replace_crlf s in
  let lines := split_lf s in
  filter (fun ln => negb (Nat.eqb (length (strip ln)) 0)) lines.

Definition _is_digits (s : str) : bool := isdigit s.

Definition _slice (line : str) (a b : Z) : str := slice line (a - 1) b.

(** ** CRC-16/IBM (ARC) *)

(** One pass of the inner loop body. *)
Definition crc_bit (crc : N) : N :=
  if negb (N.land crc 1 =? 0) then N.lxor (N.shiftr crc 1) 0xA001
  else N.shiftr crc 1.

(** [crc ^= byte] followed by [for _ in range(8)]. *)
Definition crc_byte (crc : N) (byte : Byte.byte) : N :=
  Nat.iter 8 crc_bit (N.lxor crc (Byte.to_N byte)).

Definition crc16_ibm_arc (data : list Byte.byte) : N :=
  N.land (fold_left crc_byte data 0x0000) 0xFFFF.

Definition _crc16_hex4_for_line (line : str) (crc_field_pos : Z * Z) : str :=
  let '(a, b) := crc_field_pos in
  let left := _slice line 1 (a - 1) in
  let right := _slice line (b + 1) (Z.of_nat (length line)) in
  let data := encode_latin1 (left ++ right) in
  format_04X (crc16_ibm_arc data).


(** ** Exceptions and line-scoped diagnostics *)

(** The exceptions the module raises; the message text of the source is
    kept as structured data. *)
Inductive exn : Type :=
| ValueError_tamanho (layout : string) (observado minimo : nat)
| ValueError_int (literal : str)
| ValueError_dh_invalido (dh : str)
| ValueError_sem_bloco_final
| ValueError_data_hora (d h : str)
| ValueError_falha (tipo : nat) (e1 e2 : exn)
| ValueError_arquivo_vazio
| ValueError_nenhum_registro (exemplos : list erro)
| IndexError
(** One entry of the [erros] list. *)
with erro : Type :=
| Linha_invalida (ln : str)
| Tipo_desconhecido (tipo : ascii)
| Erro_ao_parsear (nsr : str) (tipo : ascii) (e : exn).

Inductive result (A : Type) : Type :=
| Ok (a : A)
| Raise (e : exn).
Arguments Ok {A} a.
Arguments Raise {A} e.

Definition bind {A B} (m : result A) (k : A -> result B) : result B :=
  match m with
  | Ok a => k a
  | Raise e => Raise e
  end.

Notation "x <- m ;; k" := (bind m (fun x => k))
  (at level 61, m at next level, right associativity).

(** [try: a except Exception as e1: try: b except Exception as e2:
    raise ValueError(f"Falha no tipo ...: {e1} | fallback: {e2}")]. *)
Definition try_fallback {A} (tipo : nat) (a b : result A) : result A :=
  match a with
  | Ok r => Ok r
  | Raise e1 =>
      match b with
      | Ok r => Ok r
      | Raise e2 => Raise (ValueError_falha tipo e1 e2)
      end
  end.

Definition to_int (s : str) : result Z :=
  match int s with
  | Some z => Ok z
  | None => Raise (ValueError_int s)
  end.

(** [if len(line) < n: raise ValueError(...)]. *)
Definition require_len (layout : string) (line : str) (n : nat) : result unit :=
  if Nat.ltb (length line) n
  then Raise (ValueError_tamanho layout (length line) n)
  else Ok tt.

Definition _ddmmaaaa_to_iso (d : str) : option str :=
  if Nat.eqb (length d) 8 && _is_digits d
  then Some (slice d 4 8 ++ lit "-" ++ slice d 2 4 ++ lit "-" ++ slice d 0 2)
  else None.

Definition _hhmm_to_hhmm (h : str) : option str :=
  if Nat.eqb (length h) 4 && _is_digits h
  then Some (slice h 0 2 ++ lit ":" ++ slice h 2 4)
  else None.

(** [\d{k}] at the head of [s]: the rest after [k] decimal digits. *)
Fixpoint match_decimals (k : nat) (s : str) : option str :=
  match k with
  | O => Some s
  | S k' =>
      match s with
      | c :: s' => if isdecimal c then match_decimals k' s' else None
      | [] => None
      end
  end.

Definition match_char (p : ascii -> bool) (s : str) : option str :=
  match s with
  | c :: s' => if p c then Some s' else None
  | [] => None
  end.

Definition match_lit (l : string) (s : str) : option str :=
  let l := lit l in
  if str_eqb (firstn (length l) s) l then Some (skipn (length l) s) else None.

Definition and_then {A B} (m : option A) (k : A -> option B) : option B :=
  match m with
  | Some a => k a
  | None => None
  end.

Definition is_sign (c : ascii) : bool := (ord c =? 43) || (ord c =? 45).

(** [re.fullmatch(r"\d{4}-\d{2}-\d{2}T\d{2}:\d{2}:00[+-]\d{4}", s)]. *)
Definition _is_iso_dh (s : str) : bool :=
  match
    and_then (match_decimals 4 s) (fun s =>
    and_then (match_lit "-" s) (fun s =>
    and_then (match_decimals 2 s) (fun s =>
    and_then (match_lit "-" s) (fun s =>
    and_then (match_decimals 2 s) (fun s =>
    and_then (match_lit "T" s) (fun s =>
    and_then (match_decimals 2 s) (fun s =>
    and_then (match_lit ":" s) (fun s =>
    and_then (match_decimals 2 s) (fun s =>
    and_then (match_lit ":00" s) (fun s =>
    and_then (match_char is_sign s) (fun s =>
    match_decimals 4 s)))))))))))
  with
  | Some [] => true
  | _ => false
  end.

(** [re.fullmatch(r"\d{4}-\d{2}-\d{2}", s)]. *)
Definition _is_iso_d (s : str) : bool :=
  match
    and_then (match_decimals 4 s) (fun s =>
    and_then (match_lit "-" s) (fun s =>
    and_then (match_decimals 2 s) (fun s =>
    and_then (match_lit "-" s) (fun s =>
    match_decimals 2 s))))
  with
  | Some [] => true
  | _ => false
  end.

(** ** Record models *)

Record Registro1 : Type := mkRegistro1 {
  r1_nsr : Z;
  r1_tipo : Z;
  r1_id_empregador_tipo : option str;
  r1_id_empregador : option str;
  r1_cno_caepf : option str;
  r1_razao_social : option str;
  r1_numero_fabricacao_processo_ou_inpi : option str;
  r1_data_inicio : option str;
  r1_data_fim : option str;
  r1_data_hora_geracao : option str;
  r1_versao_layout : option str;
  r1_id_fabricante_tipo : option str;
  r1_id_fabricante : option str;
  r1_modelo_rep_c : option str;
  r1_crc16 : option ustr;
  r1_crc_ok : option bool
}.

Record Registro2 : Type := mkRegistro2 {
  r2_nsr : Z; r2_tipo : Z; r2_dh_gravacao : str; r2_cpf_responsavel : str;
  r2_id_empregador_tipo : str; r2_id_empregador : str; r2_cno_caepf : str;
  r2_razao_social : str; r2_local_prestacao : str; r2_crc16 : ustr;
  r2_crc_ok : bool
}.

Inductive formato : Type := oficial | compacto.

Record Registro3 : Type := mkRegistro3 {
  nsr : Z;
  tipo : str;
  dh_marcacao : str;
  cpf : str;
  crc16 : option ustr;
  crc_ok : option bool;
  fmt : formato
}.

Record Registro4 : Type := mkRegistro4 {
  r4_nsr : Z; r4_tipo : Z; r4_dh_antes : str; r4_dh_ajustada : str;
  r4_cpf_responsavel : str; r4_crc16 : ustr; r4_crc_ok : bool
}.

Record Registro5 : Type := mkRegistro5 {
  r5_nsr : Z; r5_tipo : Z; r5_dh_gravacao : str; r5_operacao : str;
  r5_cpf : str; r5_nome : str; r5_demais_dados : str;
  r5_cpf_responsavel : str; r5_crc16 : ustr; r5_crc_ok : bool
}.

Record Registro6 : Type := mkRegistro6 {
  r6_nsr : Z; r6_tipo : Z; r6_dh_gravacao : str; r6_tipo_evento : str
}.

Record Registro7 : Type := mkRegistro7 {
  r7_nsr : Z; r7_tipo : str; r7_dh_marcacao : str; r7_cpf : str;
  r7_dh_gravacao : str; r7_coletor_id : str; r7_online_offline : str;
  r7_hash256 : str
}.

Record Registro9 : Type := mkRegistro9 {
  r9_nsr : Z; qtd_tipo2 : Z; qtd_tipo3 : Z; qtd_tipo4 : Z; qtd_tipo5 : Z;
  qtd_tipo6 : Z; qtd_tipo7 : Z; r9_tipo : Z
}.

(** [crc == _crc16_hex4_for_line(line, pos)] with [crc] the uppercased
    field: comparison of two Python strings. *)
Definition crc_confere (crc : ustr) (line : str) (pos : Z * Z) : bool :=
  ustr_eqb crc (code_points (_crc16_hex4_for_line line pos)).

(** ** Parsers (official layouts) *)

Definition parse_registro1_oficial (line : str) : result Registro1 :=
  _ <- require_len "Tipo 1 (oficial)" line 302 ;;
  nsr <- to_int (_slice line 1 9) ;;
  tipo <- to_int (_slice line 10 10) ;;
  let id_emp_tipo := _slice line 11 11 in
  let id_emp := strip (_slice line 12 25) in
  let cno := strip (_slice line 26 39) in
  let razao := rstrip (_slice line 40 189) in
  let num_fab_proc_inpi := strip (_slice line 190 206) in
  let data_ini := _slice line 207 216 in
  let data_fim := _slice line 217 226 in
  let dh_ger := _slice line 227 250 in
  let versao := _slice line 251 253 in
  let id_fab_tipo := _slice line 254 254 in
  let id_fab := strip (_slice line 255 268) in
  let modelo := rstrip (_slice line 269 298) in
  let crc := upper (_slice line 299 302) in
  let crc_calc := _crc16_hex4_for_line line (299, 302)%Z in
  Ok (mkRegistro1 nsr tipo (Some id_emp_tipo) (Some id_emp) (Some cno)
        (Some razao) (Some num_fab_proc_inpi) (Some data_ini) (Some data_fim)
        (Some dh_ger) (Some versao) (Some id_fab_tipo) (Some id_fab)
        (Some modelo) (Some crc)
        (Some (ustr_eqb crc (code_points crc_calc)))).

Definition parse_registro2 (line : str) : result Registro2 :=
  _ <- require_len "Tipo 2" line 331 ;;
  nsr <- to_int (_slice line 1 9) ;;
  tipo <- to_int (_slice line 10 10) ;;
  let dh := _slice line 11 34 in
  let cpf_resp := strip (_slice line 35 48) in
  let id_emp_tipo := _slice line 49 49 in
  let id_emp := strip (_slice line 50 63) in
  let cno := strip (_slice line 64 77) in
  let razao := rstrip (_slice line 78 227) in
  let local := rstrip (_slice line 228 327) in
  let crc := upper (_slice line 328 331) in
  let crc_ok := crc_confere crc line (328, 331)%Z in
  Ok (mkRegistro2 nsr tipo dh cpf_resp id_emp_tipo id_emp cno razao local
        crc crc_ok).

Definition parse_registro3_oficial (line : str) : result Registro3 :=
  _ <- require_len "Tipo 3 (oficial)" line 50 ;;
  nsr <- to_int (_slice line 1 9) ;;
  let tipo := _slice line 10 10 in
  let dh := _slice line 11 34 in
  let cpf := strip (_slice line 35 46) in
  let crc := upper (_slice line 47 50) in
  let crc_ok := crc_confere crc line (47, 50)%Z in
  if negb (_is_iso_dh dh) then Raise (ValueError_dh_invalido dh)
  else Ok (mkRegistro3 nsr tipo dh cpf (Some crc) (Some crc_ok) oficial).

Definition parse_registro4 (line : str) : result Registro4 :=
  _ <- require_len "Tipo 4" line 73 ;;
  nsr <- to_int (_slice line 1 9) ;;
  tipo <- to_int (_slice line 10 10) ;;
  let dh_antes := _slice line 11 34 in
  let dh_ajustada := _slice line 35 58 in
  let cpf_resp := strip (_slice line 59 69) in
  let crc := upper (_slice line 70 73) in
  let crc_ok := crc_confere crc line (70, 73)%Z in
  Ok (mkRegistro4 nsr tipo dh_antes dh_ajustada cpf_resp crc crc_ok).

Definition parse_registro5 (line : str) : result Registro5 :=
  _ <- require_len "Tipo 5" line 118 ;;
  nsr <- to_int (_slice line 1 9) ;;
  tipo <- to_int (_slice line 10 10) ;;
  let dh := _slice line 11 34 in
  let oper := _slice line 35 35 in
  let cpf := strip (_slice line 36 47) in
  let nome := rstrip (_slice line 48 99) in
  let dados := rstrip (_slice line 100 103) in
  let cpf_resp := strip (_slice line 104 114) in
  let crc := upper (_slice line 115 118) in
  let crc_ok := crc_confere crc line (115, 118)%Z in
  Ok (mkRegistro5 nsr tipo dh oper cpf nome dados cpf_resp crc crc_ok).

Definition parse_registro6 (line : str) : result Registro6 :=
  _ <- require_len "Tipo 6" line 36 ;;
  nsr <- to_int (_slice line 1 9) ;;
  tipo <- to_int (_slice line 10 10) ;;
  let dh := _slice line 11 34 in
  let tipo_evt := _slice line 35 36 in
  Ok (mkRegistro6 nsr tipo dh tipo_evt).

Definition parse_registro7 (line : str) : result Registro7 :=
  _ <- require_len "Tipo 7" line 137 ;;
  nsr <- to_int (_slice line 1 9) ;;
  let tipo := _slice line 10 10 in
  let dh := _slice line 11 34 in
  let cpf := strip (_slice line 35 46) in
  let dh_grav := _slice line 47 70 in
  let coletor := _slice line 71 72 in
  let onoff := _slice line 73 73 in
  let h := strip (_slice line 74 137) in
  Ok (mkRegistro7 nsr tipo dh cpf dh_grav coletor onoff h).

Definition parse_registro9 (line : str) : result Registro9 :=
  _ <- require_len "Tipo 9" line 64 ;;
  nsr <- to_int (_slice line 1 9) ;;
  q2 <- to_int (_slice line 10 18) ;;
  q3 <- to_int (_slice line 19 27) ;;
  q4 <- to_int (_slice line 28 36) ;;
  q5 <- to_int (_slice line 37 45) ;;
  q6 <- to_int (_slice line 46 54) ;;
  q7 <- to_int (_slice line 55 63) ;;
  tipo9 <- to_int (_slice line 64 64) ;;
  Ok (mkRegistro9 nsr q2 q3 q4 q5 q6 q7 tipo9).

(** ** Parsers (compact fallback) *)

(** [line[i]] inside a parser. *)
Definition char_at (line : str) (i : nat) : result ascii :=
  match index line i with
  | Some c => Ok c
  | None => Raise IndexError
  end.

(** Truth value of an optional string: [None] and [""] are false. *)
Definition truthy (o : option str) : bool :=
  match o with
  | Some (_ :: _) => true
  | _ => false
  end.

Definition parse_registro1_compacto (line : str) : result Registro1 :=
  _ <- require_len "Tipo 1 compacto" line (9 + 1 + 28) ;;
  nsr <- to_int (slice line 0 9) ;;
  c <- char_at line 9 ;;
  tipo <- to_int [c] ;;
  let trail := slice_from line (-28) in
  if negb (_is_digits trail) then Raise ValueError_sem_bloco_final
  else
    let di := slice trail 0 8 in
    let df := slice trail 8 16 in
    let dg := slice trail 16 24 in
    let hg := slice trail 24 28 in
    let di_iso := _ddmmaaaa_to_iso di in
    let df_iso := _ddmmaaaa_to_iso df in
    let dg_iso := _ddmmaaaa_to_iso dg in
    let dh_ger :=
      match dg_iso, _hhmm_to_hhmm hg with
      | Some d, Some h =>
          if truthy dg_iso && truthy (_hhmm_to_hhmm hg)
          then Some (d ++ lit "T" ++ h ++ lit ":00-0300")
          else None
      | _, _ => None
      end in
    Ok (mkRegistro1 nsr tipo None None None None None di_iso df_iso dh_ger
          None None None None None None).

Definition parse_registro3_compacto (line : str) : result Registro3 :=
  _ <- require_len "Tipo 3 compacto" line 34 ;;
  nsr <- to_int (slice line 0 9) ;;
  tipo <- char_at line 9 ;;
  let d := slice line 10 18 in
  let h := slice line 18 22 in
  let cpf := strip (slice line 22 34) in
  let di := _ddmmaaaa_to_iso d in
  let hh := _hhmm_to_hhmm h in
  match di, hh with
  | Some di', Some hh' =>
      if negb (truthy di) || negb (truthy hh)
      then Raise (ValueError_data_hora d h)
      else
        let dh := di' ++ lit "T" ++ hh' ++ lit ":00-0300" in
        Ok (mkRegistro3 nsr [tipo] dh cpf None None compacto)
  | _, _ => Raise (ValueError_data_hora d h)
  end.

(** ** Main pipeline *)

(** [bucket]: the dictionary with the fixed keys "2".."7". *)
Record buckets : Type := mkBuckets {
  b2 : list Registro2;
  b3 : list Registro3;
  b4 : list Registro4;
  b5 : list Registro5;
  b6 : list Registro6;
  b7 : list Registro7
}.

(** [crc_ok_por_tipo] during the pass: the dictionary with the fixed keys
    "1".."5". *)
Record crc_listas : Type := mkCrcListas {
  c1 : list bool; c2 : list bool; c3 : list bool; c4 : list bool;
  c5 : list bool
}.

(** The local variables of [interpretar_afd] that the second loop
    updates. *)
Record estado : Type := mkEstado {
  header : option Registro1;
  bucket : buckets;
  trailer : option Registro9;
  crc_ok_por_tipo : crc_listas;
  erros : list erro
}.

Definition estado_inicial (erros : list erro) : estado :=
  mkEstado None (mkBuckets [] [] [] [] [] []) None (mkCrcListas [] [] [] [] [])
    erros.

Definition append_erro (st : estado) (e : erro) : estado :=
  mkEstado (header st) (bucket st) (trailer st) (crc_ok_por_tipo st)
    (erros st ++ [e]).

Definition set_header (st : estado) (r : Registro1) : estado :=
  let c := crc_ok_por_tipo st in
  let c' :=
    match r1_crc_ok r with
    | Some ok => mkCrcListas (c1 c ++ [ok]) (c2 c) (c3 c) (c4 c) (c5 c)
    | None => c
    end in
  mkEstado (Some r) (bucket st) (trailer st) c' (erros st).

Definition append2 (st : estado) (r : Registro2) : estado :=
  let b := bucket st in
  let c := crc_ok_por_tipo st in
  mkEstado (header st)
    (mkBuckets (b2 b ++ [r]) (b3 b) (b4 b) (b5 b) (b6 b) (b7 b))
    (trailer st)
    (mkCrcListas (c1 c) (c2 c ++ [r2_crc_ok r]) (c3 c) (c4 c) (c5 c))
    (erros st).

Definition append3 (st : estado) (r : Registro3) : estado :=
  let b := bucket st in
  let c := crc_ok_por_tipo st in
  let c' :=
    match crc_ok r with
    | Some ok => mkCrcListas (c1 c) (c2 c) (c3 c ++ [ok]) (c4 c) (c5 c)
    | None => c
    end in
  mkEstado (header st)
    (mkBuckets (b2 b) (b3 b ++ [r]) (b4 b) (b5 b) (b6 b) (b7 b))
    (trailer st) c' (erros st).

Definition append4 (st : estado) (r : Registro4) : estado :=
  let b := bucket st in
  let c := crc_ok_por_tipo st in
  mkEstado (header st)
    (mkBuckets (b2 b) (b3 b) (b4 b ++ [r]) (b5 b) (b6 b) (b7 b))
    (trailer st)
    (mkCrcListas (c1 c) (c2 c) (c3 c) (c4 c ++ [r4_crc_ok r]) (c5 c))
    (erros st).

Definition append5 (st : estado) (r : Registro5) : estado :=
  let b := bucket st in
  let c := crc_ok_por_tipo st in
  mkEstado (header st)
    (mkBuckets (b2 b) (b3 b) (b4 b) (b5 b ++ [r]) (b6 b) (b7 b))
    (trailer st)
    (mkCrcListas (c1 c) (c2 c) (c3 c) (c4 c) (c5 c ++ [r5_crc_ok r]))
    (erros st).

Definition append6 (st : estado) (r : Registro6) : estado :=
  let b := bucket st in
  mkEstado (header st)
    (mkBuckets (b2 b) (b3 b) (b4 b) (b5 b) (b6 b ++ [r]) (b7 b))
    (trailer st) (crc_ok_por_tipo st) (erros st).

Definition append7 (st : estado) (r : Registro7) : estado :=
  let b := bucket st in
  mkEstado (header st)
    (mkBuckets (b2 b) (b3 b) (b4 b) (b5 b) (b6 b) (b7 b ++ [r]))
    (trailer st) (crc_ok_por_tipo st) (erros st).

Definition set_trailer (st : estado) (r : Registro9) : estado :=
  mkEstado (header st) (bucket st) (Some r) (crc_ok_por_tipo st) (erros st).

(** The structural gate of the first loop. *)
Definition sem_nsr (ln : str) : bool :=
  Nat.ltb (length ln) 10 || negb (_is_digits (slice ln 0 9)).

(** First loop: [registros] and the first entries of [erros].  The
    conversion [int(ln[:9])] is outside any [try]. *)
Fixpoint classificar (lines : list str) (registros : list (Z * str))
    (erros : list erro) : result (list (Z * str) * list erro) :=
  match lines with
  | [] => Ok (registros, erros)
  | ln :: rest =>
      if sem_nsr ln
      then classificar rest registros (erros ++ [Linha_invalida ln])
      else
        n <- to_int (slice ln 0 9) ;;
        classificar rest (registros ++ [(n, ln)]) erros
  end.

Definition is_tipo (tipo : ascii) (d : string) : bool := str_eqb [tipo] (lit d).

Definition parse_tipo1 (line : str) : result Registro1 :=
  try_fallback 1 (parse_registro1_oficial line) (parse_registro1_compacto line).

Definition parse_tipo3 (line : str) : result Registro3 :=
  try_fallback 3 (parse_registro3_oficial line) (parse_registro3_compacto line).

(** The body of the [try] of the second loop. *)
Definition despachar (st : estado) (tipo : ascii) (line : str) : result estado :=
  if is_tipo tipo "1" then r <- parse_tipo1 line ;; Ok (set_header st r)
  else if is_tipo tipo "2" then r <- parse_registro2 line ;; Ok (append2 st r)
  else if is_tipo tipo "3" then r <- parse_tipo3 line ;; Ok (append3 st r)
  else if is_tipo tipo "4" then r <- parse_registro4 line ;; Ok (append4 st r)
  else if is_tipo tipo "5" then r <- parse_registro5 line ;; Ok (append5 st r)
  else if is_tipo tipo "6" then r <- parse_registro6 line ;; Ok (append6 st r)
  else if is_tipo tipo "7" then r <- parse_registro7 line ;; Ok (append7 st r)
  else if is_tipo tipo "9" then r <- parse_registro9 line ;; Ok (set_trailer st r)
  else Ok (append_erro st (Tipo_desconhecido tipo)).

(** One iteration of the second loop: [tipo = line[9]], then the [try]
    with its [except Exception]. *)
Definition processar (st : estado) (line : str) : result estado :=
  tipo <- char_at line 9 ;;
  match despachar st tipo line with
  | Ok st' => Ok st'
  | Raise e => Ok (append_erro st (Erro_ao_parsear (slice line 0 9) tipo e))
  end.

Fixpoint processar_todos (st : estado) (registros : list (Z * str))
    : result estado :=
  match registros with
  | [] => Ok st
  | (_, line) :: rest => st' <- processar st line ;; processar_todos st' rest
  end.

Definition list_Z_eqb (a b : list Z) : bool := list_eqb Z.eqb a b.

Definition len {A} (l : list A) : Z := Z.of_nat (length l).

Definition nonempty {A} (l : list A) : bool :=
  match l with [] => false | _ => true end.

(** [any(bucket.values())]. *)
Definition any_bucket (b : buckets) : bool :=
  nonempty (b2 b) || nonempty (b3 b) || nonempty (b4 b) || nonempty (b5 b)
  || nonempty (b6 b) || nonempty (b7 b).

Definition is_some {A} (o : option A) : bool :=
  match o with Some _ => true | None => false end.

Definition calc_contagens_ok (trailer : option Registro9) (b : buckets) : bool :=
  match trailer with
  | Some t =>
      (qtd_tipo2 t =? len (b2 b))%Z && (qtd_tipo3 t =? len (b3 b))%Z &&
      (qtd_tipo4 t =? len (b4 b))%Z && (qtd_tipo5 t =? len (b5 b))%Z &&
      (qtd_tipo6 t =? len (b6 b))%Z && (qtd_tipo7 t =? len (b7 b))%Z &&
      (r9_tipo t =? 9)%Z
  | None => true
  end.

(** [all(v) if v else None]. *)
Definition all_or_none (v : list bool) : option bool :=
  match v with
  | [] => None
  | _ => Some (forallb (fun x => x) v)
  end.

Record crc_resumo : Type := mkCrcResumo {
  crc1 : option bool; crc2 : option bool; crc3 : option bool;
  crc4 : option bool; crc5 : option bool
}.

Record validacoes : Type := mkValidacoes {
  ordem_nsr_ok : bool;
  contagens_ok : bool;
  v_crc_ok_por_tipo : crc_resumo;
  v_erros : list erro
}.

(** The dictionary returned by [interpretar_afd]. *)
Record documento : Type := mkDocumento {
  d_header : option Registro1;
  registros_por_tipo : buckets;
  d_trailer : option Registro9;
  d_validacoes : validacoes
}.

(** [interpretar_afd], from the bytes of the file at [path]. *)
Definition interpretar_afd (raw : list Byte.byte) : result documento :=
  let text := decode_latin1 raw in
  let lines := _split_lines text in
  if negb (nonempty lines) then Raise ValueError_arquivo_vazio
  else
    cl <- classificar lines [] [] ;;
    let '(registros, erros0) := cl in
    let ordem := list_Z_eqb (map fst registros) (sorted (map fst registros)) in
    st <- processar_todos (estado_inicial erros0) registros ;;
    let contagens := calc_contagens_ok (trailer st) (bucket st) in
    if negb (any_bucket (bucket st)) && negb (is_some (header st))
       && negb (is_some (trailer st))
    then Raise (ValueError_nenhum_registro (firstn 3 (erros st)))
    else
      let c := crc_ok_por_tipo st in
      Ok (mkDocumento (header st) (bucket st) (trailer st)
            (mkValidacoes ordem contagens
               (mkCrcResumo (all_or_none (c1 c)) (all_or_none (c2 c))
                  (all_or_none (c3 c)) (all_or_none (c4 c))
                  (all_or_none (c5 c)))
               (firstn 200 (erros st)))).

End Processor.

(* ===================================================================== *)
(** * summarizer.py                                                      *)
(* ===================================================================== *)

Module Summarizer.
Import Py Processor.

Local Open Scope Z_scope.

(** ** [datetime] and [timedelta]

    An aware [datetime] with zero seconds: the local calendar fields and
    the offset of its [tzinfo], in seconds east of UTC.  A [timedelta] is
    a number of seconds. *)
Record datetime : Type := mkDatetime {
  year : Z; month : Z; day : Z; hour : Z; minute : Z;
  utcoffset : Z
}.

Definition timedelta : Type := Z.

Definition is_leap (y : Z) : bool :=
  (y mod 4 =? 0) && (negb (y mod 100 =? 0) || (y mod 400 =? 0)).

Definition days_in_month (y m : Z) : Z :=
  if m =? 2 then (if is_leap y then 29 else 28)
  else if (m =? 4) || (m =? 6) || (m =? 9) || (m =? 11) then 30
  else 31.

Definition days_before_year (y : Z) : Z :=
  let y := y - 1 in
  y * 365 + y / 4 - y / 100 + y / 400.

Fixpoint days_before_month_nat (y : Z) (m : nat) : Z :=
  match m with
  | O => 0
  | S m' => days_before_month_nat y m' + days_in_month y (Z.of_nat m)
  end.

Definition days_before_month (y m : Z) : Z :=
  days_before_month_nat y (Z.to_nat (m - 1)).

Definition toordinal (dt : datetime) : Z :=
  days_before_year (year dt) + days_before_month (year dt) (month dt)
  + day dt.

(** Seconds since 0001-01-01T00:00 UTC: what the comparison and the
    difference of two aware datetimes are computed from. *)
Definition instante (dt : datetime) : Z :=
  toordinal dt * 86400 + hour dt * 3600 + minute dt * 60 - utcoffset dt.

Definition dt_ltb (a b : datetime) : bool := instante a <? instante b.
Definition dt_gtb (a b : datetime) : bool := instante b <? instante a.
Definition dt_sub (a b : datetime) : timedelta := instante a - instante b.

(** ** [_parse_iso_dh]

    [datetime.strptime(s, "%Y-%m-%dT%H:%M:00%z")] on the fixed-width shape
    [dddd-dd-ddTdd:dd:00+dddd] (sign [+] or [-]), the only shape
    [processor.py] stores in [dh_marcacao]: [_is_iso_dh] gates the official
    layout and the compact layout synthesises it.  The directives accept
    months 01..12, days 01..31, hours 00..23, minutes 00..59 and offset
    minutes 00..59; the construction of the value then rejects year 0, a
    day beyond the month's length and an offset of 24 hours or more.
    [strptime] also accepts a few looser spellings (one-digit fields, a
    lower-case [t], [Z] or colons in the offset); they do not occur in the
    interpreter's output and are not covered here. *)

Fixpoint read_decimals (k : nat) (acc : Z) (s : str) : option (Z * str) :=
  match k with
  | O => Some (acc, s)
  | S k' =>
      match s with
      | c :: s' =>
          if isdecimal c then read_decimals k' (10 * acc + digit_val c) s'
          else None
      | [] => None
      end
  end.

Definition read_sign (s : str) : option (Z * str) :=
  match s with
  | c :: s' =>
      if (ord c =? 43)%N then Some (1, s')
      else if (ord c =? 45)%N then Some (-1, s')
      else None
  | [] => None
  end.

Definition guard (b : bool) : option unit := if b then Some tt else None.

Notation "' p <-? m ;; k" :=
  (and_then m (fun x => match x with p => k end))
  (at level 61, p pattern, m at next level, right associativity).

Definition _parse_iso_dh (s : str) : option datetime :=
  ' (Y, s) <-? read_decimals 4 0 s ;;
  ' s <-? match_lit "-" s ;;
  ' (m, s) <-? read_decimals 2 0 s ;;
  ' s <-? match_lit "-" s ;;
  ' (d, s) <-? read_decimals 2 0 s ;;
  ' s <-? match_lit "T" s ;;
  ' (H, s) <-? read_decimals 2 0 s ;;
  ' s <-? match_lit ":" s ;;
  ' (M, s) <-? read_decimals 2 0 s ;;
  ' s <-? match_lit ":00" s ;;
  ' (sgn, s) <-? read_sign s ;;
  ' (zh, s) <-? read_decimals 2 0 s ;;
  ' (zm, s) <-? read_decimals 2 0 s ;;
  ' _ <-? guard (negb (nonempty s)) ;;
  ' _ <-? guard ((1 <=? m) && (m <=? 12) && (1 <=? d) && (d <=? 31)
                 && (H <=? 23) && (M <=? 59) && (zm <=? 59)) ;;
  ' _ <-? guard (zh * 3600 + zm * 60 <? 86400) ;;
  ' _ <-? guard ((1 <=? Y) && (d <=? days_in_month Y m)) ;;
  Some (mkDatetime Y m d H M (sgn * (zh * 3600 + zm * 60))).

(** [_format_td_hhmm]. *)
Definition _format_td_hhmm (td : timedelta) : str :=
  let total := td in
  let total := if total <? 0 then 0 else total in
  let h := total / 3600 in
  let m := (total mod 3600) / 60 in
  format_0d 2 (Z.to_N h) ++ lit ":" ++ format_0d 2 (Z.to_N m).

(** ** [_sum_pairs] *)

Definition par : Type := (datetime * option datetime)%type.

(** The [while i < len(times)] loop, with its three locals.  [times[i]] is
    read with [nth_error]; under [i < len(times)] it is never [None]. *)
Equations? sum_pairs_loop (times : list datetime) (i : nat)
    (total : timedelta) (pares : list par) : timedelta * list par
    by wf (length times - i)%nat lt :=
  sum_pairs_loop times i total pares with lt_dec i (length times) := {
    | right _ := (total, pares);
    | left _ with nth_error times i := {
        | None := (total, pares);
        | Some e :=
            let s := if lt_dec (i + 1) (length times)
                     then nth_error times (i + 1) else None in
            let total' :=
              match s with
              | Some s' => if dt_gtb s' e then total + dt_sub s' e else total
              | None => total
              end in
            sum_pairs_loop times (i + 2) total' (pares ++ [(e, s)]) } }.
Proof. lia. Qed.

Definition _sum_pairs (times : list datetime) : timedelta * list par :=
  sum_pairs_loop times 0 0 [].

(** ** [gerar_jornadas_por_cpf] *)

(** A row of [marcacoes_tipo3.csv] as [carregar_marcacoes_csv] returns it:
    the columns written by [exportar_marcacoes_tipo3_csv]. *)
Record marcacao : Type := mkMarcacao {
  m_nsr : Z;
  m_dh_marcacao : str;
  m_cpf : str;
  m_crc16 : option ustr;
  m_crc_ok : option bool;
  m_formato : formato
}.

Definition exportar_marcacao (r : Registro3) : marcacao :=
  mkMarcacao (nsr r) (dh_marcacao r) (cpf r) (crc16 r) (crc_ok r) (fmt r).

(** [exportar_marcacoes_tipo3_csv] followed by [carregar_marcacoes_csv]:
    the file is taken to give back the rows written to it. *)
Definition exportar_marcacoes_tipo3 (d : documento) : list marcacao :=
  map exportar_marcacao (b3 (registros_por_tipo d)).

Definition chave : Type := (str * str)%type.

Definition chave_eqb (a b : chave) : bool :=
  str_eqb (fst a) (fst b) && str_eqb (snd a) (snd b).

(** [buckets]: a dictionary in insertion order. *)
Definition grupos : Type := list (chave * list datetime).

(** [buckets[k].append(dt)] on the [defaultdict(list)]. *)
Fixpoint adicionar (k : chave) (dt : datetime) (g : grupos) : grupos :=
  match g with
  | [] => [(k, [dt])]
  | (k', ts) :: g' =>
      if chave_eqb k k' then (k', ts ++ [dt]) :: g'
      else (k', ts) :: adicionar k dt g'
  end.

(** [dt.astimezone(dt.tzinfo).date().isoformat()]. *)
Definition data_local (dt : datetime) : str :=
  format_0d 4 (Z.to_N (year dt)) ++ lit "-" ++ format_0d 2 (Z.to_N (month dt))
  ++ lit "-" ++ format_0d 2 (Z.to_N (day dt)).

(** One iteration of the grouping loop. *)
Definition agrupar_linha (g : grupos) (row : marcacao) : grupos :=
  let cpf := strip (m_cpf row) in
  let dh := strip (m_dh_marcacao row) in
  if negb (nonempty cpf) || negb (nonempty dh) then g
  else
    match _parse_iso_dh dh with
    | None => g
    | Some dt => adicionar (cpf, data_local dt) dt g
    end.

Definition agrupar (dados : list marcacao) : grupos :=
  fold_left agrupar_linha dados [].

(** A row of the summary.  The entry and exit slots keep the value that
    [_format_dh] renders ([None] for the empty string). *)
Record jornada : Type := mkJornada {
  j_cpf : str;
  j_data : str;
  j_pares : list (option datetime * option datetime);
  horas_trabalhadas : str;
  horas_extras_maior_10h : str;
  horas_extras_maior_6h : str
}.

Definition slot (pares : list par) (i : nat)
    : option datetime * option datetime :=
  match nth_error pares i with
  | Some (e, s) => (Some e, s)
  | None => (None, None)
  end.

Definition montar_linha (n_pares : nat) (g : chave * list datetime) : jornada :=
  let '((cpf, data_str), times) := g in
  let times := sort_by dt_ltb times in
  let '(total, pares) := _sum_pairs times in
  let limite_10h := 10 * 3600 in
  let limite_6h := 6 * 3600 in
  let extra_10h := if limite_10h <? total then total - limite_10h else 0 in
  let extra_6h := if limite_6h <? total then total - limite_6h else 0 in
  mkJornada cpf data_str (map (slot pares) (seq 0 n_pares))
    (_format_td_hhmm total) (_format_td_hhmm extra_10h)
    (_format_td_hhmm extra_6h).

Inductive ordenacao : Type := data_cpf | cpf_data.

(** Tuple comparison of two pairs of strings. *)
Definition par_str_ltb (a b : str * str) : bool :=
  if str_ltb (fst a) (fst b) then true
  else if str_ltb (fst b) (fst a) then false
  else str_ltb (snd a) (snd b).

Definition jornada_ltb (o : ordenacao) (a b : jornada) : bool :=
  match o with
  | cpf_data => par_str_ltb (j_cpf a, j_data a) (j_cpf b, j_data b)
  | data_cpf => par_str_ltb (j_data a, j_cpf a) (j_data b, j_cpf b)
  end.

(** The rows [gerar_jornadas_por_cpf] writes, in order. *)
Definition gerar_jornadas_por_cpf (dados : list marcacao) (n_pares : nat)
    (ordenar_por : ordenacao) : list jornada :=
  let buckets := agrupar dados in
  let linhas := map (montar_linha n_pares) buckets in
  sort_by (jornada_ltb ordenar_por) linhas.

Definition N_PARES : nat := 4.

End Summarizer.

Import Py Processor Summarizer.

(* ===================================================================== *)
(** * Reference definitions of the specification                         *)
(* ===================================================================== *)

Module Reference.

Local Open Scope N_scope.

(** ** CRC-16/ARC on a 16-bit register

    Initial register 0x0000; per byte, XOR the byte into the register and
    shift right 8 times, XORing 0xA001 in whenever the bit shifted out is
    set; no final XOR.  The register never holds more than 16 bits. *)

Definition reg16 (n : N) : N := n mod 2 ^ 16.

Definition arc_shift (reg : N) : N :=
  if N.testbit reg 0
  then reg16 (N.lxor (N.shiftr reg 1) 0xA001)
  else reg16 (N.shiftr reg 1).

Definition arc_byte (reg : N) (b : Byte.byte) : N :=
  Nat.iter 8 arc_shift (reg16 (N.lxor reg (Byte.to_N b))).

Definition crc16_arc (data : list Byte.byte) : N :=
  reg16 (fold_left arc_byte data 0).

(** The same CRC as a shift register clocked once per message bit, the
    bits of each byte entering least significant first: the feedback is
    the bit shifted out XOR the message bit, and the taps are 0xA001. *)
Fixpoint low_bits (k : nat) (m : N) : list bool :=
  match k with
  | O => []
  | S k' => N.testbit m 0 :: low_bits k' (N.shiftr m 1)
  end.

Definition bit_stream (data : list Byte.byte) : list bool :=
  flat_map (fun b => low_bits 8 (Byte.to_N b)) data.

Definition arc_clock (reg : N) (bit : bool) : N :=
  if xorb (N.testbit reg 0) bit
  then N.lxor (N.shiftr reg 1) 0xA001
  else N.shiftr reg 1.

Definition crc16_arc_serial (data : list Byte.byte) : N :=
  fold_left arc_clock (bit_stream data) 0.

(** The line without the columns [a..b] (1-based, inclusive). *)
Definition excise (line : str) (a b : nat) : str :=
  firstn (a - 1) line ++ skipn b line.

(** The text of the columns [a..b] (1-based, inclusive). *)
Definition columns (line : str) (a b : nat) : str :=
  firstn (b - (a - 1)) (skipn (a - 1) line).

Definition upper_hex_digit (c : ascii) : bool :=
  between 48 57 (ord c) || between 65 70 (ord c).

Definition hex_digit_char (c : ascii) : bool :=
  upper_hex_digit c || between 97 102 (ord c).

(** The number an uppercase hexadecimal numeral denotes. *)
Definition hex_digit_val (c : ascii) : N :=
  if ord c <? 58 then ord c - 48 else ord c - 55.

Definition hex_val (s : str) : N :=
  fold_left (fun acc c => 16 * acc + hex_digit_val c) s 0.


(** ** The interpreter, line by line *)

Definition linhas (raw : list Byte.byte) : list str :=
  _split_lines (decode_latin1 raw).

(** A classifiable line: at least 10 characters, the first 9 all digits. *)
Definition classificavel (ln : str) : bool :=
  Nat.leb 10 (length ln) && isdigit (firstn 9 ln).

Definition linhas_classificaveis (raw : list Byte.byte) : list str :=
  filter classificavel (linhas raw).


(** The first nine characters are decimal digits 0..9. *)
Definition nsr_decimal (ln : str) : bool := forallb isdecimal (firstn 9 ln).

Definition dec_step (acc : Z) (c : ascii) : Z := (10 * acc + digit_val c)%Z.

(** The number written by the first nine characters of a line. *)
Definition nsr9 (ln : str) : Z := fold_left dec_step (firstn 9 ln) 0%Z.

(** The type discriminator of a line is its 10th character. *)
Definition tipo_da_linha (d : string) (line : str) : bool :=
  match nth_error line 9 with
  | Some c => is_tipo c d
  | None => false
  end.

(** The records of one type that a list of lines yields, in order: a line
    of another type, or one its parser rejects, yields none. *)
Definition sucessos {R} (d : string) (parse : str -> result R)
    (lines : list str) : list R :=
  flat_map (fun line =>
              if tipo_da_linha d line
              then match parse line with Ok r => [r] | Raise _ => [] end
              else []) lines.

(** What one classified line does to the document. *)
Inductive efeito : Type :=
| Cabecalho (r : Registro1)
| Item2 (r : Registro2)
| Item3 (r : Registro3)
| Item4 (r : Registro4)
| Item5 (r : Registro5)
| Item6 (r : Registro6)
| Item7 (r : Registro7)
| Rodape (r : Registro9)
| Diagnostico (e : erro).

Definition efeito_de {R} (mk : R -> efeito) (line : str) (tipo : ascii)
    (p : result R) : efeito :=
  match p with
  | Ok r => mk r
  | Raise e => Diagnostico (Erro_ao_parsear (firstn 9 line) tipo e)
  end.

Definition efeito_da_linha (line : str) : option efeito :=
  match nth_error line 9 with
  | None => None
  | Some tipo =>
      Some
        (if is_tipo tipo "1"
         then efeito_de Cabecalho line tipo (parse_tipo1 line)
         else if is_tipo tipo "2"
         then efeito_de Item2 line tipo (parse_registro2 line)
         else if is_tipo tipo "3"
         then efeito_de Item3 line tipo (parse_tipo3 line)
         else if is_tipo tipo "4"
         then efeito_de Item4 line tipo (parse_registro4 line)
         else if is_tipo tipo "5"
         then efeito_de Item5 line tipo (parse_registro5 line)
         else if is_tipo tipo "6"
         then efeito_de Item6 line tipo (parse_registro6 line)
         else if is_tipo tipo "7"
         then efeito_de Item7 line tipo (parse_registro7 line)
         else if is_tipo tipo "9"
         then efeito_de Rodape line tipo (parse_registro9 line)
         else Diagnostico (Tipo_desconhecido tipo))
  end.

Definition aplicar (st : estado) (e : efeito) : estado :=
  match e with
  | Cabecalho r => set_header st r
  | Item2 r => append2 st r
  | Item3 r => append3 st r
  | Item4 r => append4 st r
  | Item5 r => append5 st r
  | Item6 r => append6 st r
  | Item7 r => append7 st r
  | Rodape r => set_trailer st r
  | Diagnostico e => append_erro st e
  end.

(** The diagnostics of the second pass, uncapped. *)
Definition diagnosticos (lines : list str) : list erro :=
  flat_map (fun line =>
              match efeito_da_linha line with
              | Some (Diagnostico e) => [e]
              | _ => []
              end) lines.

(** The last element of a list, if any, else the given value. *)
Definition ultimo {A} (l : list A) (d : option A) : option A :=
  fold_left (fun _ x => Some x) l d.


(** The crc flags the records of a bucket contribute to [crc_ok_por_tipo]. *)
Definition flags3 (rs : list Registro3) : list bool :=
  flat_map (fun r => match crc_ok r with Some ok => [ok] | None => [] end) rs.

Definition flags1 (rs : list Registro1) : list bool :=
  flat_map (fun r => match r1_crc_ok r with Some ok => [ok] | None => [] end)
    rs.

(** [st] is [st0] after the second loop has run over [lines]. *)
Definition apos (st0 : estado) (lines : list str) (st : estado) : Prop :=
  b2 (bucket st) = b2 (bucket st0) ++ sucessos "2" parse_registro2 lines /\
  b3 (bucket st) = b3 (bucket st0) ++ sucessos "3" parse_tipo3 lines /\
  b4 (bucket st) = b4 (bucket st0) ++ sucessos "4" parse_registro4 lines /\
  b5 (bucket st) = b5 (bucket st0) ++ sucessos "5" parse_registro5 lines /\
  b6 (bucket st) = b6 (bucket st0) ++ sucessos "6" parse_registro6 lines /\
  b7 (bucket st) = b7 (bucket st0) ++ sucessos "7" parse_registro7 lines /\
  header st = ultimo (sucessos "1" parse_tipo1 lines) (header st0) /\
  trailer st = ultimo (sucessos "9" parse_registro9 lines) (trailer st0) /\
  erros st = erros st0 ++ diagnosticos lines /\
  c1 (crc_ok_por_tipo st)
  = c1 (crc_ok_por_tipo st0) ++ flags1 (sucessos "1" parse_tipo1 lines) /\
  c2 (crc_ok_por_tipo st)
  = c2 (crc_ok_por_tipo st0)
    ++ map r2_crc_ok (sucessos "2" parse_registro2 lines) /\
  c3 (crc_ok_por_tipo st)
  = c3 (crc_ok_por_tipo st0) ++ flags3 (sucessos "3" parse_tipo3 lines) /\
  c4 (crc_ok_por_tipo st)
  = c4 (crc_ok_por_tipo st0)
    ++ map r4_crc_ok (sucessos "4" parse_registro4 lines) /\
  c5 (crc_ok_por_tipo st)
  = c5 (crc_ok_por_tipo st0)
    ++ map r5_crc_ok (sucessos "5" parse_registro5 lines).


(** The lines the first loop rejects, as they enter [erros]. *)
Definition erros_estruturais (raw : list Byte.byte) : list erro :=
  map Linha_invalida (filter (fun ln => negb (classificavel ln)) (linhas raw)).

(** The dictionary built from the final state of the second loop. *)
Definition montar_documento (raw : list Byte.byte) (st : estado) : documento :=
  let ns := map nsr9 (linhas_classificaveis raw) in
  let c := crc_ok_por_tipo st in
  mkDocumento (header st) (bucket st) (trailer st)
    (mkValidacoes (list_Z_eqb ns (sorted ns))
       (calc_contagens_ok (trailer st) (bucket st))
       (mkCrcResumo (all_or_none (c1 c)) (all_or_none (c2 c))
          (all_or_none (c3 c)) (all_or_none (c4 c)) (all_or_none (c5 c)))
       (firstn 200 (erros st))).

(** The validations of the document of a file, if there is one. *)
Definition validacoes_de (raw : list Byte.byte) : option validacoes :=
  match interpretar_afd raw with
  | Ok d => Some (d_validacoes d)
  | Raise _ => None
  end.

(** Something was interpreted: a header, a trailer or a record. *)
Definition algo_interpretado (st : estado) : bool :=
  any_bucket (bucket st) || is_some (header st) || is_some (trailer st).


(** The timestamp the compact layout synthesises from a [DDMMYYYY] date
    and an [HHMM] time: [YYYY-MM-DDTHH:MM:00-0300]. *)
Definition carimbo (data hora : str) : str :=
  columns data 5 8 ++ lit "-" ++ columns data 3 4 ++ lit "-"
  ++ columns data 1 2 ++ lit "T" ++ columns hora 1 2 ++ lit ":"
  ++ columns hora 3 4 ++ lit ":00-0300".


(** The six buckets a list of classified lines fills. *)
Definition registros_das_linhas (ls : list str) : buckets :=
  mkBuckets (sucessos "2" parse_registro2 ls) (sucessos "3" parse_tipo3 ls)
    (sucessos "4" parse_registro4 ls) (sucessos "5" parse_registro5 ls)
    (sucessos "6" parse_registro6 ls) (sucessos "7" parse_registro7 ls).

(** Type 3 in the words of the specification: the official layout first,
    the compact one if it fails, no record if both fail. *)
Definition marcacoes_da_linha (line : str) : list Registro3 :=
  if tipo_da_linha "3" line then
    match parse_registro3_oficial line with
    | Ok r => [r]
    | Raise _ =>
        match parse_registro3_compacto line with
        | Ok r => [r]
        | Raise _ => []
        end
    end
  else [].


(** The line with the character at index [i] (from 0) replaced by [c]. *)
Definition substituir (i : nat) (c : ascii) (line : str) : str :=
  firstn i line ++ c :: skipn (S i) line.

(** The line with the text of columns [a..b] replaced by [f]. *)
Definition substituir_campo (a b : nat) (f : str) (line : str) : str :=
  firstn (a - 1) line ++ f ++ skipn b line.

(** Checksum verification of an official type-3 line: the comparison
    [parse_registro3_oficial] stores in [crc_ok]. *)
Definition verifica_crc3 (line : str) : bool :=
  crc_confere (upper (_slice line 47 50)) line (47, 50)%Z.


(** ** Pairing, in the words of the specification *)

(** Element 0 with element 1, element 2 with element 3, and so on; a last
    element without partner is an entry with an empty exit. *)
Fixpoint emparelhar (times : list datetime) : list par :=
  match times with
  | [] => []
  | [e] => [(e, None)]
  | e :: s :: rest => (e, Some s) :: emparelhar rest
  end.

(** What a pair adds to the total: [exit - entry] when the exit is later
    than the entry, nothing otherwise. *)
Definition duracao (p : par) : timedelta :=
  match p with
  | (e, Some s) => if dt_gtb s e then dt_sub s e else 0%Z
  | (_, None) => 0%Z
  end.

Definition soma (l : list timedelta) : timedelta := fold_right Z.add 0%Z l.


(** ** Calendar validity of a compact date and time *)

(** The number a string of decimal digits writes. *)
Definition valor (s : str) : Z := fold_left dec_step s 0%Z.

(** A [DDMMYYYY] date and an [HHMM] time that name a real day and a real
    time of day: decimal digits only, year at least 1, month 1..12, day
    within the month, hour at most 23, minute at most 59. *)
Definition data_hora_real (d h : str) : bool :=
  forallb isdecimal d && forallb isdecimal h &&
  (let dia := valor (columns d 1 2) in
   let mes := valor (columns d 3 4) in
   let ano := valor (columns d 5 8) in
   let hora := valor (columns h 1 2) in
   let minuto := valor (columns h 3 4) in
   (1 <=? ano) && (1 <=? mes) && (mes <=? 12) && (1 <=? dia)
   && (dia <=? days_in_month ano mes) && (hora <=? 23) && (minuto <=? 59))%Z.

(** The [datetime] a real compact date and time denote, at [-0300]. *)
Definition datetime_compacto (d h : str) : datetime :=
  mkDatetime (valor (columns d 5 8)) (valor (columns d 3 4))
    (valor (columns d 1 2)) (valor (columns h 1 2)) (valor (columns h 3 4))
    (-10800).


(** ** Groups of the summarizer *)

(** The group of key [k] holds the timestamp [dt]. *)
Definition contem (g : grupos) (k : chave) (dt : datetime) : Prop :=
  exists times, In (k, times) g /\ In dt times.

End Reference.

Import Reference.

(* ===================================================================== *)
(** * Sample files and lines                                             *)
(* ===================================================================== *)

Module Exemplos.

(** A compact punch: NSR 1, 16/07/2025 08:00. *)
Definition compacta_1 : str := lit "0000000013160720250800123456789012".

(** A compact punch: NSR 2, 16/07/2025 12:00. *)
Definition compacta_2 : str := lit "0000000023160720251200123456789012".

(** A file of two compact punches. *)
Definition afd_compacto : list Byte.byte :=
  encode_latin1 (compacta_1 ++ [LF] ++ compacta_2 ++ [LF]).

(** A ten-character line whose NSR starts with SUPERSCRIPT TWO (byte
    0xB2), which [str.isdigit] accepts and [int] rejects. *)
Definition linha_sobrescrito : str := chr 178 :: lit "000000003".

(** A valid compact punch followed by that line. *)
Definition afd_sobrescrito : list Byte.byte :=
  encode_latin1 (compacta_1 ++ [LF] ++ linha_sobrescrito ++ [LF]).

(** An official punch with its checksum in columns 47-50. *)
Definition oficial_1 : str :=
  lit "00000000132025-07-16T18:22:00-0300123456789012CC1A".

(** The same punch with its checksum written in lower case. *)
Definition oficial_1_minusculo : str :=
  lit "00000000132025-07-16T18:22:00-0300123456789012cc1a".

Definition as_0800 : datetime := mkDatetime 2025 7 16 8 0 (-10800).
Definition as_1200 : datetime := mkDatetime 2025 7 16 12 0 (-10800).
Definition as_1300 : datetime := mkDatetime 2025 7 16 13 0 (-10800).
Definition as_1700 : datetime := mkDatetime 2025 7 16 17 0 (-10800).

(** A compact punch dated 16/13/2025 (month 13), 08:00. *)
Definition compacta_mes_13 : str := lit "0000000033161320250800123456789012".

(** A compact punch dated 16/07/2025, 99:00 (hour 99). *)
Definition compacta_hora_99 : str := lit "0000000043160720259900123456789012".

(** An official punch whose checksum field does not match. *)
Definition oficial_crc_errado : str :=
  lit "00000000132025-07-16T18:22:00-0300123456789012CC1B".

Definition afd_crc_errado : list Byte.byte :=
  encode_latin1 (oficial_crc_errado ++ [LF]).

(** Compact punches with the NSRs 1, 2, 2, 3 and 2, 1, 3. *)
Definition compacta_nsr (n : string) : str :=
  lit "00000000" ++ lit n ++ lit "3160720250800123456789012".

Definition afd_1223 : list Byte.byte :=
  encode_latin1 (compacta_nsr "1" ++ [LF] ++ compacta_nsr "2" ++ [LF]
                 ++ compacta_nsr "2" ++ [LF] ++ compacta_nsr "3" ++ [LF]).

Definition afd_213 : list Byte.byte :=
  encode_latin1 (compacta_nsr "2" ++ [LF] ++ compacta_nsr "1" ++ [LF]
                 ++ compacta_nsr "3" ++ [LF]).

(** A 64-character trailer in the layout of [parse_registro9]: NSR
    999999999, zero counts except one record of type 3, type 9 in column
    64. *)
Definition trailer_padrao : str :=
  lit "999999999" ++ lit "000000000" ++ lit "000000001" ++ lit "000000000"
  ++ lit "000000000" ++ lit "000000000" ++ lit "000000000" ++ lit "9".

Definition afd_com_trailer_padrao : list Byte.byte :=
  encode_latin1 (compacta_1 ++ [LF] ++ trailer_padrao ++ [LF]).

(** A trailer whose column 10 is the digit 9: the count of type 2 reads
    as 9. *)
Definition trailer_coluna10_9 : str :=
  lit "999999999" ++ lit "9        " ++ lit "000000001" ++ lit "000000000"
  ++ lit "000000000" ++ lit "000000000" ++ lit "000000000" ++ lit "9".

Definition afd_com_trailer : list Byte.byte :=
  encode_latin1 (compacta_1 ++ [LF] ++ trailer_coluna10_9 ++ [LF]).

(** An event record (type 6) of exactly 36 characters. *)
Definition evento_6 : str :=
  lit "0000000056" ++ lit "2025-07-16T08:00:00-0300" ++ lit "07".

(** An official header of 302 characters whose checksum field does not
    match, and a compact header. *)
Definition cabecalho_crc_errado : str :=
  lit "0000000011" ++ repeat " "%char 288 ++ lit "0000".

Definition cabecalho_compacto : str :=
  lit "0000000021" ++ lit "0107202531072025010820250800".

Definition afd_dois_cabecalhos : list Byte.byte :=
  encode_latin1 (cabecalho_crc_errado ++ [LF] ++ cabecalho_compacto ++ [LF]).

(** A file in a foreign format: one line without NSR and one of an
    unknown type. *)
Definition afd_estranho : list Byte.byte :=
  encode_latin1 (lit "cabecalho" ++ [LF] ++ lit "0000000010" ++ [LF]).

End Exemplos.

(* ===================================================================== *)
(** * Vocabulary for further properties of the code                      *)
(* ===================================================================== *)

Module Vocabulario.

(** ** Text and lines *)

Definition sem_lf (l : str) : bool :=
  forallb (fun c => negb (Ascii.eqb c LF)) l.

Definition termina_em_cr (l : str) : bool :=
  match rev l with
  | c :: _ => Ascii.eqb c CR
  | [] => false
  end.

(** A line a file can hold: no line feed inside, not blank. *)
Definition linha_de_texto (l : str) : bool :=
  sem_lf l && nonempty (strip l).

(** The text of a file whose lines all end with the terminator [term]. *)
Definition juntar (term : str) (ls : list str) : str :=
  flat_map (fun l => l ++ term) ls.


(** [k] characters, all of them decimal digits [0-9]. *)
Definition decimais (k : nat) (s : str) : bool :=
  Nat.eqb (length s) k && forallb isdecimal s.

(** The text [AAAA-MM-DD] built from its three fields. *)
Definition iso_d (y m d : str) : str :=
  y ++ lit "-" ++ m ++ lit "-" ++ d.

(** The text [AAAA-MM-DDTHH:MM:00sZZZZ] built from its fields. *)
Definition iso_dh (y m d h n : str) (sg : ascii) (z : str) : str :=
  y ++ lit "-" ++ m ++ lit "-" ++ d ++ lit "T" ++ h ++ lit ":" ++ n
    ++ lit ":00" ++ sg :: z.

(** A [DDMMAAAA] date rewritten as [AAAA-MM-DD]. *)
Definition data_iso (d : str) : str :=
  columns d 5 8 ++ lit "-" ++ columns d 3 4 ++ lit "-" ++ columns d 1 2.

(** Neither the first nor the last character is white space. *)
Definition aparado (s : str) : bool :=
  match s with
  | [] => true
  | c :: t => negb (isspace c) && negb (isspace (last t c))
  end.

(** How many records of any type, headers and trailers included, the
    parsers return for a list of lines. *)
Definition registros_contados (ls : list str) : nat :=
  length (sucessos "1" parse_tipo1 ls) + length (sucessos "2" parse_registro2 ls)
  + length (sucessos "3" parse_tipo3 ls) + length (sucessos "4" parse_registro4 ls)
  + length (sucessos "5" parse_registro5 ls) + length (sucessos "6" parse_registro6 ls)
  + length (sucessos "7" parse_registro7 ls) + length (sucessos "9" parse_registro9 ls).

(** The line is of type [d] and its parser returns a record. *)
Definition aceita {R} (d : string) (parse : str -> result R) (line : str)
    : bool :=
  tipo_da_linha d line && match parse line with Ok _ => true | Raise _ => false end.

(** The number a hexadecimal numeral denotes, in either letter case. *)
Definition hex_digit_val_ci (c : ascii) : N :=
  if ord c <? 58 then ord c - 48
  else if ord c <? 71 then ord c - 55 else ord c - 87.

Definition hex_val_ci (s : str) : N :=
  fold_left (fun acc c => 16 * acc + hex_digit_val_ci c) s 0.

(** The line with the checksum the code computes for it written into the
    four columns from [a]. *)
Definition selar (a : nat) (line : str) : str :=
  substituir_campo a (a + 3)
    (_crc16_hex4_for_line line (Z.of_nat a, Z.of_nat (a + 3))) line.

(** What a complete pair spans, whatever the order of its two ends. *)
Definition intervalo (p : par) : timedelta :=
  match p with
  | (e, Some s) => (instante s - instante e)%Z
  | (_, None) => 0%Z
  end.

(** From the first to the last element of a list of timestamps. *)
Definition amplitude (times : list datetime) : timedelta :=
  match times with
  | [] => 0%Z
  | e :: _ => (instante (last times e) - instante e)%Z
  end.

(** The punch a row of the punches file contributes to the grouping: its
    stripped tax ID, the local date of its timestamp and the timestamp;
    none when the tax ID or the timestamp is blank or the timestamp does
    not parse. *)
Definition marcacao_aceita (row : marcacao) : option (chave * datetime) :=
  let cpf := strip (m_cpf row) in
  let dh := strip (m_dh_marcacao row) in
  if nonempty cpf && nonempty dh then
    match _parse_iso_dh dh with
    | Some dt => Some ((cpf, data_local dt), dt)
    | None => None
    end
  else None.

Definition marcacoes_aceitas (dados : list marcacao)
    : list (chave * datetime) :=
  flat_map (fun row => match marcacao_aceita row with
                       | Some p => [p]
                       | None => []
                       end) dados.

(** The timestamps of the punches of key [k], in the order of the file. *)
Definition grupo_de (k : chave) (aceitas : list (chave * datetime))
    : list datetime :=
  map snd (filter (fun p => chave_eqb (fst p) k) aceitas).

Definition chave_da_jornada (j : jornada) : chave := (j_cpf j, j_data j).

(** The state of the grouping loop after the rows that gave [aceitas]:
    distinct keys, each with exactly the timestamps of its punches in
    file order, no empty group, and a group for every punch. *)
Definition agrupado (g : grupos) (aceitas : list (chave * datetime)) : Prop :=
  NoDup (map fst g) /\
  Forall (fun e => snd e = grupo_de (fst e) aceitas) g /\
  Forall (fun e => snd e <> []) g /\
  (forall p, In p aceitas -> In (fst p) (map fst g)).

(** The fields of a timestamp of the official shape name a real day, a
    real time of day and an offset below 24 hours with minutes below 60. *)
Definition campos_reais (y m d h n z : str) : bool :=
  ((1 <=? valor y) && (1 <=? valor m) && (valor m <=? 12) && (1 <=? valor d)
   && (valor d <=? days_in_month (valor y) (valor m))
   && (valor h <=? 23) && (valor n <=? 59)
   && (valor (columns z 1 2) <=? 23) && (valor (columns z 3 4) <=? 59))%Z.

(** The offset [sHHMM] in seconds east of UTC. *)
Definition deslocamento (sg : ascii) (z : str) : Z :=
  ((if (ord sg =? 45)%N then -1 else 1)
   * (valor (columns z 1 2) * 3600 + valor (columns z 3 4) * 60))%Z.

End Vocabulario.

Import Vocabulario.

(* ===================================================================== *)
(** * Facts about the built-ins                                          *)
(* ===================================================================== *)

Section SliceFacts.
Context {A : Type}.

Lemma clamp_of_nat (n i : nat) : clamp n (Z.of_nat i) = Nat.min i n.
Proof.
  unfold clamp.
  destruct (Z.ltb_spec (Z.of_nat i) 0); lia.
Qed.

(** With non-negative bounds a Python slice is [firstn] after [skipn]. *)
Lemma slice_of_nat (s : list A) (a b : nat) :
  slice s (Z.of_nat a) (Z.of_nat b) = firstn (b - a) (skipn a s).
Proof.
  unfold slice. rewrite !clamp_of_nat.
  destruct (Nat.le_gt_cases (length s) a) as [Hlen | Hlen].
  - rewrite (skipn_all2 s Hlen).
    rewrite (skipn_all2 s) by lia.
    now rewrite !firstn_nil.
  - replace (Nat.min a (length s)) with a by lia.
    destruct (Nat.le_gt_cases b (length s)) as [Hb | Hb].
    + now replace (Nat.min b (length s)) with b by lia.
    + replace (Nat.min b (length s)) with (length s) by lia.
      rewrite !firstn_all2; try reflexivity; rewrite length_skipn; lia.
Qed.

Lemma slice_from_of_nat (s : list A) (a : nat) :
  slice_from s (Z.of_nat a) = skipn a s.
Proof.
  unfold slice_from. rewrite clamp_of_nat.
  destruct (Nat.le_gt_cases (length s) a) as [Hlen | Hlen].
  - rewrite (skipn_all2 s Hlen). apply skipn_all2. lia.
  - now replace (Nat.min a (length s)) with a by lia.
Qed.

End SliceFacts.

(** [_slice line a b] is the text of columns [a..b]. *)
Lemma _slice_columns (line : str) (a b : nat) :
  (1 <= a)%nat ->
  _slice line (Z.of_nat a) (Z.of_nat b) = columns line a b.
Proof.
  intros Ha. unfold _slice, columns.
  replace (Z.of_nat a - 1)%Z with (Z.of_nat (a - 1)) by lia.
  apply slice_of_nat.
Qed.

Section ListEqb.
Context {A : Type} (eqb : A -> A -> bool).
Hypothesis eqb_spec : forall x y, eqb x y = true <-> x = y.

Lemma list_eqb_eq (a b : list A) : list_eqb eqb a b = true <-> a = b.
Proof.
  revert b. induction a as [| x a IH]; intros [| y b]; simpl;
    try (split; [discriminate | discriminate]); try tauto.
  rewrite andb_true_iff, eqb_spec, IH.
  split; [intros [-> ->]; reflexivity | intros [= -> ->]; auto].
Qed.

Lemma list_eqb_refl (a : list A) : list_eqb eqb a a = true.
Proof. now apply list_eqb_eq. Qed.

Lemma list_eqb_neq (a b : list A) : list_eqb eqb a b = false <-> a <> b.
Proof.
  rewrite <- list_eqb_eq. destruct (list_eqb eqb a b); split; congruence.
Qed.

End ListEqb.

Lemma str_eqb_eq (a b : str) : str_eqb a b = true <-> a = b.
Proof. apply list_eqb_eq. intros x y. apply Ascii.eqb_eq. Qed.

Lemma ustr_eqb_eq (a b : ustr) : ustr_eqb a b = true <-> a = b.
Proof. apply list_eqb_eq. intros x y. apply N.eqb_eq. Qed.

Lemma ustr_eqb_neq (a b : ustr) : ustr_eqb a b = false <-> a <> b.
Proof. apply list_eqb_neq. intros x y. apply N.eqb_eq. Qed.

Lemma list_Z_eqb_eq (a b : list Z) : list_Z_eqb a b = true <-> a = b.
Proof. apply list_eqb_eq. intros x y. apply Z.eqb_eq. Qed.

Lemma ord_inj (c d : ascii) : ord c = ord d -> c = d.
Proof.
  unfold ord. intros H.
  rewrite <- (ascii_N_embedding c), <- (ascii_N_embedding d). now rewrite H.
Qed.

Lemma ord_lt_256 (c : ascii) : (ord c < 256)%N.
Proof. apply N_ascii_bounded. Qed.

Lemma code_points_inj (a b : str) : code_points a = code_points b -> a = b.
Proof.
  revert b. induction a as [| x a IH]; intros [| y b]; simpl; try discriminate.
  - reflexivity.
  - intros [= Hxy Hab]. f_equal; [now apply ord_inj | now apply IH].
Qed.

(* ===================================================================== *)
(** * The checksum engine                                                *)
(* ===================================================================== *)

Section Crc.
Local Open Scope N_scope.

Lemma lxor_lt_pow2 (a b n : N) : a < 2 ^ n -> b < 2 ^ n -> N.lxor a b < 2 ^ n.
Proof.
  intros Ha Hb.
  destruct (N.eq_dec (N.lxor a b) 0) as [-> | Hne]; [lia |].
  apply N.log2_lt_pow2; [lia |].
  eapply N.le_lt_trans; [apply N.log2_lxor |].
  destruct (N.eq_dec a 0) as [-> | Ha0]; destruct (N.eq_dec b 0) as [-> | Hb0].
  - now rewrite N.lxor_0_l in Hne.
  - rewrite N.max_r by (apply N.log2_nonneg). apply N.log2_lt_pow2; lia.
  - rewrite N.max_l by (apply N.log2_nonneg). apply N.log2_lt_pow2; lia.
  - apply N.max_lub_lt; apply N.log2_lt_pow2; lia.
Qed.

Lemma shiftr1_lt (c : N) : c < 2 ^ 16 -> N.shiftr c 1 < 2 ^ 15.
Proof.
  intros Hc. rewrite N.shiftr_div_pow2.
  apply N.Div0.div_lt_upper_bound. change (2 ^ 1 * 2 ^ 15) with (2 ^ 16). exact Hc.
Qed.

Lemma crc_bit_lt (c : N) : c < 2 ^ 16 -> crc_bit c < 2 ^ 16.
Proof.
  intros Hc. unfold crc_bit. pose proof (shiftr1_lt c Hc) as Hs.
  destruct (negb (N.land c 1 =? 0)).
  - apply lxor_lt_pow2; [| reflexivity].
    eapply N.lt_trans; [exact Hs | reflexivity].
  - eapply N.lt_trans; [exact Hs | reflexivity].
Qed.

Lemma iter_crc_bit_lt (k : nat) (c : N) :
  c < 2 ^ 16 -> Nat.iter k crc_bit c < 2 ^ 16.
Proof. intros Hc. induction k; simpl; [exact Hc | now apply crc_bit_lt]. Qed.

Lemma byte_lt_pow16 (b : Byte.byte) : Byte.to_N b < 2 ^ 16.
Proof.
  eapply N.le_lt_trans; [apply Byte.to_N_bounded |]. reflexivity.
Qed.

Lemma crc_byte_lt (c : N) (b : Byte.byte) : c < 2 ^ 16 -> crc_byte c b < 2 ^ 16.
Proof.
  intros Hc. unfold crc_byte. apply iter_crc_bit_lt.
  apply lxor_lt_pow2; [exact Hc | apply byte_lt_pow16].
Qed.

Lemma fold_crc_byte_lt (data : list Byte.byte) (c : N) :
  c < 2 ^ 16 -> fold_left crc_byte data c < 2 ^ 16.
Proof.
  revert c. induction data as [| b data IH]; intros c Hc; simpl;
    [exact Hc | apply IH, crc_byte_lt, Hc].
Qed.

Lemma land_FFFF (c : N) : N.land c 0xFFFF = c mod 2 ^ 16.
Proof. change 0xFFFF with (N.ones 16). apply N.land_ones. Qed.

(** The value returned is the register itself: the final mask removes
    nothing. *)
Lemma crc16_ibm_arc_fold (data : list Byte.byte) :
  crc16_ibm_arc data = fold_left crc_byte data 0.
Proof.
  unfold crc16_ibm_arc. rewrite land_FFFF.
  apply N.mod_small, fold_crc_byte_lt. reflexivity.
Qed.

Lemma crc16_ibm_arc_lt (data : list Byte.byte) : crc16_ibm_arc data < 2 ^ 16.
Proof. rewrite crc16_ibm_arc_fold. apply fold_crc_byte_lt. reflexivity. Qed.

Lemma low_bit_test (c : N) : negb (N.land c 1 =? 0) = N.testbit c 0.
Proof. destruct c as [| [p | p |]]; reflexivity. Qed.

Lemma arc_shift_crc_bit (c : N) : c < 2 ^ 16 -> arc_shift c = crc_bit c.
Proof.
  intros Hc. pose proof (crc_bit_lt c Hc) as Hlt. revert Hlt.
  unfold arc_shift, crc_bit, reg16. rewrite low_bit_test.
  destruct (N.testbit c 0); intros Hlt; now apply N.mod_small.
Qed.

Lemma iter_arc_shift (k : nat) (c : N) :
  c < 2 ^ 16 -> Nat.iter k arc_shift c = Nat.iter k crc_bit c.
Proof.
  intros Hc. induction k as [| k IH]; simpl; [reflexivity |].
  rewrite IH. apply arc_shift_crc_bit, iter_crc_bit_lt, Hc.
Qed.

Lemma arc_byte_crc_byte (c : N) (b : Byte.byte) :
  c < 2 ^ 16 -> arc_byte c b = crc_byte c b.
Proof.
  intros Hc. unfold arc_byte, crc_byte, reg16.
  assert (H : N.lxor c (Byte.to_N b) < 2 ^ 16)
    by (apply lxor_lt_pow2; [exact Hc | apply byte_lt_pow16]).
  rewrite (N.mod_small _ _ H). now apply iter_arc_shift.
Qed.

Lemma fold_arc_byte (data : list Byte.byte) (c : N) :
  c < 2 ^ 16 -> fold_left arc_byte data c = fold_left crc_byte data c.
Proof.
  revert c. induction data as [| b data IH]; intros c Hc; simpl;
    [reflexivity |].
  rewrite (arc_byte_crc_byte c b Hc). apply IH, crc_byte_lt, Hc.
Qed.

Lemma crc16_ibm_arc_reference (data : list Byte.byte) :
  crc16_ibm_arc data = crc16_arc data.
Proof.
  rewrite crc16_ibm_arc_fold. unfold crc16_arc, reg16.
  rewrite fold_arc_byte by reflexivity.
  symmetry. apply N.mod_small, fold_crc_byte_lt. reflexivity.
Qed.

(** XORing a whole byte in and shifting 8 times is clocking its 8 bits in
    one by one. *)
Lemma crc_bit_lxor (c m : N) :
  crc_bit (N.lxor c m)
  = N.lxor (arc_clock c (N.testbit m 0)) (N.shiftr m 1).
Proof.
  unfold crc_bit, arc_clock.
  rewrite low_bit_test, N.lxor_spec, N.shiftr_lxor.
  destruct (xorb (N.testbit c 0) (N.testbit m 0)); [| reflexivity].
  rewrite !N.lxor_assoc. f_equal. apply N.lxor_comm.
Qed.

Lemma iter_crc_bit_lxor (k : nat) (c m : N) :
  Nat.iter k crc_bit (N.lxor c m)
  = N.lxor (fold_left arc_clock (low_bits k m) c) (N.shiftr m (N.of_nat k)).
Proof.
  revert c m. induction k as [| k IH]; intros c m.
  - cbn [Nat.iter nat_rect low_bits fold_left]. change (N.of_nat 0) with 0.
    now rewrite N.shiftr_0_r.
  - rewrite Nat.iter_succ_r, crc_bit_lxor, IH. cbn [low_bits fold_left].
    f_equal. rewrite N.shiftr_shiftr. f_equal. lia.
Qed.

Lemma crc_byte_serial (c : N) (b : Byte.byte) :
  crc_byte c b = fold_left arc_clock (low_bits 8 (Byte.to_N b)) c.
Proof.
  unfold crc_byte. rewrite iter_crc_bit_lxor.
  replace (N.shiftr (Byte.to_N b) (N.of_nat 8)) with 0;
    [apply N.lxor_0_r |].
  symmetry. rewrite N.shiftr_div_pow2. apply N.div_small.
  eapply N.le_lt_trans; [apply Byte.to_N_bounded | reflexivity].
Qed.

Lemma fold_crc_byte_serial (data : list Byte.byte) (c : N) :
  fold_left crc_byte data c = fold_left arc_clock (bit_stream data) c.
Proof.
  revert c. induction data as [| b data IH]; intros c; [reflexivity |].
  cbn [fold_left bit_stream flat_map]. rewrite fold_left_app.
  now rewrite crc_byte_serial, IH.
Qed.

Lemma crc16_ibm_arc_serial (data : list Byte.byte) :
  crc16_ibm_arc data = crc16_arc_serial data.
Proof. rewrite crc16_ibm_arc_fold. apply fold_crc_byte_serial. Qed.

End Crc.

(** ** Error detection: one changed byte changes the register *)

Section CrcInjective.
Local Open Scope N_scope.

Lemma testbit_high (a n m : N) : a < 2 ^ n -> n <= m -> N.testbit a m = false.
Proof.
  intros Ha Hnm.
  destruct (N.eq_dec a 0) as [-> | Hne]; [apply N.bits_0 |].
  apply N.bits_above_log2.
  eapply N.lt_le_trans; [| exact Hnm]. apply N.log2_lt_pow2; lia.
Qed.

Lemma lxor_cancel_r (a b k : N) : N.lxor a k = N.lxor b k -> a = b.
Proof.
  intros H. apply (f_equal (fun x => N.lxor x k)) in H.
  now rewrite !N.lxor_assoc, !N.lxor_nilpotent, !N.lxor_0_r in H.
Qed.

Lemma lxor_cancel_l (a b k : N) : N.lxor k a = N.lxor k b -> a = b.
Proof. rewrite !(N.lxor_comm k). apply lxor_cancel_r. Qed.

(** Bit 15 of the shifted register is the bit that was shifted out. *)
Lemma crc_bit_top (c : N) :
  c < 2 ^ 16 -> N.testbit (crc_bit c) 15 = N.testbit c 0.
Proof.
  intros Hc. unfold crc_bit. rewrite low_bit_test.
  assert (Hs : N.testbit (N.shiftr c 1) 15 = false)
    by (apply (testbit_high _ 15); [now apply shiftr1_lt | lia]).
  destruct (N.testbit c 0).
  - now rewrite N.lxor_spec, Hs.
  - exact Hs.
Qed.

Lemma shiftr1_low_bit (c : N) : c = 2 * N.shiftr c 1 + N.b2n (N.testbit c 0).
Proof.
  rewrite <- N.div2_spec, N.bit0_odd. apply N.div2_odd.
Qed.

Lemma crc_bit_inj (c d : N) :
  c < 2 ^ 16 -> d < 2 ^ 16 -> crc_bit c = crc_bit d -> c = d.
Proof.
  intros Hc Hd H.
  assert (Hb : N.testbit c 0 = N.testbit d 0)
    by (rewrite <- (crc_bit_top c Hc), <- (crc_bit_top d Hd); now rewrite H).
  assert (Hs : N.shiftr c 1 = N.shiftr d 1).
  { revert H. unfold crc_bit. rewrite !low_bit_test, <- Hb.
    destruct (N.testbit c 0); [apply lxor_cancel_r | trivial]. }
  rewrite (shiftr1_low_bit c), (shiftr1_low_bit d). now rewrite Hs, Hb.
Qed.

Lemma iter_crc_bit_inj (k : nat) (c d : N) :
  c < 2 ^ 16 -> d < 2 ^ 16 ->
  Nat.iter k crc_bit c = Nat.iter k crc_bit d -> c = d.
Proof.
  intros Hc Hd. induction k as [| k IH]; simpl; [trivial |].
  intros H. apply IH. apply crc_bit_inj; auto using iter_crc_bit_lt.
Qed.

Lemma to_N_inj (x y : Byte.byte) : Byte.to_N x = Byte.to_N y -> x = y.
Proof.
  intros H. pose proof (Byte.of_to_N x) as Hx. rewrite H, Byte.of_to_N in Hx.
  now injection Hx.
Qed.

Lemma crc_byte_inj_state (c d : N) (b : Byte.byte) :
  c < 2 ^ 16 -> d < 2 ^ 16 -> crc_byte c b = crc_byte d b -> c = d.
Proof.
  intros Hc Hd H. unfold crc_byte in H.
  apply iter_crc_bit_inj in H;
    try (apply lxor_lt_pow2; auto using byte_lt_pow16).
  now apply lxor_cancel_r in H.
Qed.

Lemma crc_byte_inj_byte (c : N) (x y : Byte.byte) :
  c < 2 ^ 16 -> crc_byte c x = crc_byte c y -> x = y.
Proof.
  intros Hc H. unfold crc_byte in H.
  apply iter_crc_bit_inj in H;
    try (apply lxor_lt_pow2; auto using byte_lt_pow16).
  apply lxor_cancel_l in H. now apply to_N_inj.
Qed.

Lemma fold_crc_byte_inj (data : list Byte.byte) (c d : N) :
  c < 2 ^ 16 -> d < 2 ^ 16 ->
  fold_left crc_byte data c = fold_left crc_byte data d -> c = d.
Proof.
  revert c d. induction data as [| b data IH]; intros c d Hc Hd; simpl;
    [trivial |].
  intros H. apply IH in H; auto using crc_byte_lt.
  now apply crc_byte_inj_state in H.
Qed.

(** Two messages that differ in exactly one byte have different CRCs. *)
Lemma crc16_single_byte (p q : list Byte.byte) (x y : Byte.byte) :
  x <> y -> crc16_ibm_arc (p ++ x :: q) <> crc16_ibm_arc (p ++ y :: q).
Proof.
  intros Hxy H. rewrite !crc16_ibm_arc_fold, !fold_left_app in H. simpl in H.
  assert (Hp : fold_left crc_byte p 0 < 2 ^ 16)
    by (apply fold_crc_byte_lt; reflexivity).
  apply fold_crc_byte_inj in H; auto using crc_byte_lt.
  now apply crc_byte_inj_byte in H.
Qed.

End CrcInjective.

(** ** Rendering as hexadecimal *)

Section Hex.
Local Open Scope N_scope.

Lemma lt_16_cases (d : N) :
  d < 16 -> In d [0; 1; 2; 3; 4; 5; 6; 7; 8; 9; 10; 11; 12; 13; 14; 15].
Proof.
  intros Hd. rewrite <- (N2Nat.id d).
  assert (H : (N.to_nat d < 16)%nat) by lia.
  revert H. generalize (N.to_nat d). intros n Hn.
  do 16 (destruct n as [| n]; [simpl; tauto |]). lia.
Qed.

Lemma hex_digit_val_digit (d : N) : d < 16 -> hex_digit_val (hex_digit d) = d.
Proof.
  intros Hd. apply lt_16_cases in Hd. simpl in Hd.
  repeat (destruct Hd as [<- | Hd]; [reflexivity |]). contradiction.
Qed.

Lemma hex_digit_upper (d : N) : d < 16 -> upper_hex_digit (hex_digit d) = true.
Proof.
  intros Hd. apply lt_16_cases in Hd. simpl in Hd.
  repeat (destruct Hd as [<- | Hd]; [reflexivity |]). contradiction.
Qed.

Lemma hex_val_snoc (s : str) (c : ascii) :
  hex_val (s ++ [c]) = 16 * hex_val s + hex_digit_val c.
Proof. unfold hex_val. now rewrite fold_left_app. Qed.

Lemma hex_val_rev_hex_rev (fuel : nat) (n : N) :
  n < 16 ^ N.of_nat fuel -> hex_val (rev (hex_rev fuel n)) = n.
Proof.
  revert n. induction fuel as [| fuel IH]; intros n Hn.
  - simpl in Hn. assert (n = 0) by lia. subst. reflexivity.
  - cbn [hex_rev]. destruct (N.ltb_spec n 16) as [Hlt | Hge].
    + simpl. unfold hex_val. simpl. now apply hex_digit_val_digit.
    + cbn [rev]. rewrite hex_val_snoc, IH.
      * rewrite hex_digit_val_digit by (apply N.mod_upper_bound; lia).
        symmetry. apply N.div_mod'.
      * apply N.Div0.div_lt_upper_bound.
        rewrite Nat2N.inj_succ, N.pow_succ_r' in Hn. exact Hn.
Qed.

Lemma hex_rev_upper (fuel : nat) (n : N) :
  forallb upper_hex_digit (hex_rev fuel n) = true.
Proof.
  revert n. induction fuel as [| fuel IH]; intros n; [reflexivity |].
  cbn [hex_rev]. destruct (N.ltb_spec n 16) as [Hlt | Hge]; cbn [forallb].
  - now rewrite hex_digit_upper.
  - rewrite hex_digit_upper by (apply N.mod_upper_bound; lia). apply IH.
Qed.

Lemma hex_rev_length (fuel : nat) (n : N) (k : nat) :
  n < 16 ^ N.of_nat (S k) -> (length (hex_rev fuel n) <= S k)%nat.
Proof.
  revert n k. induction fuel as [| fuel IH]; intros n k Hn; [simpl; lia |].
  cbn [hex_rev]. destruct (N.ltb_spec n 16) as [Hlt | Hge]; [simpl; lia |].
  destruct k as [| k]; [change (16 ^ N.of_nat 1) with 16 in Hn; lia |].
  cbn [length]. apply le_n_S, IH.
  apply N.Div0.div_lt_upper_bound.
  rewrite Nat2N.inj_succ, N.pow_succ_r' in Hn. exact Hn.
Qed.

Lemma hex_rev_nonempty (fuel : nat) (n : N) :
  (1 <= length (hex_rev (S fuel) n))%nat.
Proof. cbn [hex_rev]. destruct (n <? 16); simpl; lia. Qed.

Lemma size_fuel (n : N) : n < 16 ^ N.of_nat (S (N.to_nat (N.size n))).
Proof.
  rewrite Nat2N.inj_succ, N2Nat.id.
  eapply N.lt_le_trans; [apply N.size_gt |].
  eapply N.le_trans; [| apply N.pow_le_mono_r; [lia | apply N.le_succ_diag_r]].
  apply N.pow_le_mono_l. lia.
Qed.

Lemma hex_val_zeros (k : nat) (s : str) :
  hex_val (repeat "0"%char k ++ s) = hex_val s.
Proof.
  unfold hex_val. rewrite fold_left_app. f_equal.
  induction k as [| k IH]; simpl; [reflexivity | exact IH].
Qed.

Lemma hex_val_format_04X (n : N) : hex_val (format_04X n) = n.
Proof.
  unfold format_04X, zero_pad. rewrite hex_val_zeros.
  apply hex_val_rev_hex_rev, size_fuel.
Qed.

Lemma format_04X_inj (n m : N) : format_04X n = format_04X m -> n = m.
Proof.
  intros H. rewrite <- (hex_val_format_04X n), <- (hex_val_format_04X m).
  now rewrite H.
Qed.

Lemma forallb_repeat {A} (p : A -> bool) (x : A) (k : nat) :
  p x = true -> forallb p (repeat x k) = true.
Proof. intros Hx. induction k; simpl; [reflexivity | now rewrite Hx]. Qed.

Lemma forallb_rev_eq {A} (p : A -> bool) (l : list A) :
  forallb p (rev l) = forallb p l.
Proof.
  induction l as [| x l IH]; simpl; [reflexivity |].
  rewrite forallb_app, IH. simpl. rewrite andb_true_r. apply andb_comm.
Qed.

Lemma format_04X_upper (n : N) :
  forallb upper_hex_digit (format_04X n) = true.
Proof.
  unfold format_04X, zero_pad. rewrite forallb_app, forallb_repeat by reflexivity.
  rewrite forallb_rev_eq. apply hex_rev_upper.
Qed.

Lemma format_04X_length (n : N) : n < 2 ^ 16 -> length (format_04X n) = 4%nat.
Proof.
  intros Hn. unfold format_04X, zero_pad.
  rewrite length_app, repeat_length, length_rev.
  pose proof (hex_rev_length (S (N.to_nat (N.size n))) n 3 Hn).
  pose proof (hex_rev_nonempty (N.to_nat (N.size n)) n). lia.
Qed.

End Hex.

(* ===================================================================== *)
(** * The record parsers                                                 *)
(* ===================================================================== *)

Lemma to_int_ok (s : str) (z : Z) : to_int s = Ok z <-> int s = Some z.
Proof. unfold to_int. destruct (int s); split; congruence. Qed.

Lemma require_len_ok (layout : string) (line : str) (n : nat) :
  require_len layout line n = Ok tt <-> (n <= length line)%nat.
Proof.
  unfold require_len. destruct (Nat.ltb_spec (length line) n); split;
    try congruence; lia.
Qed.

(** Inversion of a chain of binds that returned. *)
Ltac bind_inv H :=
  repeat match type of H with
    | bind ?m _ = Ok _ =>
        let E := fresh "E" in
        destruct m eqn:E; cbn [bind] in H; [| discriminate H]
    | (if ?c then _ else _) = Ok _ =>
        let E := fresh "E" in
        destruct c eqn:E; try discriminate H
    | Ok _ = Ok _ => injection H as H
    end.

Lemma byte_of_ascii_code (c : ascii) : Byte.to_N (byte_of_ascii c) = ord c.
Proof.
  apply Byte.to_of_N. symmetry. apply byte_of_ascii_via_N.
Qed.

Lemma encode_latin1_codes (s : str) :
  map Byte.to_N (encode_latin1 s) = code_points s.
Proof.
  unfold encode_latin1, code_points. rewrite map_map.
  apply map_ext, byte_of_ascii_code.
Qed.

Lemma _crc16_hex4_for_line_excise (line : str) (a b : nat) :
  (1 <= a)%nat ->
  _crc16_hex4_for_line line (Z.of_nat a, Z.of_nat b)
  = format_04X (crc16_ibm_arc (encode_latin1 (excise line a b))).
Proof.
  intros Ha. unfold _crc16_hex4_for_line, excise, _slice.
  replace (1 - 1)%Z with (Z.of_nat 0) by reflexivity.
  replace (Z.of_nat a - 1)%Z with (Z.of_nat (a - 1)) by lia.
  replace (Z.of_nat b + 1 - 1)%Z with (Z.of_nat b) by lia.
  rewrite !slice_of_nat. cbn [skipn]. rewrite Nat.sub_0_r.
  rewrite (firstn_all2 (skipn b line)) by (rewrite length_skipn; lia).
  reflexivity.
Qed.

Lemma parse_registro1_oficial_crc (line : str) (r : Registro1) :
  parse_registro1_oficial line = Ok r ->
  r1_crc16 r = Some (upper (_slice line 299 302)) /\
  r1_crc_ok r
  = Some (crc_confere (upper (_slice line 299 302)) line (299, 302)%Z).
Proof.
  unfold parse_registro1_oficial. intros H. bind_inv H. subst r. now split.
Qed.

Lemma parse_registro2_crc (line : str) (r : Registro2) :
  parse_registro2 line = Ok r ->
  r2_crc16 r = upper (_slice line 328 331) /\
  r2_crc_ok r = crc_confere (upper (_slice line 328 331)) line (328, 331)%Z.
Proof.
  unfold parse_registro2. intros H. bind_inv H. subst r. now split.
Qed.

Lemma parse_registro3_oficial_inv (line : str) (r : Registro3) :
  parse_registro3_oficial line = Ok r ->
  (50 <= length line)%nat /\
  _is_iso_dh (_slice line 11 34) = true /\
  exists n, int (_slice line 1 9) = Some n /\
    r = mkRegistro3 n (_slice line 10 10) (_slice line 11 34)
          (strip (_slice line 35 46)) (Some (upper (_slice line 47 50)))
          (Some (crc_confere (upper (_slice line 47 50)) line (47, 50)%Z))
          oficial.
Proof.
  unfold parse_registro3_oficial. intros H. bind_inv H.
  destruct a. apply require_len_ok in E. apply to_int_ok in E0.
  apply negb_false_iff in E1. eauto.
Qed.

Lemma parse_registro4_crc (line : str) (r : Registro4) :
  parse_registro4 line = Ok r ->
  r4_crc16 r = upper (_slice line 70 73) /\
  r4_crc_ok r = crc_confere (upper (_slice line 70 73)) line (70, 73)%Z.
Proof.
  unfold parse_registro4. intros H. bind_inv H. subst r. now split.
Qed.

Lemma parse_registro5_crc (line : str) (r : Registro5) :
  parse_registro5 line = Ok r ->
  r5_crc16 r = upper (_slice line 115 118) /\
  r5_crc_ok r = crc_confere (upper (_slice line 115 118)) line (115, 118)%Z.
Proof.
  unfold parse_registro5. intros H. bind_inv H. subst r. now split.
Qed.

(** The comparison of a record's checksum, in the words of the
    specification: the uppercased text of columns [a..b] against the four
    uppercase hexadecimal digits of the reference CRC of the rest of the
    line. *)
Lemma crc_confere_reference (line : str) (a b : nat) :
  (1 <= a)%nat ->
  crc_confere (upper (_slice line (Z.of_nat a) (Z.of_nat b))) line
    (Z.of_nat a, Z.of_nat b)
  = ustr_eqb (upper (columns line a b))
      (code_points (format_04X (crc16_arc (encode_latin1 (excise line a b))))).
Proof.
  intros Ha. unfold crc_confere.
  now rewrite _slice_columns, _crc16_hex4_for_line_excise,
    crc16_ibm_arc_reference.
Qed.

(** C1.  The checksum engine is CRC-16/ARC: on every byte sequence it
    returns what the reference definition (16-bit register, initial value
    0x0000, each byte XORed in and shifted right 8 times with 0xA001, no
    final XOR) returns, which is also the state of the shift register
    clocked bit by bit over the message.  Record verification computes it over the line with
    the columns [a..b] of the checksum field cut out, one byte per
    character (the byte of a character is its code point), renders it as
    exactly four uppercase hexadecimal digits and compares these with the
    uppercased text of the field; the five checksum-bearing parsers store
    the result of that comparison on their own field columns. *)
Theorem checksum_engine_is_crc16_arc
    (data : list Byte.byte) (line : str) (a b : nat) :
  (1 <= a)%nat ->
  let excised := encode_latin1 (excise line a b) in
  let rendered := format_04X (crc16_arc excised) in
  let verified (a b : nat) :=
    ustr_eqb (upper (columns line a b))
      (code_points
         (format_04X (crc16_arc (encode_latin1 (excise line a b))))) in
  crc16_ibm_arc data = crc16_arc data /\
  crc16_ibm_arc data = crc16_arc_serial data /\
  (crc16_arc data < 2 ^ 16)%N /\
  _crc16_hex4_for_line line (Z.of_nat a, Z.of_nat b) = rendered /\
  map Byte.to_N excised = code_points (excise line a b) /\
  length rendered = 4%nat /\
  forallb upper_hex_digit rendered = true /\
  crc_confere (upper (_slice line (Z.of_nat a) (Z.of_nat b))) line
    (Z.of_nat a, Z.of_nat b) = verified a b /\
  (forall r, parse_registro1_oficial line = Ok r ->
     r1_crc_ok r = Some (verified 299%nat 302%nat)) /\
  (forall r, parse_registro2 line = Ok r ->
     r2_crc_ok r = verified 328%nat 331%nat) /\
  (forall r, parse_registro3_oficial line = Ok r ->
     crc_ok r = Some (verified 47%nat 50%nat)) /\
  (forall r, parse_registro4 line = Ok r ->
     r4_crc_ok r = verified 70%nat 73%nat) /\
  (forall r, parse_registro5 line = Ok r ->
     r5_crc_ok r = verified 115%nat 118%nat).
Proof.
  intros Ha excised rendered verified. subst excised rendered verified.
  cbv beta.
  repeat split.
  - apply crc16_ibm_arc_reference.
  - apply crc16_ibm_arc_serial.
  - rewrite <- crc16_ibm_arc_reference. apply crc16_ibm_arc_lt.
  - rewrite _crc16_hex4_for_line_excise by exact Ha.
    now rewrite crc16_ibm_arc_reference.
  - apply encode_latin1_codes.
  - apply format_04X_length. rewrite <- crc16_ibm_arc_reference.
    apply crc16_ibm_arc_lt.
  - apply format_04X_upper.
  - now apply crc_confere_reference.
  - intros r Hr. apply parse_registro1_oficial_crc in Hr as [_ ->].
    f_equal. apply (crc_confere_reference line 299%nat 302%nat). lia.
  - intros r Hr. apply parse_registro2_crc in Hr as [_ ->].
    apply (crc_confere_reference line 328%nat 331%nat). lia.
  - intros r Hr. apply parse_registro3_oficial_inv in Hr as (_ & _ & n & _ & ->).
    cbn [crc_ok]. f_equal. apply (crc_confere_reference line 47%nat 50%nat). lia.
  - intros r Hr. apply parse_registro4_crc in Hr as [_ ->].
    apply (crc_confere_reference line 70%nat 73%nat). lia.
  - intros r Hr. apply parse_registro5_crc in Hr as [_ ->].
    apply (crc_confere_reference line 115%nat 118%nat). lia.
Qed.

(* ===================================================================== *)
(** * The document interpreter                                           *)
(* ===================================================================== *)

Lemma is_tipo_eqb (c : ascii) (d : ascii) :
  is_tipo c (String d EmptyString) = Ascii.eqb c d.
Proof. unfold is_tipo, str_eqb. simpl. apply andb_true_r. Qed.

Lemma sucessos_cons {R} (d : string) (parse : str -> result R)
    (line : str) (lines : list str) :
  sucessos d parse (line :: lines)
  = sucessos d parse [line] ++ sucessos d parse lines.
Proof. unfold sucessos. simpl. now rewrite app_nil_r. Qed.

Lemma diagnosticos_cons (line : str) (lines : list str) :
  diagnosticos (line :: lines) = diagnosticos [line] ++ diagnosticos lines.
Proof. unfold diagnosticos. simpl. now rewrite app_nil_r. Qed.

Lemma ultimo_app {A} (l1 l2 : list A) (d : option A) :
  ultimo (l1 ++ l2) d = ultimo l2 (ultimo l1 d).
Proof. unfold ultimo. apply fold_left_app. Qed.

Lemma processar_efeito (st : estado) (line : str) (e : efeito) :
  efeito_da_linha line = Some e -> processar st line = Ok (aplicar st e).
Proof.
  unfold efeito_da_linha, processar, char_at, index.
  destruct (nth_error line 9) as [c |]; [| discriminate].
  intros [= <-]. cbn [bind]. unfold despachar.
  replace (slice line 0 9) with (firstn 9 line)
    by (symmetry; apply (slice_of_nat line 0 9)).
  repeat match goal with
    | |- context [if ?b then _ else _] => destruct b
    | |- context [efeito_de _ _ _ ?p] => destruct p; cbn [bind efeito_de]
    end; reflexivity.
Qed.

Lemma apos_refl (st : estado) : apos st [] st.
Proof.
  unfold apos, sucessos, diagnosticos, flags1, flags3. simpl.
  now rewrite !app_nil_r.
Qed.

(** One classified line: the state after it is described by [apos]. *)
Lemma apos_linha (st : estado) (line : str) (e : efeito) :
  efeito_da_linha line = Some e -> apos st [line] (aplicar st e).
Proof.
  unfold efeito_da_linha, apos, sucessos, diagnosticos, tipo_da_linha.
  cbn [flat_map]. unfold efeito_da_linha.
  destruct (nth_error line 9) as [c |]; [| discriminate].
  intros [= <-]. rewrite !is_tipo_eqb.
  destruct (Ascii.eqb_spec c "1") as [-> | H1].
  { destruct (parse_tipo1 line) as [r |]; simpl; unfold flags1; simpl;
      rewrite ?app_nil_r; try destruct (r1_crc_ok r); repeat split;
      rewrite ?app_nil_r; reflexivity. }
  destruct (Ascii.eqb_spec c "2") as [-> | H2].
  { destruct (parse_registro2 line); simpl; rewrite ?app_nil_r;
      repeat split; reflexivity. }
  destruct (Ascii.eqb_spec c "3") as [-> | H3].
  { destruct (parse_tipo3 line) as [r |]; simpl; unfold flags3; simpl;
      rewrite ?app_nil_r; try destruct (crc_ok r); repeat split;
      rewrite ?app_nil_r; reflexivity. }
  destruct (Ascii.eqb_spec c "4") as [-> | H4].
  { destruct (parse_registro4 line); simpl; rewrite ?app_nil_r;
      repeat split; reflexivity. }
  destruct (Ascii.eqb_spec c "5") as [-> | H5].
  { destruct (parse_registro5 line); simpl; rewrite ?app_nil_r;
      repeat split; reflexivity. }
  destruct (Ascii.eqb_spec c "6") as [-> | H6].
  { destruct (parse_registro6 line); simpl; rewrite ?app_nil_r;
      repeat split; reflexivity. }
  destruct (Ascii.eqb_spec c "7") as [-> | H7].
  { destruct (parse_registro7 line); simpl; rewrite ?app_nil_r;
      repeat split; reflexivity. }
  destruct (Ascii.eqb_spec c "9") as [-> | H9].
  { destruct (parse_registro9 line); simpl; rewrite ?app_nil_r;
      repeat split; reflexivity. }
  simpl. rewrite ?app_nil_r. repeat split; reflexivity.
Qed.

Lemma apos_trans (st0 st1 st2 : estado) (l1 l2 : list str) :
  apos st0 l1 st1 -> apos st1 l2 st2 -> apos st0 (l1 ++ l2) st2.
Proof.
  unfold apos, sucessos, diagnosticos, flags1, flags3.
  intros (A2 & A3 & A4 & A5 & A6 & A7 & Ah & At & Ae & C1 & C2 & C3 & C4 & C5)
         (B2 & B3 & B4 & B5 & B6 & B7 & Bh & Bt & Be & D1 & D2 & D3 & D4 & D5).
  rewrite !flat_map_app, ?map_app, ?flat_map_app, !ultimo_app.
  rewrite B2, B3, B4, B5, B6, B7, Bh, Bt, Be, D1, D2, D3, D4, D5.
  rewrite A2, A3, A4, A5, A6, A7, Ah, At, Ae, C1, C2, C3, C4, C5.
  rewrite <- !app_assoc. repeat split; reflexivity.
Qed.

Lemma efeito_da_linha_some (line : str) :
  (10 <= length line)%nat -> exists e, efeito_da_linha line = Some e.
Proof.
  intros Hlen. unfold efeito_da_linha.
  destruct (nth_error line 9) eqn:E; [eauto |].
  apply nth_error_None in E. lia.
Qed.

(** The second loop never raises, and [apos] describes its result. *)
Lemma processar_todos_apos (registros : list (Z * str)) (st : estado) :
  Forall (fun line => (10 <= length line)%nat) (map snd registros) ->
  exists st', processar_todos st registros = Ok st' /\
              apos st (map snd registros) st'.
Proof.
  revert st. induction registros as [| [n line] regs IH]; intros st Hall.
  - exists st. split; [reflexivity | apply apos_refl].
  - cbn [map snd] in Hall. inversion Hall as [| ? ? Hlen Hrest]; subst.
    destruct (efeito_da_linha_some line Hlen) as [e He].
    destruct (IH (aplicar st e) Hrest) as (st' & Hrun & Hapos).
    exists st'. split.
    + cbn [processar_todos]. rewrite (processar_efeito st line e He).
      exact Hrun.
    + change (map snd ((n, line) :: regs)) with ([line] ++ map snd regs).
      eapply apos_trans; [apply apos_linha, He | exact Hapos].
Qed.

(** ** Characters *)

Ltac char_cases :=
  unfold isdigit_char, isdecimal, isspace, int_space, underscore, is_sign,
    between in *;
  repeat match goal with
    | H : context [N.leb ?a ?b] |- _ => destruct (N.leb_spec a b)
    | H : context [N.eqb ?a ?b] |- _ => destruct (N.eqb_spec a b)
    | |- context [N.leb ?a ?b] => destruct (N.leb_spec a b)
    | |- context [N.eqb ?a ?b] => destruct (N.eqb_spec a b)
    end;
  simpl in *; try discriminate; try reflexivity; try lia.

Lemma isdecimal_isdigit (c : ascii) : isdecimal c = true -> isdigit_char c = true.
Proof. char_cases. Qed.

Lemma isdigit_not_int_space (c : ascii) :
  isdigit_char c = true -> int_space c = false.
Proof. char_cases. Qed.

Lemma isdigit_not_space (c : ascii) : isdigit_char c = true -> isspace c = false.
Proof. char_cases. Qed.

Lemma isdigit_not_underscore (c : ascii) :
  isdigit_char c = true -> underscore c = false.
Proof. char_cases. Qed.

Lemma isdigit_not_sign (c : ascii) :
  isdigit_char c = true -> (ord c =? 43)%N = false /\ (ord c =? 45)%N = false.
Proof. intros H. split; revert H; char_cases. Qed.

(** ** [int] on a string of digits *)

Lemma int_digits_isdigit (s : str) (acc : Z) :
  forallb isdigit_char s = true ->
  int_digits acc s
  = if forallb isdecimal s then Some (fold_left dec_step s acc) else None.
Proof.
  revert acc. induction s as [| c s IH]; intros acc Hs; [reflexivity |].
  cbn [forallb] in Hs. apply andb_true_iff in Hs as [Hc Hs].
  cbn [int_digits forallb fold_left].
  destruct (isdecimal c) eqn:Ed; cbn [andb].
  - now rewrite IH.
  - now rewrite (isdigit_not_underscore c Hc), (isdigit_not_int_space c Hc).
Qed.

(** On a string that passes [isdigit], [int] succeeds exactly when every
    character is a decimal digit; the superscript digits make it raise. *)
Lemma int_isdigit (s : str) :
  isdigit s = true ->
  int s = if forallb isdecimal s then Some (fold_left dec_step s 0%Z) else None.
Proof.
  destruct s as [| c s]; [discriminate |].
  unfold isdigit. cbn [forallb]. intros H.
  apply andb_true_iff in H as [Hc Hs].
  unfold int. cbn [skip_int_space]. rewrite (isdigit_not_int_space c Hc).
  destruct (isdigit_not_sign c Hc) as [-> ->].
  cbn [int_unsigned fold_left].
  destruct (isdecimal c) eqn:Ed; cbn [andb]; [| reflexivity].
  rewrite (int_digits_isdigit s _ Hs).
  destruct (forallb isdecimal s); [| reflexivity].
  now replace (dec_step 0 c) with (digit_val c) by (unfold dec_step; lia).
Qed.

(** ** The first loop *)

Lemma slice_0_9 (ln : str) : slice ln 0 9 = firstn 9 ln.
Proof. apply (slice_of_nat ln 0 9). Qed.

Lemma sem_nsr_classificavel (ln : str) : sem_nsr ln = negb (classificavel ln).
Proof.
  unfold sem_nsr, classificavel, _is_digits. rewrite slice_0_9.
  destruct (Nat.ltb_spec (length ln) 10), (Nat.leb_spec 10 (length ln));
    try lia; simpl; try reflexivity.
Qed.

Lemma classificavel_len (ln : str) :
  classificavel ln = true -> (10 <= length ln)%nat.
Proof.
  unfold classificavel. intros H. apply andb_true_iff in H as [H _].
  now apply Nat.leb_le.
Qed.

Lemma classificavel_int (ln : str) :
  classificavel ln = true ->
  int (slice ln 0 9) = if nsr_decimal ln then Some (nsr9 ln) else None.
Proof.
  unfold classificavel. intros H. apply andb_true_iff in H as [_ H].
  rewrite slice_0_9. now apply int_isdigit.
Qed.

Lemma classificar_ok (lines : list str) (regs regs' : list (Z * str))
    (errs errs' : list erro) :
  classificar lines regs errs = Ok (regs', errs') ->
  regs' = regs ++ map (fun ln => (nsr9 ln, ln)) (filter classificavel lines) /\
  errs' = errs
          ++ map Linha_invalida (filter (fun ln => negb (classificavel ln)) lines) /\
  forallb nsr_decimal (filter classificavel lines) = true.
Proof.
  revert regs errs. induction lines as [| ln lines IH]; intros regs errs.
  - simpl. intros [= <- <-]. now rewrite !app_nil_r.
  - cbn [classificar filter]. rewrite sem_nsr_classificavel.
    destruct (classificavel ln) eqn:Ec; cbn [negb].
    + unfold to_int. rewrite (classificavel_int ln Ec).
      destruct (nsr_decimal ln) eqn:Ed; cbn [bind]; [| discriminate].
      intros H. apply IH in H as (-> & -> & Hd).
      cbn [map forallb]. rewrite Ed, Hd, <- app_assoc. auto.
    + intros H. apply IH in H as (-> & -> & Hd).
      cbn [map]. rewrite <- app_assoc. auto.
Qed.

(** The first loop raises exactly when some classifiable line carries a
    digit that is not a decimal digit among its first nine characters. *)
Lemma classificar_total (lines : list str) (regs : list (Z * str))
    (errs : list erro) :
  forallb nsr_decimal (filter classificavel lines) = true ->
  exists out, classificar lines regs errs = Ok out.
Proof.
  revert regs errs. induction lines as [| ln lines IH]; intros regs errs H.
  - simpl. eauto.
  - cbn [classificar filter] in *. rewrite sem_nsr_classificavel.
    destruct (classificavel ln) eqn:Ec; cbn [negb].
    + cbn [forallb] in H. apply andb_true_iff in H as [Hd H].
      unfold to_int. rewrite (classificavel_int ln Ec), Hd. cbn [bind].
      now apply IH.
    + now apply IH.
Qed.

Lemma classificar_raise (lines : list str) (regs : list (Z * str))
    (errs : list erro) :
  forallb nsr_decimal (filter classificavel lines) = false ->
  exists e, classificar lines regs errs = Raise e.
Proof.
  intros H. destruct (classificar lines regs errs) as [[regs' errs'] | e] eqn:E;
    [| eauto].
  apply classificar_ok in E as (_ & _ & Hd). congruence.
Qed.

(** ** The whole pass *)

Lemma nonempty_false {A} (l : list A) : nonempty l = false <-> l = [].
Proof. destruct l; simpl; split; congruence. Qed.

Lemma map_snd_registros (ls : list str) :
  map snd (map (fun ln => (nsr9 ln, ln)) ls) = ls.
Proof. rewrite map_map. simpl. apply map_id. Qed.

Lemma map_fst_registros (ls : list str) :
  map fst (map (fun ln => (nsr9 ln, ln)) ls) = map nsr9 ls.
Proof. rewrite map_map. reflexivity. Qed.

Lemma classificaveis_len (raw : list Byte.byte) :
  Forall (fun line => (10 <= length line)%nat) (linhas_classificaveis raw).
Proof.
  apply Forall_forall. intros ln Hin.
  apply filter_In in Hin as [_ Hc]. now apply classificavel_len.
Qed.

(** What a returned document is made of. *)
Lemma interpretar_afd_ok (raw : list Byte.byte) (d : documento) :
  interpretar_afd raw = Ok d ->
  exists st,
    linhas raw <> [] /\
    forallb nsr_decimal (linhas_classificaveis raw) = true /\
    apos (estado_inicial (erros_estruturais raw)) (linhas_classificaveis raw)
      st /\
    algo_interpretado st = true /\
    d = montar_documento raw st.
Proof.
  unfold interpretar_afd. fold (linhas raw).
  destruct (nonempty (linhas raw)) eqn:En; cbn [negb]; [| discriminate].
  destruct (classificar (linhas raw) [] []) as [[regs errs] | e] eqn:Ec;
    cbn [bind]; [| discriminate].
  apply classificar_ok in Ec as (-> & -> & Hd). cbn [app] in *.
  fold (linhas_classificaveis raw) in *. fold (erros_estruturais raw).
  destruct (processar_todos_apos
              (map (fun ln => (nsr9 ln, ln)) (linhas_classificaveis raw))
              (estado_inicial (erros_estruturais raw)))
    as (st & Hrun & Hapos).
  { rewrite map_snd_registros. apply classificaveis_len. }
  rewrite Hrun. cbn [bind]. rewrite map_snd_registros in Hapos.
  rewrite map_fst_registros.
  destruct (negb (any_bucket (bucket st)) && negb (is_some (header st))
            && negb (is_some (trailer st))) eqn:Ev; [discriminate |].
  intros [= <-]. exists st.
  split; [intros Hl; rewrite Hl in En; discriminate |].
  split; [exact Hd |]. split; [exact Hapos |]. split; [| reflexivity].
  unfold algo_interpretado.
  destruct (any_bucket (bucket st)), (is_some (header st)),
    (is_some (trailer st)); simpl in *; congruence.
Qed.

(** The interpreter returns or raises as follows when no classifiable
    line carries a superscript digit in its NSR. *)
Lemma interpretar_afd_total (raw : list Byte.byte) :
  linhas raw <> [] ->
  forallb nsr_decimal (linhas_classificaveis raw) = true ->
  exists st,
    apos (estado_inicial (erros_estruturais raw)) (linhas_classificaveis raw)
      st /\
    interpretar_afd raw
    = if algo_interpretado st then Ok (montar_documento raw st)
      else Raise (ValueError_nenhum_registro (firstn 3 (erros st))).
Proof.
  intros Hne Hd. unfold interpretar_afd. fold (linhas raw).
  destruct (nonempty (linhas raw)) eqn:En;
    [| apply nonempty_false in En; contradiction].
  cbn [negb].
  destruct (classificar_total (linhas raw) [] [] Hd) as [[regs errs] Ec].
  rewrite Ec. cbn [bind].
  apply classificar_ok in Ec as (-> & -> & _). cbn [app].
  fold (linhas_classificaveis raw). fold (erros_estruturais raw).
  destruct (processar_todos_apos
              (map (fun ln => (nsr9 ln, ln)) (linhas_classificaveis raw))
              (estado_inicial (erros_estruturais raw)))
    as (st & Hrun & Hapos).
  { rewrite map_snd_registros. apply classificaveis_len. }
  rewrite Hrun. cbn [bind]. rewrite map_snd_registros in Hapos.
  rewrite map_fst_registros.
  exists st. split; [exact Hapos |].
  unfold algo_interpretado, montar_documento.
  destruct (any_bucket (bucket st)), (is_some (header st)),
    (is_some (trailer st)); reflexivity.
Qed.

(** ** Sorting *)

Section SortBy.
Context {A : Type} (key : A -> Z).

Let lt (a b : A) : bool := (key a <? key b)%Z.
Let le (a b : A) : Prop := (key a <= key b)%Z.

Lemma HdRel_insert_by (x y : A) (l : list A) :
  le y x -> HdRel le y l -> HdRel le y (insert_by lt x l).
Proof.
  intros Hyx Hl. destruct l as [| z l]; simpl; [now constructor |].
  inversion Hl; subst. destruct (lt z x); now constructor.
Qed.

Lemma insert_by_Sorted (x : A) (l : list A) :
  Sorted le l -> Sorted le (insert_by lt x l).
Proof.
  induction 1 as [| y l Hs IH Hhd]; simpl; [repeat constructor |].
  unfold lt at 1. destruct (Z.ltb_spec (key y) (key x)) as [Hlt | Hge].
  - constructor; [exact IH |].
    apply HdRel_insert_by; [unfold le; lia | exact Hhd].
  - constructor; [now constructor | constructor; unfold le; lia].
Qed.

(** The result of a sort is ascending. *)
Lemma sort_by_Sorted (l : list A) : Sorted le (sort_by lt l).
Proof.
  unfold sort_by. induction l as [| x l IH]; simpl;
    [constructor | now apply insert_by_Sorted].
Qed.

(** Sorting an ascending list leaves it as it is. *)
Lemma Sorted_sort_by (l : list A) : Sorted le l -> sort_by lt l = l.
Proof.
  unfold sort_by. induction 1 as [| x l Hs IH Hhd]; [reflexivity |].
  cbn [fold_right]. rewrite IH.
  destruct Hhd as [| y l Hxy]; [reflexivity |].
  cbn [insert_by]. unfold lt, le in *.
  destruct (Z.ltb_spec (key y) (key x)); [lia | reflexivity].
Qed.

End SortBy.

Lemma insert_by_Permutation {A} (lt : A -> A -> bool) (x : A) (l : list A) :
  Permutation (x :: l) (insert_by lt x l).
Proof.
  induction l as [| y l IH]; simpl; [reflexivity |].
  destruct (lt y x); [| reflexivity].
  rewrite perm_swap. now constructor.
Qed.

(** The result of a sort has the elements of its argument. *)
Lemma sort_by_Permutation {A} (lt : A -> A -> bool) (l : list A) :
  Permutation l (sort_by lt l).
Proof.
  unfold sort_by. induction l as [| x l IH]; simpl; [constructor |].
  rewrite <- insert_by_Permutation. now constructor.
Qed.

Lemma sorted_Sorted (l : list Z) : Sorted Z.le (sorted l).
Proof. apply (sort_by_Sorted (fun x => x)). Qed.

Lemma Sorted_sorted (l : list Z) : Sorted Z.le l -> sorted l = l.
Proof. apply (Sorted_sort_by (fun x => x)). Qed.

(** A list equals its sorted copy exactly when it is non-decreasing. *)
Lemma eq_sorted_iff (l : list Z) :
  list_Z_eqb l (sorted l) = true <-> Sorted Z.le l.
Proof.
  rewrite list_Z_eqb_eq. split.
  - intros H. rewrite H. apply sorted_Sorted.
  - intros H. symmetry. now apply Sorted_sorted.
Qed.

(* ===================================================================== *)
(** * Document-level validations                                         *)
(* ===================================================================== *)

(** C2.  When the interpreter returns a document, [ordem_nsr_ok] is true
    exactly when the NSRs of the classifiable lines (length at least 10,
    first nine characters all digits), taken in file order, are
    non-decreasing; the lines that fail the gate take no part in the
    check.  In a returned document the first nine characters of every
    classifiable line are decimal digits, so [nsr9] is the number they
    write. *)
Theorem ordem_nsr_ok_iff_nondecreasing (raw : list Byte.byte) (d : documento) :
  interpretar_afd raw = Ok d ->
  forallb nsr_decimal (linhas_classificaveis raw) = true /\
  (ordem_nsr_ok (d_validacoes d) = true
   <-> Sorted Z.le (map nsr9 (linhas_classificaveis raw))).
Proof.
  intros H. apply interpretar_afd_ok in H as (st & _ & Hd & _ & _ & ->).
  split; [exact Hd |]. cbn [montar_documento d_validacoes ordem_nsr_ok].
  apply eq_sorted_iff.
Qed.

Lemma ordem_nsr_ok_iff_nondecreasing_witness :
  exists d, interpretar_afd Exemplos.afd_compacto = Ok d /\
    (ordem_nsr_ok (d_validacoes d) = true
     <-> Sorted Z.le (map nsr9 (linhas_classificaveis Exemplos.afd_compacto))).
Proof.
  eexists. split; [vm_compute; reflexivity |].
  apply (ordem_nsr_ok_iff_nondecreasing Exemplos.afd_compacto).
  vm_compute. reflexivity.
Defined.

Example ordem_1223 :
  option_map ordem_nsr_ok (validacoes_de Exemplos.afd_1223) = Some true.
Proof. vm_compute. reflexivity. Qed.

Example ordem_213 :
  option_map ordem_nsr_ok (validacoes_de Exemplos.afd_213) = Some false.
Proof. vm_compute. reflexivity. Qed.

Lemma calc_contagens_ok_iff (t : option Registro9) (b : buckets) :
  calc_contagens_ok t b = true <->
  t = None \/
  exists r, t = Some r /\
    qtd_tipo2 r = len (b2 b) /\ qtd_tipo3 r = len (b3 b) /\
    qtd_tipo4 r = len (b4 b) /\ qtd_tipo5 r = len (b5 b) /\
    qtd_tipo6 r = len (b6 b) /\ qtd_tipo7 r = len (b7 b) /\
    r9_tipo r = 9%Z.
Proof.
  destruct t as [r |]; cbn [calc_contagens_ok].
  - rewrite !andb_true_iff, !Z.eqb_eq. split.
    + intros H. right. exists r. tauto.
    + intros [H | (r' & [= <-] & H)]; [discriminate | tauto].
  - split; auto.
Qed.

(** C7.  In every interpreted document [contagens_ok] is true exactly when
    no trailer was parsed, or the six counts of the trailer equal the
    lengths of the buckets "2".."7" and its type field is 9.  The trailer
    of the document is the last type-9 line that [parse_registro9]
    accepted, if any. *)
Theorem contagens_ok_iff (raw : list Byte.byte) (d : documento) :
  interpretar_afd raw = Ok d ->
  d_trailer d
  = ultimo (sucessos "9" parse_registro9 (linhas_classificaveis raw)) None /\
  (contagens_ok (d_validacoes d) = true <->
   d_trailer d = None \/
   exists t, d_trailer d = Some t /\
     qtd_tipo2 t = len (b2 (registros_por_tipo d)) /\
     qtd_tipo3 t = len (b3 (registros_por_tipo d)) /\
     qtd_tipo4 t = len (b4 (registros_por_tipo d)) /\
     qtd_tipo5 t = len (b5 (registros_por_tipo d)) /\
     qtd_tipo6 t = len (b6 (registros_por_tipo d)) /\
     qtd_tipo7 t = len (b7 (registros_por_tipo d)) /\
     r9_tipo t = 9%Z).
Proof.
  intros H. apply interpretar_afd_ok in H as (st & _ & _ & Hapos & _ & ->).
  cbn [montar_documento d_trailer d_validacoes contagens_ok registros_por_tipo].
  split; [| apply calc_contagens_ok_iff].
  destruct Hapos as (_ & _ & _ & _ & _ & _ & _ & Ht & _). exact Ht.
Qed.

Lemma contagens_ok_iff_witness :
  exists d, interpretar_afd Exemplos.afd_compacto = Ok d /\
    (contagens_ok (d_validacoes d) = true <->
     d_trailer d = None \/
     exists t, d_trailer d = Some t /\
       qtd_tipo2 t = len (b2 (registros_por_tipo d)) /\
       qtd_tipo3 t = len (b3 (registros_por_tipo d)) /\
       qtd_tipo4 t = len (b4 (registros_por_tipo d)) /\
       qtd_tipo5 t = len (b5 (registros_por_tipo d)) /\
       qtd_tipo6 t = len (b6 (registros_por_tipo d)) /\
       qtd_tipo7 t = len (b7 (registros_por_tipo d)) /\
       r9_tipo t = 9%Z).
Proof.
  eexists. split; [vm_compute; reflexivity |].
  apply (contagens_ok_iff Exemplos.afd_compacto).
  vm_compute. reflexivity.
Defined.

(* ===================================================================== *)
(** * Hard failures and recovered failures                               *)
(* ===================================================================== *)

Lemma erros_capped (raw : list Byte.byte) (d : documento) :
  interpretar_afd raw = Ok d -> (length (v_erros (d_validacoes d)) <= 200)%nat.
Proof.
  intros H. apply interpretar_afd_ok in H as (st & _ & _ & _ & _ & ->).
  cbn [montar_documento d_validacoes v_erros]. apply firstn_le_length.
Qed.

(** On files whose classifiable lines carry only decimal digits in the
    NSR, the interpreter raises exactly in the two cases of the
    specification, and every failure of a line is an entry of the
    diagnostics, of which the document keeps the first 200. *)
Lemma interpretar_afd_decimal (raw : list Byte.byte) :
  forallb nsr_decimal (linhas_classificaveis raw) = true ->
  exists st,
    apos (estado_inicial (erros_estruturais raw)) (linhas_classificaveis raw)
      st /\
    erros st = erros_estruturais raw ++ diagnosticos (linhas_classificaveis raw) /\
    interpretar_afd raw
    = if nonempty (linhas raw)
      then if algo_interpretado st then Ok (montar_documento raw st)
           else Raise (ValueError_nenhum_registro (firstn 3 (erros st)))
      else Raise ValueError_arquivo_vazio.
Proof.
  intros Hd. destruct (nonempty (linhas raw)) eqn:En.
  - destruct (interpretar_afd_total raw) as (st & Hapos & Hrun); auto.
    { intros Hl. rewrite Hl in En. discriminate. }
    exists st. split; [exact Hapos |]. split; [| exact Hrun].
    destruct Hapos as (_ & _ & _ & _ & _ & _ & _ & _ & He & _). exact He.
  - apply nonempty_false in En.
    exists (estado_inicial (erros_estruturais raw)).
    unfold linhas_classificaveis, interpretar_afd. fold (linhas raw).
    rewrite En. simpl. rewrite app_nil_r.
    split; [apply apos_refl |]. split; reflexivity.
Qed.

(** C8.  A line whose NSR passes [isdigit] with a superscript digit makes
    [int(ln[:9])] raise in the first loop, outside any [try]: the call
    ends with that [ValueError] although the file has non-blank lines and
    its first line alone is interpreted into bucket "3". *)
Theorem interpretar_afd_sobrescrito_raises :
  linhas Exemplos.afd_sobrescrito
  = [Exemplos.compacta_1; Exemplos.linha_sobrescrito] /\
  classificavel Exemplos.linha_sobrescrito = true /\
  (exists d, interpretar_afd (encode_latin1 Exemplos.compacta_1) = Ok d /\
             length (b3 (registros_por_tipo d)) = 1%nat) /\
  interpretar_afd Exemplos.afd_sobrescrito
  = Raise (ValueError_int (chr 178 :: lit "00000000")).
Proof.
  split; [vm_compute; reflexivity |].
  split; [vm_compute; reflexivity |].
  split; [eexists; split; vm_compute; reflexivity |].
  vm_compute. reflexivity.
Qed.

(* ===================================================================== *)
(** * The compact layout of type 3                                       *)
(* ===================================================================== *)

Lemma slice_columns (s : str) (lo hi : nat) (zlo zhi : Z) :
  zlo = Z.of_nat lo -> zhi = Z.of_nat hi ->
  slice s zlo zhi = columns s (S lo) hi.
Proof.
  intros -> ->. rewrite slice_of_nat. unfold columns.
  now rewrite Nat.sub_succ, Nat.sub_0_r.
Qed.

(** Rewrite [slice s lo hi], with literal bounds, into [columns]. *)
Ltac slice_cols s lo hi :=
  let zlo := eval compute in (Z.of_nat lo) in
  let zhi := eval compute in (Z.of_nat hi) in
  rewrite (slice_columns s lo hi zlo zhi eq_refl eq_refl) in *.

Lemma columns_length (s : str) (a b : nat) :
  (1 <= a)%nat -> (b <= length s)%nat ->
  length (columns s a b) = (b - (a - 1))%nat.
Proof.
  intros Ha Hb. unfold columns. rewrite length_firstn, length_skipn. lia.
Qed.

Lemma _ddmmaaaa_to_iso_some (d : str) :
  length d = 8%nat -> isdigit d = true ->
  _ddmmaaaa_to_iso d
  = Some (columns d 5 8 ++ lit "-" ++ columns d 3 4 ++ lit "-" ++ columns d 1 2).
Proof.
  intros Hl Hd. unfold _ddmmaaaa_to_iso, _is_digits. rewrite Hl, Hd.
  cbn [Nat.eqb andb].
  slice_cols d 4%nat 8%nat. slice_cols d 2%nat 4%nat. slice_cols d 0%nat 2%nat.
  reflexivity.
Qed.

Lemma _ddmmaaaa_to_iso_inv (d iso : str) :
  _ddmmaaaa_to_iso d = Some iso ->
  length d = 8%nat /\ isdigit d = true /\
  iso = columns d 5 8 ++ lit "-" ++ columns d 3 4 ++ lit "-" ++ columns d 1 2.
Proof.
  unfold _ddmmaaaa_to_iso, _is_digits.
  destruct (Nat.eqb_spec (length d) 8) as [Hl | Hl]; [| discriminate].
  destruct (isdigit d) eqn:Hd; [| discriminate]. cbn [andb].
  slice_cols d 4%nat 8%nat. slice_cols d 2%nat 4%nat. slice_cols d 0%nat 2%nat.
  intros [= <-]. auto.
Qed.

Lemma _hhmm_to_hhmm_some (h : str) :
  length h = 4%nat -> isdigit h = true ->
  _hhmm_to_hhmm h = Some (columns h 1 2 ++ lit ":" ++ columns h 3 4).
Proof.
  intros Hl Hd. unfold _hhmm_to_hhmm, _is_digits. rewrite Hl, Hd.
  cbn [Nat.eqb andb].
  slice_cols h 0%nat 2%nat. slice_cols h 2%nat 4%nat. reflexivity.
Qed.

Lemma _hhmm_to_hhmm_inv (h hh : str) :
  _hhmm_to_hhmm h = Some hh ->
  length h = 4%nat /\ isdigit h = true /\
  hh = columns h 1 2 ++ lit ":" ++ columns h 3 4.
Proof.
  unfold _hhmm_to_hhmm, _is_digits.
  destruct (Nat.eqb_spec (length h) 4) as [Hl | Hl]; [| discriminate].
  destruct (isdigit h) eqn:Hd; [| discriminate]. cbn [andb].
  slice_cols h 0%nat 2%nat. slice_cols h 2%nat 4%nat.
  intros [= <-]. auto.
Qed.

Lemma truthy_app_lit (a b : str) (c : ascii) (l : string) :
  truthy (Some (a ++ lit (String c l) ++ b)) = true.
Proof. destruct a; reflexivity. Qed.

Lemma carimbo_assoc (d h : str) :
  (columns d 5 8 ++ lit "-" ++ columns d 3 4 ++ lit "-" ++ columns d 1 2)
  ++ lit "T" ++ (columns h 1 2 ++ lit ":" ++ columns h 3 4) ++ lit ":00-0300"
  = carimbo d h.
Proof. unfold carimbo. now rewrite <- !app_assoc. Qed.

(** What the compact parser returns, by the columns it reads. *)
Lemma parse_registro3_compacto_inv (line : str) (r : Registro3) :
  parse_registro3_compacto line = Ok r ->
  (34 <= length line)%nat /\
  isdigit (columns line 11 18) = true /\
  isdigit (columns line 19 22) = true /\
  exists n c,
    int (firstn 9 line) = Some n /\ nth_error line 9 = Some c /\
    r = mkRegistro3 n [c]
          (carimbo (columns line 11 18) (columns line 19 22))
          (strip (columns line 23 34)) None None compacto.
Proof.
  unfold parse_registro3_compacto, char_at, index. intros H.
  rewrite slice_0_9 in H.
  slice_cols line 10%nat 18%nat. slice_cols line 18%nat 22%nat.
  slice_cols line 22%nat 34%nat.
  bind_inv H.
  match goal with u : unit |- _ => destruct u end.
  apply require_len_ok in E. apply to_int_ok in E0.
  destruct (nth_error line 9) as [c |] eqn:Ec; [| discriminate].
  injection E1 as <-.
  destruct (_ddmmaaaa_to_iso (columns line 11 18)) as [di |] eqn:Edi;
    [| discriminate].
  destruct (_hhmm_to_hhmm (columns line 19 22)) as [hh |] eqn:Ehh;
    [| discriminate].
  apply _ddmmaaaa_to_iso_inv in Edi as (_ & Hd & ->).
  apply _hhmm_to_hhmm_inv in Ehh as (_ & Hh & ->).
  rewrite !truthy_app_lit in H. cbn [negb orb] in H. injection H as <-.
  split; [exact E |]. split; [exact Hd |]. split; [exact Hh |].
  do 2 eexists. split; [eassumption |]. split; [reflexivity |].
  f_equal. apply carimbo_assoc.
Qed.

Lemma parse_registro3_compacto_ok (line : str) (n : Z) :
  (34 <= length line)%nat ->
  int (firstn 9 line) = Some n ->
  isdigit (columns line 11 18) = true ->
  isdigit (columns line 19 22) = true ->
  exists c, nth_error line 9 = Some c /\
    parse_registro3_compacto line
    = Ok (mkRegistro3 n [c]
            (carimbo (columns line 11 18) (columns line 19 22))
            (strip (columns line 23 34)) None None compacto).
Proof.
  intros Hlen Hn Hd Hh.
  assert (Hl8 : length (columns line 11 18) = 8%nat)
    by (rewrite columns_length by lia; reflexivity).
  assert (Hl4 : length (columns line 19 22) = 4%nat)
    by (rewrite columns_length by lia; reflexivity).
  destruct (nth_error line 9) as [c |] eqn:Ec;
    [| apply nth_error_None in Ec; lia].
  exists c. split; [reflexivity |].
  unfold parse_registro3_compacto, char_at, index.
  rewrite slice_0_9.
  slice_cols line 10%nat 18%nat. slice_cols line 18%nat 22%nat.
  slice_cols line 22%nat 34%nat.
  apply (require_len_ok "Tipo 3 compacto") in Hlen. rewrite Hlen. cbn [bind].
  unfold to_int. rewrite Hn, Ec. cbn [bind].
  rewrite (_ddmmaaaa_to_iso_some _ Hl8 Hd), (_hhmm_to_hhmm_some _ Hl4 Hh).
  rewrite !truthy_app_lit. cbn [negb orb].
  do 2 f_equal. apply carimbo_assoc.
Qed.

(** C5 (as amended).  The compact layout is NSR (columns 1-9), type
    (column 10), [DDMMYYYY] date in columns 11-18, [HHMM] time in columns
    19-22 and tax ID in columns 23-34, stripped; the timestamp is that
    date and time with the fixed offset [-0300]; the record carries no
    checksum. *)
Theorem compacto_columns (line : str) (r : Registro3) :
  parse_registro3_compacto line = Ok r ->
  dh_marcacao r = carimbo (columns line 11 18) (columns line 19 22) /\
  cpf r = strip (columns line 23 34) /\
  tipo r = columns line 10 10 /\
  fmt r = compacto /\ crc16 r = None /\ crc_ok r = None.
Proof.
  intros H.
  apply parse_registro3_compacto_inv in H
    as (Hlen & _ & _ & n & c & _ & Hc & ->).
  cbn. repeat split.
  unfold columns. cbn [Nat.sub].
  destruct line as [| ? [| ? [| ? [| ? [| ? [| ? [| ? [| ? [| ? [| ? ?]]]]]]]]]];
    try discriminate.
  cbn in Hc. injection Hc as ->. reflexivity.
Qed.

Lemma compacto_columns_witness :
  parse_registro3_compacto Exemplos.compacta_1
  = Ok (mkRegistro3 1 (lit "3") (lit "2025-07-16T08:00:00-0300")
          (lit "123456789012") None None compacto) /\
  dh_marcacao
    (mkRegistro3 1 (lit "3") (lit "2025-07-16T08:00:00-0300")
       (lit "123456789012") None None compacto)
  = carimbo (columns Exemplos.compacta_1 11 18)
      (columns Exemplos.compacta_1 19 22).
Proof.
  split; [vm_compute; reflexivity |].
  apply (compacto_columns Exemplos.compacta_1). vm_compute. reflexivity.
Defined.

(** C5 (as stated) fails: read under the 1-based inclusive convention,
    columns 10-17, 18-21 and 22-34 start one column early (column 10 is
    the type digit).  On this line the parser returns 2025-07-16T08:00 and
    the tax ID 123456789012, while columns 10-17 and 18-21 give
    7202-60-31T50:80 and columns 22-34 give 0123456789012. *)
Theorem compacto_columns_10_17_counterexample :
  exists r, parse_registro3_compacto Exemplos.compacta_1 = Ok r /\
    dh_marcacao r
    <> carimbo (columns Exemplos.compacta_1 10 17)
         (columns Exemplos.compacta_1 18 21) /\
    cpf r <> strip (columns Exemplos.compacta_1 22 34).
Proof.
  eexists. split; [vm_compute; reflexivity |].
  split; vm_compute; discriminate.
Qed.

Lemma checksum_engine_is_crc16_arc_witness :
  (1 <= 47)%nat /\
  crc16_ibm_arc (encode_latin1 (lit "123456789"))
  = crc16_arc (encode_latin1 (lit "123456789")) /\
  _crc16_hex4_for_line Exemplos.oficial_1 (Z.of_nat 47, Z.of_nat 50)
  = format_04X (crc16_arc (encode_latin1 (excise Exemplos.oficial_1 47 50))).
Proof.
  assert (H : (1 <= 47)%nat) by lia.
  split; [exact H |].
  pose proof (checksum_engine_is_crc16_arc (encode_latin1 (lit "123456789"))
                Exemplos.oficial_1 47 50 H) as (H1 & _ & _ & H3 & _).
  split; [exact H1 | exact H3].
Defined.

(** The check value of CRC-16/ARC. *)
Example crc16_check_value :
  crc16_ibm_arc (encode_latin1 (lit "123456789")) = 0xBB3D /\
  crc16_arc (encode_latin1 (lit "123456789")) = 0xBB3D /\
  crc16_arc_serial (encode_latin1 (lit "123456789")) = 0xBB3D.
Proof. repeat split; vm_compute; reflexivity. Qed.

Example oficial_1_crc_ok :
  option_map crc_ok (match parse_registro3_oficial Exemplos.oficial_1 with
                     | Ok r => Some r
                     | Raise _ => None
                     end) = Some (Some true).
Proof. vm_compute. reflexivity. Qed.

(* ===================================================================== *)
(** * Type 3: official layout first, compact layout as fallback          *)
(* ===================================================================== *)

Lemma tipo_da_linha_char (d : ascii) (line : str) :
  tipo_da_linha (String d EmptyString) line = true <->
  nth_error line 9 = Some d.
Proof.
  unfold tipo_da_linha. destruct (nth_error line 9) as [c |].
  - rewrite is_tipo_eqb, Ascii.eqb_eq. split; congruence.
  - split; discriminate.
Qed.

Lemma efeito_da_linha_3 (line : str) :
  tipo_da_linha "3" line = true ->
  efeito_da_linha line = Some (efeito_de Item3 line "3" (parse_tipo3 line)).
Proof.
  intros H. apply tipo_da_linha_char in H. unfold efeito_da_linha.
  now rewrite H.
Qed.

Lemma sucessos3_marcacoes (ls : list str) :
  sucessos "3" parse_tipo3 ls = flat_map marcacoes_da_linha ls.
Proof.
  unfold sucessos. apply flat_map_ext. intros line.
  unfold marcacoes_da_linha, parse_tipo3, try_fallback.
  destruct (tipo_da_linha "3" line); [| reflexivity].
  destruct (parse_registro3_oficial line); [reflexivity |].
  now destruct (parse_registro3_compacto line).
Qed.

Lemma registros_por_tipo_linhas (raw : list Byte.byte) (d : documento) :
  interpretar_afd raw = Ok d ->
  registros_por_tipo d = registros_das_linhas (linhas_classificaveis raw).
Proof.
  intros H. apply interpretar_afd_ok in H as (st & _ & _ & Hapos & _ & ->).
  destruct Hapos as (A2 & A3 & A4 & A5 & A6 & A7 & _).
  cbn [montar_documento registros_por_tipo]. unfold registros_das_linhas.
  destruct (bucket st). cbn in *. now subst.
Qed.

(** A type-3 line that both layouts reject leaves the buckets as they
    would be without it. *)
Lemma sucessos_sem_linha {R} (d : string) (parse : str -> result R)
    (l1 l2 : list str) (line : str) :
  sucessos d parse [line] = [] ->
  sucessos d parse (l1 ++ line :: l2) = sucessos d parse (l1 ++ l2).
Proof.
  intros H. unfold sucessos in *. rewrite !flat_map_app. cbn [flat_map] in *.
  rewrite app_nil_r in H. now rewrite H.
Qed.

Lemma sucessos_outro_tipo {R} (d c : ascii) (parse : str -> result R)
    (line : str) :
  nth_error line 9 = Some c -> c <> d ->
  sucessos (String d EmptyString) parse [line] = [].
Proof.
  intros Hc Hne. unfold sucessos, tipo_da_linha. cbn [flat_map].
  rewrite Hc, is_tipo_eqb. destruct (Ascii.eqb_spec c d); [contradiction |].
  reflexivity.
Qed.

Lemma falha_tipo3_sem_registro (line : str) (l1 l2 : list str) (e1 e2 : exn) :
  tipo_da_linha "3" line = true ->
  parse_registro3_oficial line = Raise e1 ->
  parse_registro3_compacto line = Raise e2 ->
  registros_das_linhas (l1 ++ line :: l2) = registros_das_linhas (l1 ++ l2).
Proof.
  intros Ht H1 H2. pose proof Ht as Hc. apply tipo_da_linha_char in Hc.
  unfold registros_das_linhas.
  rewrite (sucessos_sem_linha "2"), (sucessos_sem_linha "3"),
    (sucessos_sem_linha "4"), (sucessos_sem_linha "5"),
    (sucessos_sem_linha "6"), (sucessos_sem_linha "7");
    try reflexivity;
    try (apply (sucessos_outro_tipo _ "3"); [exact Hc | discriminate]).
  unfold sucessos. cbn [flat_map]. rewrite Ht.
  unfold parse_tipo3, try_fallback. now rewrite H1, H2.
Qed.

Lemma falha_tipo3_diagnostico (line : str) (ls : list str) (e1 e2 : exn) :
  In line ls ->
  tipo_da_linha "3" line = true ->
  parse_registro3_oficial line = Raise e1 ->
  parse_registro3_compacto line = Raise e2 ->
  In (Erro_ao_parsear (firstn 9 line) "3" (ValueError_falha 3 e1 e2))
    (diagnosticos ls).
Proof.
  intros Hin Ht H1 H2. unfold diagnosticos. apply in_flat_map.
  exists line. split; [exact Hin |].
  rewrite (efeito_da_linha_3 line Ht).
  unfold parse_tipo3, try_fallback. rewrite H1, H2. cbn. auto.
Qed.

Lemma classificaveis_int (raw : list Byte.byte) (d : documento) (line : str) :
  interpretar_afd raw = Ok d ->
  In line (linhas_classificaveis raw) ->
  int (firstn 9 line) = Some (nsr9 line).
Proof.
  intros H Hin. apply interpretar_afd_ok in H as (st & _ & Hd & _).
  rewrite forallb_forall in Hd. specialize (Hd line Hin).
  apply filter_In in Hin as [_ Hc].
  pose proof (classificavel_int line Hc) as Hi.
  now rewrite slice_0_9, Hd in Hi.
Qed.

(** The fallback law on one line. *)
Lemma fallback_compacto (line : str) (n : Z) :
  (34 <= length line < 50)%nat ->
  int (firstn 9 line) = Some n ->
  isdigit (columns line 11 18) = true ->
  isdigit (columns line 19 22) = true ->
  exists r, parse_tipo3 line = Ok r /\ parse_registro3_compacto line = Ok r /\
            fmt r = compacto /\ crc16 r = None /\ crc_ok r = None.
Proof.
  intros [Hlo Hhi] Hn Hd Hh.
  destruct (parse_registro3_compacto_ok line n Hlo Hn Hd Hh) as (c & _ & Hc).
  eexists. split; [| split; [exact Hc | auto]].
  unfold parse_tipo3, try_fallback. rewrite Hc.
  unfold parse_registro3_oficial, require_len.
  destruct (Nat.ltb_spec (length line) 50); [reflexivity | lia].
Qed.

(** C4.  For the type-3 lines of an interpreted file: bucket "3" holds, in
    file order, for each such line the record of the official parser, or
    else that of the compact parser; a line that both reject leaves the
    composite error in the diagnostics (of which the document keeps the
    first 200) and every bucket as it would be without the line; and a
    line of 34 to 49 characters whose date window (columns 11-18) and time
    window (columns 19-22) are digits parses as [compacto] with a null
    [crc_ok] and enters bucket "3". *)
Theorem tipo3_oficial_depois_compacto (raw : list Byte.byte) (d : documento) :
  interpretar_afd raw = Ok d ->
  let ls := linhas_classificaveis raw in
  b3 (registros_por_tipo d) = flat_map marcacoes_da_linha ls /\
  (exists todos,
     v_erros (d_validacoes d) = firstn 200 todos /\
     forall line e1 e2,
       In line ls -> tipo_da_linha "3" line = true ->
       parse_registro3_oficial line = Raise e1 ->
       parse_registro3_compacto line = Raise e2 ->
       In (Erro_ao_parsear (firstn 9 line) "3" (ValueError_falha 3 e1 e2))
         todos) /\
  (forall l1 l2 line e1 e2,
     ls = l1 ++ line :: l2 -> tipo_da_linha "3" line = true ->
     parse_registro3_oficial line = Raise e1 ->
     parse_registro3_compacto line = Raise e2 ->
     registros_por_tipo d = registros_das_linhas (l1 ++ l2)) /\
  (forall line,
     In line ls -> tipo_da_linha "3" line = true ->
     (34 <= length line < 50)%nat ->
     isdigit (columns line 11 18) = true ->
     isdigit (columns line 19 22) = true ->
     exists r, parse_registro3_compacto line = Ok r /\
               fmt r = compacto /\ crc_ok r = None /\
               In r (b3 (registros_por_tipo d))).
Proof.
  intros H ls. pose proof (registros_por_tipo_linhas raw d H) as Hb.
  fold ls in Hb.
  assert (Hb3 : b3 (registros_por_tipo d) = flat_map marcacoes_da_linha ls)
    by (rewrite Hb; apply sucessos3_marcacoes).
  split; [exact Hb3 |]. split; [| split].
  - pose proof H as Hok.
    apply interpretar_afd_ok in Hok as (st & _ & _ & Hapos & _ & ->).
    destruct Hapos as (_ & _ & _ & _ & _ & _ & _ & _ & He & _).
    exists (erros st). split; [reflexivity |].
    intros line e1 e2 Hin Ht H1 H2. rewrite He. apply in_or_app. right.
    now apply falha_tipo3_diagnostico.
  - intros l1 l2 line e1 e2 Hls Ht H1 H2. rewrite Hb, Hls.
    now apply (falha_tipo3_sem_registro line l1 l2 e1 e2).
  - intros line Hin Ht Hlen Hd Hh.
    pose proof (classificaveis_int raw d line H Hin) as Hn.
    destruct (fallback_compacto line _ Hlen Hn Hd Hh)
      as (r & Hp & Hc & Hf & _ & Hk).
    exists r. repeat split; auto.
    rewrite Hb3. apply in_flat_map. exists line. split; [exact Hin |].
    unfold marcacoes_da_linha. rewrite Ht.
    unfold parse_tipo3, try_fallback in Hp.
    destruct (parse_registro3_oficial line) as [r' |].
    + injection Hp as ->. now left.
    + rewrite Hc. now left.
Qed.

Lemma tipo3_oficial_depois_compacto_witness :
  exists d, interpretar_afd Exemplos.afd_compacto = Ok d /\
    b3 (registros_por_tipo d)
    = flat_map marcacoes_da_linha
        (linhas_classificaveis Exemplos.afd_compacto) /\
    exists r, parse_registro3_compacto Exemplos.compacta_1 = Ok r /\
              fmt r = compacto /\ crc_ok r = None /\
              In r (b3 (registros_por_tipo d)).
Proof.
  eexists. split; [vm_compute; reflexivity |].
  match goal with
  | |- context [registros_por_tipo ?d] =>
      pose proof (tipo3_oficial_depois_compacto Exemplos.afd_compacto d)
        as Hw
  end.
  destruct Hw as (H1 & _ & _ & H4); [vm_compute; reflexivity |].
  split; [exact H1 |].
  apply H4; try (vm_compute; reflexivity).
  - left. vm_compute. reflexivity.
  - vm_compute. split; repeat constructor.
Defined.

(* ===================================================================== *)
(** * Checksum verification under mutation                               *)
(* ===================================================================== *)

Section Mutation.
Context {A : Type}.

(** Changing one element outside the columns [a..b] changes exactly one
    element of the excised text and nothing of the field. *)
Lemma excise_outside (p q : list A) (x c : A) (a b : nat) :
  (1 <= a)%nat -> (a - 1 <= b)%nat ->
  (length p < a - 1 \/ b <= length p)%nat ->
  exists p' q',
    firstn (a - 1) (p ++ x :: q) ++ skipn b (p ++ x :: q) = p' ++ x :: q' /\
    firstn (a - 1) (p ++ c :: q) ++ skipn b (p ++ c :: q) = p' ++ c :: q' /\
    firstn (b - (a - 1)) (skipn (a - 1) (p ++ x :: q))
    = firstn (b - (a - 1)) (skipn (a - 1) (p ++ c :: q)).
Proof.
  intros Ha Hab [Hlt | Hge].
  - destruct (a - 1 - length p)%nat as [| k] eqn:Ek; [lia |].
    destruct (b - length p)%nat as [| m] eqn:Em; [lia |].
    exists p, (firstn k q ++ skipn m q).
    rewrite !firstn_app, !skipn_app, Ek, Em.
    rewrite !(firstn_all2 p) by lia. rewrite !(skipn_all2 p) by lia.
    cbn [firstn skipn app]. rewrite <- !app_assoc. cbn [app].
    repeat split; reflexivity.
  - exists (firstn (a - 1) p ++ skipn b p), q.
    rewrite !firstn_app, !skipn_app.
    replace (a - 1 - length p)%nat with 0%nat by lia.
    replace (b - length p)%nat with 0%nat by lia.
    cbn [firstn skipn]. rewrite !app_nil_r, <- !app_assoc.
    repeat split; try reflexivity.
    rewrite !firstn_app, !length_skipn.
    replace (b - (a - 1) - (length p - (a - 1)))%nat with 0%nat by lia.
    reflexivity.
Qed.

Lemma split_at (l : list A) (i : nat) (x : A) :
  nth_error l i = Some x ->
  l = firstn i l ++ x :: skipn (S i) l /\ length (firstn i l) = i.
Proof.
  revert i. induction l as [| y l IH]; intros [| i] H; try discriminate.
  - injection H as ->. auto.
  - cbn in H. destruct (IH i H) as [Heq Hlen]. split.
    + change (y :: l = y :: (firstn i l ++ x :: skipn (S i) l)).
      f_equal. exact Heq.
    + cbn [firstn length]. now rewrite Hlen.
Qed.

End Mutation.

Lemma byte_of_ascii_inj (x y : ascii) : byte_of_ascii x = byte_of_ascii y -> x = y.
Proof.
  intros H. rewrite <- (ascii_of_byte_of_ascii x), <- (ascii_of_byte_of_ascii y).
  now rewrite H.
Qed.

Lemma verifica_crc3_reference (line : str) :
  verifica_crc3 line
  = ustr_eqb (upper (columns line 47 50))
      (code_points
         (format_04X (crc16_ibm_arc (encode_latin1 (excise line 47 50))))).
Proof.
  unfold verifica_crc3. rewrite crc16_ibm_arc_reference.
  apply (crc_confere_reference line 47%nat 50%nat). lia.
Qed.

Lemma substituir_restore (line : str) (i : nat) (x c : ascii) :
  nth_error line i = Some x -> substituir i x (substituir i c line) = line.
Proof.
  intros Hx. destruct (split_at line i x Hx) as [Heq Hlen].
  unfold substituir at 2. unfold substituir.
  rewrite firstn_app, Hlen, Nat.sub_diag, firstn_firstn, Nat.min_id.
  cbn [firstn]. rewrite app_nil_r.
  rewrite skipn_app, Hlen.
  rewrite (skipn_all2 (firstn i line)) by lia.
  replace (S i - i)%nat with 1%nat by lia. cbn [skipn app]. now symmetry.
Qed.

(** One changed character outside the checksum field is detected. *)
Lemma verifica_crc3_mutation (line : str) (i : nat) (x c : ascii) :
  verifica_crc3 line = true ->
  nth_error line i = Some x -> c <> x -> (i < 46 \/ 50 <= i)%nat ->
  verifica_crc3 (substituir i c line) = false.
Proof.
  intros Hv Hx Hne Hout.
  destruct (split_at line i x Hx) as [Heq Hlen].
  destruct (excise_outside (firstn i line) (skipn (S i) line) x c 47 50)
    as (p' & q' & E1 & E2 & E3); try lia.
  rewrite <- Heq in E1, E3. fold (substituir i c line) in E2, E3.
  rewrite verifica_crc3_reference in *.
  apply ustr_eqb_eq in Hv. apply ustr_eqb_neq. intros Hv'.
  unfold columns, excise in *. cbn [Nat.sub] in *.
  rewrite <- E3, Hv in Hv'. rewrite E1, E2 in Hv'.
  apply code_points_inj, format_04X_inj in Hv'.
  unfold encode_latin1 in Hv'. rewrite !map_app in Hv'. cbn [map] in Hv'.
  apply crc16_single_byte in Hv'; [exact Hv' |].
  intros Hb. apply byte_of_ascii_inj in Hb. congruence.
Qed.

Lemma excise_campo (line f : str) (a b : nat) :
  (a - 1 <= b)%nat -> (b <= length line)%nat -> length f = (b - (a - 1))%nat ->
  excise (substituir_campo a b f line) a b = excise line a b /\
  columns (substituir_campo a b f line) a b = f.
Proof.
  intros Hab Hb Hf. unfold excise, columns, substituir_campo.
  assert (Hl : length (firstn (a - 1) line) = (a - 1)%nat)
    by (rewrite length_firstn; lia).
  split.
  - rewrite firstn_app, Hl, Nat.sub_diag, firstn_firstn, Nat.min_id.
    cbn [firstn]. rewrite app_nil_r. f_equal.
    rewrite skipn_app, Hl, (skipn_all2 (firstn (a - 1) line)) by lia.
    cbn [app]. rewrite skipn_app, Hf.
    rewrite (skipn_all2 f) by lia.
    replace (b - (a - 1) - (b - (a - 1)))%nat with 0%nat by lia.
    reflexivity.
  - rewrite skipn_app, Hl, Nat.sub_diag,
      (skipn_all2 (firstn (a - 1) line)) by lia.
    cbn [skipn app]. rewrite firstn_app, Hf, Nat.sub_diag.
    cbn [firstn]. rewrite app_nil_r. apply firstn_all2. lia.
Qed.

(** A 4-character field whose uppercase form differs from that of the
    original field is detected. *)
Lemma verifica_crc3_campo (line f : str) :
  (50 <= length line)%nat -> length f = 4%nat ->
  verifica_crc3 line = true ->
  verifica_crc3 (substituir_campo 47 50 f line)
  = ustr_eqb (upper f) (upper (columns line 47 50)).
Proof.
  intros Hlen Hf Hv.
  rewrite verifica_crc3_reference in *.
  destruct (excise_campo line f 47 50) as [-> ->]; try lia; try exact Hf.
  apply ustr_eqb_eq in Hv. now rewrite <- Hv.
Qed.

Lemma substituir_campo_restore (line f : str) :
  (50 <= length line)%nat -> length f = 4%nat ->
  substituir_campo 47 50 (columns line 47 50)
    (substituir_campo 47 50 f line) = line.
Proof.
  intros Hlen Hf. unfold substituir_campo at 1.
  pose proof (excise_campo line f 47 50) as [He _]; try lia; try exact Hf.
  unfold excise in He.
  assert (H1 : firstn 46 (substituir_campo 47 50 f line) = firstn 46 line).
  { unfold substituir_campo. cbn [Nat.sub].
    rewrite firstn_app, firstn_firstn, length_firstn.
    replace (Nat.min 46 (length line)) with 46%nat by lia.
    rewrite Nat.sub_diag. cbn [firstn]. now rewrite app_nil_r. }
  assert (H2 : skipn 50 (substituir_campo 47 50 f line) = skipn 50 line).
  { cbn [Nat.sub] in He. rewrite H1 in He. now apply app_inv_head in He. }
  cbn [Nat.sub]. rewrite H1, H2. unfold columns. cbn [Nat.sub].
  rewrite <- (firstn_skipn 46 line) at 4. f_equal.
  rewrite <- (firstn_skipn 4 (skipn 46 line)) at 2. f_equal.
  now rewrite skipn_skipn.
Qed.

Lemma verifica_crc3_parse (line : str) (r : Registro3) :
  parse_registro3_oficial line = Ok r -> crc_ok r = Some (verifica_crc3 line).
Proof.
  intros H. apply parse_registro3_oficial_inv in H as (_ & _ & n & _ & ->).
  reflexivity.
Qed.

(** C6 (as amended).  For an official type-3 line that parses with
    [crc_ok] true: after any single character outside columns 47-50 is
    changed, the checksum comparison is false, so the official parser
    returns [crc_ok] false whenever it still accepts the line; after the
    field is replaced by four characters whose uppercase form differs from
    that of the original field (any 4-hex-digit string that differs by
    more than letter case), likewise; and putting the original content
    back gives the original line, on which the comparison is true. *)
Theorem crc_mutation_detected (line : str) (r : Registro3) :
  parse_registro3_oficial line = Ok r ->
  crc_ok r = Some true ->
  verifica_crc3 line = true /\
  (forall i x c,
     nth_error line i = Some x -> c <> x -> (i < 46 \/ 50 <= i)%nat ->
     verifica_crc3 (substituir i c line) = false /\
     (forall r', parse_registro3_oficial (substituir i c line) = Ok r' ->
                 crc_ok r' = Some false) /\
     substituir i x (substituir i c line) = line) /\
  (forall f,
     length f = 4%nat -> upper f <> upper (columns line 47 50) ->
     verifica_crc3 (substituir_campo 47 50 f line) = false /\
     (forall r', parse_registro3_oficial (substituir_campo 47 50 f line) = Ok r' ->
                 crc_ok r' = Some false) /\
     substituir_campo 47 50 (columns line 47 50)
       (substituir_campo 47 50 f line) = line).
Proof.
  intros Hp Hok.
  pose proof (verifica_crc3_parse line r Hp) as Hv.
  rewrite Hok in Hv. injection Hv as Hv. symmetry in Hv.
  apply parse_registro3_oficial_inv in Hp as (Hlen & _).
  split; [exact Hv |]. split.
  - intros i x c Hx Hne Hout.
    pose proof (verifica_crc3_mutation line i x c Hv Hx Hne Hout) as Hm.
    split; [exact Hm |]. split; [| now apply substituir_restore].
    intros r' Hr'. apply verifica_crc3_parse in Hr'. now rewrite Hr', Hm.
  - intros f Hf Hne.
    pose proof (verifica_crc3_campo line f Hlen Hf Hv) as Hm.
    apply ustr_eqb_neq in Hne. rewrite Hne in Hm.
    split; [exact Hm |]. split; [| now apply substituir_campo_restore].
    intros r' Hr'. apply verifica_crc3_parse in Hr'. now rewrite Hr', Hm.
Qed.

(** C6 (as stated) fails: the field is compared after [upper()], so a
    4-hex-digit string that differs from the original only by letter case
    is another string and still verifies. *)
Theorem crc_case_variant_counterexample :
  exists r r',
    parse_registro3_oficial Exemplos.oficial_1 = Ok r /\
    crc_ok r = Some true /\
    lit "cc1a" <> columns Exemplos.oficial_1 47 50 /\
    forallb hex_digit_char (lit "cc1a") = true /\
    substituir_campo 47 50 (lit "cc1a") Exemplos.oficial_1
    = Exemplos.oficial_1_minusculo /\
    parse_registro3_oficial Exemplos.oficial_1_minusculo = Ok r' /\
    crc_ok r' = Some true.
Proof.
  do 2 eexists.
  split; [vm_compute; reflexivity |].
  split; [reflexivity |].
  split; [vm_compute; discriminate |].
  split; [reflexivity |].
  split; [reflexivity |].
  split; [vm_compute; reflexivity | reflexivity].
Qed.

Lemma crc_mutation_detected_witness :
  exists r,
    parse_registro3_oficial Exemplos.oficial_1 = Ok r /\
    crc_ok r = Some true /\
    verifica_crc3 (substituir 0 "1" Exemplos.oficial_1) = false /\
    verifica_crc3 (substituir_campo 47 50 (lit "CC1B") Exemplos.oficial_1)
    = false.
Proof.
  eexists. split; [vm_compute; reflexivity |]. split; [reflexivity |].
  match goal with
  | |- context [substituir 0 _ ?l] =>
      pose proof (fun r H1 H2 => crc_mutation_detected l r H1 H2) as Hw
  end.
  edestruct Hw as (_ & Hm & Hf); [vm_compute; reflexivity | reflexivity |].
  split.
  - apply (Hm 0%nat "0"%char "1"%char); [reflexivity | discriminate | lia].
  - apply (Hf (lit "CC1B")); [reflexivity | vm_compute; discriminate].
Defined.

(* ===================================================================== *)
(** * The journey summarizer                                             *)
(* ===================================================================== *)

Section SumPairs.
Local Open Scope Z_scope.

Lemma skipn_nth_error_some {A} (l : list A) (i : nat) (x : A) :
  nth_error l i = Some x -> skipn i l = x :: skipn (S i) l.
Proof.
  revert i. induction l as [| y l IH]; intros [| i] H; try discriminate.
  - now injection H as ->.
  - cbn in H. cbn [skipn]. rewrite (IH i H). reflexivity.
Qed.

Lemma skipn_nth_error_none {A} (l : list A) (i : nat) :
  nth_error l i = None -> skipn i l = [].
Proof. intros H. apply skipn_all2. now apply nth_error_None. Qed.

Lemma emparelhar_skipn (times : list datetime) (i : nat) (e : datetime) :
  nth_error times i = Some e ->
  emparelhar (skipn i times)
  = (e, nth_error times (S i)) :: emparelhar (skipn (S (S i)) times).
Proof.
  intros He. rewrite (skipn_nth_error_some times i e He).
  destruct (nth_error times (S i)) as [s |] eqn:Es.
  - now rewrite (skipn_nth_error_some times (S i) s Es).
  - rewrite (skipn_nth_error_none times (S i) Es).
    rewrite (skipn_all2 times); [reflexivity |].
    apply nth_error_None in Es. lia.
Qed.

(** The loop, from any index, adds the pairs of the rest of the list. *)
Lemma sum_pairs_loop_spec (times : list datetime) (i : nat)
    (total : timedelta) (pares : list par) :
  sum_pairs_loop times i total pares
  = (total + soma (map duracao (emparelhar (skipn i times))),
     pares ++ emparelhar (skipn i times)).
Proof.
  funelim (sum_pairs_loop times i total pares).
  - (* i >= len *)
    rewrite skipn_all2 by lia. cbn. now rewrite Z.add_0_r, app_nil_r.
  - (* i < len, times[i] = e *)
    match goal with
    | IH : sum_pairs_loop _ _ _ _ = (_, _) |- _ => rewrite IH
    end.
    match goal with
    | H : nth_error times i = Some _ |- _ =>
        rewrite (emparelhar_skipn times i _ H)
    end.
    replace (i + 2)%nat with (S (S i)) by lia.
    replace (i + 1)%nat with (S i) by lia.
    unfold soma.
    destruct (lt_dec (S i) (length times)) as [Hlt | Hge].
    + cbn [map fold_right duracao]. rewrite <- app_assoc. cbn [app].
      destruct (nth_error times (S i)) as [s |]; cbn [duracao];
        [| f_equal; lia].
      destruct (dt_gtb s e); f_equal; lia.
    + assert (Hn : nth_error times (S i) = None)
        by (apply nth_error_None; lia).
      rewrite Hn. cbn [map fold_right duracao].
      rewrite <- app_assoc. cbn [app]. f_equal; lia.
  - (* i < len but no element: impossible *)
    match goal with
    | H : nth_error times i = None |- _ => apply nth_error_None in H
    end. lia.
Qed.

Lemma _sum_pairs_spec (times : list datetime) :
  _sum_pairs times = (soma (map duracao (emparelhar times)), emparelhar times).
Proof. unfold _sum_pairs. now rewrite sum_pairs_loop_spec. Qed.

Lemma emparelhar_nth (times : list datetime) (k : nat) :
  nth_error (emparelhar times) k
  = match nth_error times (2 * k) with
    | Some e => Some (e, nth_error times (2 * k + 1))
    | None => None
    end.
Proof.
  revert times. induction k as [| k IH]; intros times.
  - destruct times as [| e [| s rest]]; reflexivity.
  - replace (2 * S k)%nat with (S (S (2 * k))) by lia.
    destruct times as [| e [| s rest]].
    + reflexivity.
    + cbn. now destruct k.
    + cbn [emparelhar nth_error]. rewrite IH.
      replace (S (S (2 * k)) + 1)%nat with (S (S (2 * k + 1))) by lia.
      reflexivity.
Qed.

Lemma duracao_nonneg (p : par) : 0 <= duracao p.
Proof.
  destruct p as [e [s |]]; cbn [duracao].
  - unfold dt_gtb, dt_sub.
    destruct (Z.ltb_spec (instante e) (instante s)); lia.
  - lia.
Qed.

Lemma soma_nonneg (l : list timedelta) :
  Forall (fun x => 0 <= x) l -> 0 <= soma l.
Proof. unfold soma. induction 1; cbn [fold_right]; lia. Qed.

End SumPairs.

Lemma montar_linha_spec (n_pares : nat) (cpf data : str)
    (times : list datetime) :
  let ordenados := sort_by dt_ltb times in
  montar_linha n_pares ((cpf, data), times)
  = let total := soma (map duracao (emparelhar ordenados)) in
    mkJornada cpf data (map (slot (emparelhar ordenados)) (seq 0 n_pares))
      (_format_td_hhmm total)
      (_format_td_hhmm
         (if (10 * 3600 <? total)%Z then (total - 10 * 3600)%Z else 0%Z))
      (_format_td_hhmm
         (if (6 * 3600 <? total)%Z then (total - 6 * 3600)%Z else 0%Z)).
Proof.
  unfold montar_linha. now rewrite _sum_pairs_spec.
Qed.

(** C3.  [_sum_pairs] pairs element 0 with element 1, element 2 with
    element 3, and so on: pair [k] is the element of index [2k] with the
    element of index [2k+1], the latter empty when the list ends there
    (odd count), and there are no other pairs.  The total is the sum over
    the pairs of [exit - entry] where the exit is later than the entry;
    any other pair (exit missing, equal or earlier) adds exactly zero, so
    nothing negative is ever added and the total is not negative.  In a
    summary row the function is applied to the timestamps of the (tax ID,
    local date) group sorted ascending: the row shows the first pairs of
    that pairing and the total of all of them. *)
Theorem sum_pairs_pairing (times : list datetime) (cpf data : str)
    (n_pares : nat) :
  (let '(total, pares) := _sum_pairs times in
   pares = emparelhar times /\
   (forall k, nth_error pares k
              = match nth_error times (2 * k) with
                | Some e => Some (e, nth_error times (2 * k + 1))
                | None => None
                end) /\
   total = soma (map duracao pares) /\
   (forall e s, duracao (e, Some s)
                = if (instante e <? instante s)%Z
                  then (instante s - instante e)%Z else 0%Z) /\
   (forall e, duracao (e, None) = 0%Z) /\
   (forall p, In p pares -> (0 <= duracao p)%Z) /\
   (0 <= total)%Z) /\
  (let ordenados := sort_by dt_ltb times in
   let row := montar_linha n_pares ((cpf, data), times) in
   Sorted (fun a b => (instante a <= instante b)%Z) ordenados /\
   Permutation times ordenados /\
   j_pares row = map (slot (snd (_sum_pairs ordenados))) (seq 0 n_pares) /\
   horas_trabalhadas row = _format_td_hhmm (fst (_sum_pairs ordenados))).
Proof.
  split.
  - rewrite _sum_pairs_spec.
    split; [reflexivity |]. split; [apply emparelhar_nth |].
    split; [reflexivity |]. split; [reflexivity |]. split; [reflexivity |].
    split; [intros p _; apply duracao_nonneg |].
    apply soma_nonneg, Forall_forall. intros x Hx.
    apply in_map_iff in Hx as (p & <- & _). apply duracao_nonneg.
  - cbv zeta. rewrite montar_linha_spec, _sum_pairs_spec. cbn.
    split; [apply (sort_by_Sorted instante) |].
    split; [apply sort_by_Permutation |]. split; reflexivity.
Qed.

Example sum_pairs_four :
  _sum_pairs [Exemplos.as_0800; Exemplos.as_1200; Exemplos.as_1300;
              Exemplos.as_1700]
  = ((8 * 3600)%Z,
     [(Exemplos.as_0800, Some Exemplos.as_1200);
      (Exemplos.as_1300, Some Exemplos.as_1700)]).
Proof. rewrite _sum_pairs_spec. reflexivity. Qed.

Example sum_pairs_odd :
  _sum_pairs [Exemplos.as_0800; Exemplos.as_1200; Exemplos.as_1300]
  = ((4 * 3600)%Z,
     [(Exemplos.as_0800, Some Exemplos.as_1200); (Exemplos.as_1300, None)]).
Proof. rewrite _sum_pairs_spec. reflexivity. Qed.

Example sum_pairs_reversed :
  _sum_pairs [Exemplos.as_1200; Exemplos.as_0800]
  = (0%Z, [(Exemplos.as_1200, Some Exemplos.as_0800)]).
Proof. rewrite _sum_pairs_spec. reflexivity. Qed.

(* ===================================================================== *)
(** * Timestamps of the compact layout in the summarizer                 *)
(* ===================================================================== *)

Ltac explode_list H :=
  repeat match type of H with
    | length ?l = _ =>
        destruct l; cbn [length] in H; try discriminate H;
        try (injection H as H)
    end.

Lemma days_in_month_le_31 (y m : Z) : (days_in_month y m <= 31)%Z.
Proof.
  unfold days_in_month.
  destruct (m =? 2)%Z; [destruct (is_leap y); lia |].
  destruct ((m =? 4) || (m =? 6) || (m =? 9) || (m =? 11))%Z; lia.
Qed.

Section ParseCarimbo.
Local Opaque Z.mul Z.add Z.leb Z.ltb days_in_month digit_val.

Ltac next_digit c :=
  destruct (isdecimal c) eqn:?;
  [| cbn [and_then andb]; rewrite ?andb_false_r; cbn [andb]; reflexivity].

(** [strptime] on a synthesised timestamp succeeds exactly when the date
    and the time are real. *)
Lemma _parse_iso_dh_carimbo (d h : str) :
  length d = 8%nat -> length h = 4%nat ->
  _parse_iso_dh (carimbo d h)
  = if data_hora_real d h then Some (datetime_compacto d h) else None.
Proof.
  intros Hd Hh. explode_list Hd. explode_list Hh. clear Hd Hh.
  unfold carimbo, data_hora_real, datetime_compacto, columns.
  cbn [Nat.sub firstn skipn app lit list_ascii_of_string].
  unfold _parse_iso_dh.
  cbn [read_decimals and_then forallb].
  next_digit a3. next_digit a4. next_digit a5. next_digit a6. cbn.
  next_digit a1. next_digit a2. cbn.
  next_digit a. next_digit a0. cbn.
  next_digit a7. next_digit a8. cbn.
  next_digit a9. next_digit a10. cbn.
  unfold dec_step.
  change (10 * (10 * 0 + digit_val "0") + digit_val "3")%Z with 3%Z.
  change (10 * (10 * 0 + digit_val "0") + digit_val "0")%Z with 0%Z.
  change (-1 * (3 * 3600 + 0 * 60))%Z with (-10800)%Z.
  change (0 <=? 59)%Z with true.
  change (3 * 3600 + 0 * 60 <? 86400)%Z with true.
  set (Y := (10 * (10 * (10 * (10 * 0 + digit_val a3) + digit_val a4)
                   + digit_val a5) + digit_val a6)%Z).
  set (m := (10 * (10 * 0 + digit_val a1) + digit_val a2)%Z).
  set (dd := (10 * (10 * 0 + digit_val a) + digit_val a0)%Z).
  set (HH := (10 * (10 * 0 + digit_val a7) + digit_val a8)%Z).
  set (MM := (10 * (10 * 0 + digit_val a9) + digit_val a10)%Z).
  pose proof (days_in_month_le_31 Y m) as Hdim.
  destruct (Z.leb_spec dd 31), (Z.leb_spec dd (days_in_month Y m));
    destruct (1 <=? m)%Z, (m <=? 12)%Z, (1 <=? dd)%Z, (HH <=? 23)%Z,
      (MM <=? 59)%Z, (1 <=? Y)%Z; cbn; try reflexivity; lia.
Qed.

End ParseCarimbo.

(** ** [strip] *)

Lemma lstrip_nonspace (c : ascii) (s : str) :
  isspace c = false -> lstrip (c :: s) = c :: s.
Proof. intros H. cbn [lstrip]. now rewrite H. Qed.

Lemma strip_id (c : ascii) (s : str) :
  isspace c = false -> isspace (last (c :: s) c) = false ->
  strip (c :: s) = c :: s.
Proof.
  intros Hc Hl. unfold strip, rstrip. rewrite (lstrip_nonspace c s Hc).
  assert (Hne : c :: s <> []) by discriminate.
  rewrite (app_removelast_last c Hne) at 1.
  rewrite rev_app_distr. cbn [rev app].
  rewrite lstrip_nonspace by exact Hl.
  change (last (c :: s) c :: rev (removelast (c :: s)))
    with (rev [last (c :: s) c] ++ rev (removelast (c :: s))).
  rewrite <- rev_app_distr, rev_involutive.
  symmetry. now apply app_removelast_last.
Qed.

Lemma strip_carimbo (d h : str) :
  length d = 8%nat -> length h = 4%nat -> isdigit d = true ->
  strip (carimbo d h) = carimbo d h.
Proof.
  intros Hd Hh Hdig. explode_list Hd. explode_list Hh. clear Hd Hh.
  unfold isdigit in Hdig. cbn [forallb] in Hdig.
  repeat (apply andb_true_iff in Hdig as [? Hdig]).
  unfold carimbo, columns.
  cbn [Nat.sub firstn skipn app lit list_ascii_of_string].
  apply strip_id; [now apply isdigit_not_space | reflexivity].
Qed.

(** ** Grouping *)

Lemma chave_eqb_eq (a b : chave) : chave_eqb a b = true <-> a = b.
Proof.
  destruct a as [a1 a2], b as [b1 b2]. unfold chave_eqb. cbn [fst snd].
  rewrite andb_true_iff, !str_eqb_eq. split; [intros [-> ->] | intros [= -> ->]];
    auto.
Qed.

Lemma adicionar_contem (k : chave) (dt : datetime) (g : grupos) :
  contem (adicionar k dt g) k dt.
Proof.
  induction g as [| [k' ts] g IH]; cbn [adicionar].
  - exists [dt]. split; now left.
  - destruct (chave_eqb k k') eqn:E.
    + apply chave_eqb_eq in E as <-. exists (ts ++ [dt]).
      split; [now left | apply in_or_app; right; now left].
    + destruct IH as (times & Hin & Hdt). exists times.
      split; [now right | exact Hdt].
Qed.

Lemma adicionar_preserva (k k' : chave) (dt dt' : datetime) (g : grupos) :
  contem g k' dt' -> contem (adicionar k dt g) k' dt'.
Proof.
  intros (times & Hin & Hdt).
  induction g as [| [k0 ts] g IH]; [contradiction |].
  cbn [adicionar]. destruct (chave_eqb k k0) eqn:E.
  - destruct Hin as [[= -> ->] | Hin].
    + exists (times ++ [dt]). split; [now left | apply in_or_app; now left].
    + exists times. split; [now right | exact Hdt].
  - destruct Hin as [[= -> ->] | Hin].
    + exists times. split; [now left | exact Hdt].
    + destruct (IH Hin) as (times' & Hin' & Hdt').
      exists times'. split; [now right | exact Hdt'].
Qed.

Lemma agrupar_linha_preserva (g : grupos) (row : marcacao) (k : chave)
    (dt : datetime) :
  contem g k dt -> contem (agrupar_linha g row) k dt.
Proof.
  intros H. unfold agrupar_linha.
  destruct (negb (nonempty (strip (m_cpf row)))
            || negb (nonempty (strip (m_dh_marcacao row)))); [exact H |].
  destruct (_parse_iso_dh (strip (m_dh_marcacao row))); [| exact H].
  now apply adicionar_preserva.
Qed.

Lemma fold_agrupar_preserva (rows : list marcacao) (g : grupos) (k : chave)
    (dt : datetime) :
  contem g k dt -> contem (fold_left agrupar_linha rows g) k dt.
Proof.
  revert g. induction rows as [| row rows IH]; intros g H; [exact H |].
  cbn [fold_left]. now apply IH, agrupar_linha_preserva.
Qed.

Lemma nonempty_true {A} (l : list A) : nonempty l = true <-> l <> [].
Proof. destruct l; simpl; split; congruence. Qed.

(** A row with a tax ID and a timestamp that parses enters its group. *)
Lemma agrupar_contem (rows : list marcacao) (row : marcacao) (dt : datetime) :
  In row rows ->
  strip (m_cpf row) <> [] ->
  _parse_iso_dh (strip (m_dh_marcacao row)) = Some dt ->
  contem (agrupar rows) (strip (m_cpf row), data_local dt) dt.
Proof.
  intros Hin Hcpf Hdt. apply in_split in Hin as (antes & depois & ->).
  unfold agrupar. rewrite fold_left_app. cbn [fold_left].
  apply fold_agrupar_preserva. unfold agrupar_linha.
  apply nonempty_true in Hcpf. rewrite Hcpf.
  assert (Hdh : nonempty (strip (m_dh_marcacao row)) = true).
  { destruct (strip (m_dh_marcacao row)); [discriminate Hdt | reflexivity]. }
  rewrite Hdh, Hdt. cbn [negb orb]. apply adicionar_contem.
Qed.

(** A row without tax ID, or whose timestamp does not parse, is skipped. *)
Lemma agrupar_linha_skip (g : grupos) (row : marcacao) :
  strip (m_cpf row) = [] \/ _parse_iso_dh (strip (m_dh_marcacao row)) = None ->
  agrupar_linha g row = g.
Proof.
  intros [H | H]; unfold agrupar_linha; rewrite H.
  - reflexivity.
  - now destruct (negb (nonempty (strip (m_cpf row)))
                  || negb (nonempty (strip (m_dh_marcacao row)))).
Qed.

Lemma gerar_sem_linha (antes depois : list marcacao) (row : marcacao)
    (n_pares : nat) (o : ordenacao) :
  strip (m_cpf row) = [] \/ _parse_iso_dh (strip (m_dh_marcacao row)) = None ->
  gerar_jornadas_por_cpf (antes ++ row :: depois) n_pares o
  = gerar_jornadas_por_cpf (antes ++ depois) n_pares o.
Proof.
  intros H. unfold gerar_jornadas_por_cpf, agrupar.
  rewrite !fold_left_app. cbn [fold_left].
  now rewrite (agrupar_linha_skip _ row H).
Qed.

(** The grouping reads the columns [cpf] and [dh_marcacao] only. *)
Lemma agrupar_so_cpf_dh (rows rows' : list marcacao) (g : grupos) :
  map m_cpf rows = map m_cpf rows' ->
  map m_dh_marcacao rows = map m_dh_marcacao rows' ->
  fold_left agrupar_linha rows g = fold_left agrupar_linha rows' g.
Proof.
  revert rows' g. induction rows as [| r rows IH]; intros [| r' rows'] g;
    try discriminate; [reflexivity |].
  cbn [map fold_left]. intros [= Hc Hcs] [= Hd Hds].
  replace (agrupar_linha g r') with (agrupar_linha g r)
    by (unfold agrupar_linha; now rewrite Hc, Hd).
  now apply IH.
Qed.

Lemma gerar_linha_do_grupo (rows : list marcacao) (n_pares : nat)
    (o : ordenacao) (k : chave) (times : list datetime) :
  In (k, times) (agrupar rows) ->
  exists j, In j (gerar_jornadas_por_cpf rows n_pares o) /\
            j_cpf j = fst k /\ j_data j = snd k.
Proof.
  intros Hin. exists (montar_linha n_pares (k, times)). split.
  - unfold gerar_jornadas_por_cpf.
    eapply Permutation_in; [apply sort_by_Permutation |].
    now apply in_map.
  - destruct k as [c d]. rewrite montar_linha_spec. auto.
Qed.

(* ===================================================================== *)
(** * Membership does not depend on the checksum                         *)
(* ===================================================================== *)

Lemma sucessos_In {R} (c : ascii) (parse : str -> result R) (ls : list str)
    (line : str) (r : R) :
  In line ls -> tipo_da_linha (String c EmptyString) line = true ->
  parse line = Ok r ->
  In r (sucessos (String c EmptyString) parse ls).
Proof.
  intros Hin Ht Hp. unfold sucessos. apply in_flat_map.
  exists line. split; [exact Hin |]. rewrite Ht, Hp. now left.
Qed.

Lemma parse_tipo3_oficial (line : str) (r : Registro3) :
  parse_registro3_oficial line = Ok r -> parse_tipo3 line = Ok r.
Proof. intros H. unfold parse_tipo3, try_fallback. now rewrite H. Qed.

Lemma parse_tipo3_compacto (line : str) (r : Registro3) :
  (forall r', parse_registro3_oficial line <> Ok r') ->
  parse_registro3_compacto line = Ok r -> parse_tipo3 line = Ok r.
Proof.
  intros Hno H. unfold parse_tipo3, try_fallback.
  destruct (parse_registro3_oficial line) as [r' |] eqn:E;
    [now destruct (Hno r') | now rewrite H].
Qed.

Lemma crc_resumo_dos_registros (raw : list Byte.byte) (d : documento) :
  interpretar_afd raw = Ok d ->
  let v := v_crc_ok_por_tipo (d_validacoes d) in
  let b := registros_por_tipo d in
  crc2 v = all_or_none (map r2_crc_ok (b2 b)) /\
  crc3 v = all_or_none (flags3 (b3 b)) /\
  crc4 v = all_or_none (map r4_crc_ok (b4 b)) /\
  crc5 v = all_or_none (map r5_crc_ok (b5 b)).
Proof.
  intros H. apply interpretar_afd_ok in H as (st & _ & _ & Hapos & _ & ->).
  destruct Hapos as (A2 & A3 & A4 & A5 & _ & _ & _ & _ & _ & _ & C2 & C3
                     & C4 & C5).
  cbn in *. now rewrite A2, A3, A4, A5, C2, C3, C4, C5.
Qed.

(** C9.  A failed checksum never excludes a record.  In an interpreted
    document, a line of type 2, 3 (official layout), 4 or 5 whose parser
    succeeds with the comparison false still has its record in the bucket
    of its type; the checksum results reach the document only as the
    [crc_ok] fields and the per-type aggregate over the bucket.  The
    summarizer reads the tax ID and the timestamp of a punch and nothing
    else, so a punch with a failed checksum, like any other, enters the
    group of its tax ID and local date, and a summary row exists for that
    group, whenever its tax ID is not blank and its timestamp parses. *)
Theorem crc_falso_nao_exclui (raw : list Byte.byte) (d : documento) :
  interpretar_afd raw = Ok d ->
  let ls := linhas_classificaveis raw in
  let b := registros_por_tipo d in
  (forall line r,
     In line ls -> tipo_da_linha "2" line = true ->
     parse_registro2 line = Ok r -> r2_crc_ok r = false -> In r (b2 b)) /\
  (forall line r,
     In line ls -> tipo_da_linha "3" line = true ->
     parse_registro3_oficial line = Ok r -> crc_ok r = Some false ->
     In r (b3 b)) /\
  (forall line r,
     In line ls -> tipo_da_linha "4" line = true ->
     parse_registro4 line = Ok r -> r4_crc_ok r = false -> In r (b4 b)) /\
  (forall line r,
     In line ls -> tipo_da_linha "5" line = true ->
     parse_registro5 line = Ok r -> r5_crc_ok r = false -> In r (b5 b)) /\
  (let v := v_crc_ok_por_tipo (d_validacoes d) in
   crc2 v = all_or_none (map r2_crc_ok (b2 b)) /\
   crc3 v = all_or_none (flags3 (b3 b)) /\
   crc4 v = all_or_none (map r4_crc_ok (b4 b)) /\
   crc5 v = all_or_none (map r5_crc_ok (b5 b))) /\
  (forall rows rows' n_pares o,
     map m_cpf rows = map m_cpf rows' ->
     map m_dh_marcacao rows = map m_dh_marcacao rows' ->
     gerar_jornadas_por_cpf rows n_pares o
     = gerar_jornadas_por_cpf rows' n_pares o) /\
  (forall r dt n_pares o,
     In r (b3 b) -> crc_ok r = Some false ->
     strip (cpf r) <> [] ->
     _parse_iso_dh (strip (dh_marcacao r)) = Some dt ->
     contem (agrupar (exportar_marcacoes_tipo3 d))
       (strip (cpf r), data_local dt) dt /\
     exists j,
       In j (gerar_jornadas_por_cpf (exportar_marcacoes_tipo3 d) n_pares o) /\
       j_cpf j = strip (cpf r) /\ j_data j = data_local dt).
Proof.
  intros H ls b. pose proof (registros_por_tipo_linhas raw d H) as Hb.
  fold ls in Hb. fold b in Hb.
  split; [| split; [| split; [| split; [| split; [| split]]]]].
  - intros line r Hin Ht Hp _. rewrite Hb. cbn [registros_das_linhas b2].
    now apply (sucessos_In "2" _ _ line).
  - intros line r Hin Ht Hp _. rewrite Hb. cbn [registros_das_linhas b3].
    apply (sucessos_In "3" _ _ line); auto. now apply parse_tipo3_oficial.
  - intros line r Hin Ht Hp _. rewrite Hb. cbn [registros_das_linhas b4].
    now apply (sucessos_In "4" _ _ line).
  - intros line r Hin Ht Hp _. rewrite Hb. cbn [registros_das_linhas b5].
    now apply (sucessos_In "5" _ _ line).
  - apply (crc_resumo_dos_registros raw d H).
  - intros rows rows' n_pares o Hc Hd. unfold gerar_jornadas_por_cpf, agrupar.
    now rewrite (agrupar_so_cpf_dh rows rows' [] Hc Hd).
  - intros r dt n_pares o Hin _ Hcpf Hdt.
    assert (Hc : contem (agrupar (exportar_marcacoes_tipo3 d))
                   (strip (cpf r), data_local dt) dt).
    { apply (agrupar_contem _ (exportar_marcacao r)); auto.
      unfold exportar_marcacoes_tipo3. now apply in_map. }
    split; [exact Hc |].
    destruct Hc as (times & Hg & _).
    apply (gerar_linha_do_grupo _ n_pares o) in Hg. exact Hg.
Qed.

Lemma crc_falso_nao_exclui_witness :
  exists d r,
    interpretar_afd Exemplos.afd_crc_errado = Ok d /\
    parse_registro3_oficial Exemplos.oficial_crc_errado = Ok r /\
    crc_ok r = Some false /\
    In r (b3 (registros_por_tipo d)) /\
    crc3 (v_crc_ok_por_tipo (d_validacoes d)) = Some false.
Proof.
  do 2 eexists. split; [vm_compute; reflexivity |].
  split; [vm_compute; reflexivity |]. split; [reflexivity |].
  match goal with
  | |- In ?r (b3 (registros_por_tipo ?d)) /\ _ =>
      pose proof (crc_falso_nao_exclui Exemplos.afd_crc_errado d) as Hw
  end.
  destruct Hw as (_ & H3 & _); [vm_compute; reflexivity |].
  split; [| vm_compute; reflexivity].
  apply (H3 Exemplos.oficial_crc_errado);
    [left | | |]; vm_compute; reflexivity.
Defined.

(* ===================================================================== *)
(** * The compact layout does not validate the calendar                  *)
(* ===================================================================== *)

(** C10.  The compact parser checks the length of the line and that the
    date window (columns 11-18) and the time window (columns 19-22) are
    digits, nothing else: every such line whose NSR converts parses, with
    the timestamp synthesised from the two windows, and when the official
    parser rejects the line the record is in bucket "3" of the document.
    If the date and time are not a real calendar date and time of day
    (month 13, hour 99, 30 February, a superscript digit), the timestamp
    fails [_parse_iso_dh] and the punch is skipped by the summarizer: the
    summary is the one computed without it.  A real date and time does
    parse. *)
Theorem compacto_sem_validacao_de_calendario (line : str) (n : Z) :
  (34 <= length line)%nat ->
  int (firstn 9 line) = Some n ->
  isdigit (columns line 11 18) = true ->
  isdigit (columns line 19 22) = true ->
  exists r,
    parse_registro3_compacto line = Ok r /\
    dh_marcacao r = carimbo (columns line 11 18) (columns line 19 22) /\
    fmt r = compacto /\
    (forall raw d,
       interpretar_afd raw = Ok d ->
       In line (linhas_classificaveis raw) ->
       tipo_da_linha "3" line = true ->
       (forall r', parse_registro3_oficial line <> Ok r') ->
       In r (b3 (registros_por_tipo d))) /\
    (data_hora_real (columns line 11 18) (columns line 19 22) = false ->
     _parse_iso_dh (strip (dh_marcacao r)) = None /\
     forall antes depois n_pares o,
       gerar_jornadas_por_cpf (antes ++ exportar_marcacao r :: depois)
         n_pares o
       = gerar_jornadas_por_cpf (antes ++ depois) n_pares o) /\
    (data_hora_real (columns line 11 18) (columns line 19 22) = true ->
     _parse_iso_dh (strip (dh_marcacao r))
     = Some (datetime_compacto (columns line 11 18) (columns line 19 22))).
Proof.
  intros Hlen Hn Hd Hh.
  destruct (parse_registro3_compacto_ok line n Hlen Hn Hd Hh) as (c & Hc & Hp).
  assert (Hl8 : length (columns line 11 18) = 8%nat)
    by (rewrite columns_length by lia; reflexivity).
  assert (Hl4 : length (columns line 19 22) = 4%nat)
    by (rewrite columns_length by lia; reflexivity).
  eexists. split; [exact Hp |]. cbn [dh_marcacao fmt].
  rewrite (strip_carimbo _ _ Hl8 Hl4 Hd), (_parse_iso_dh_carimbo _ _ Hl8 Hl4).
  split; [reflexivity |]. split; [reflexivity |]. split; [| split].
  - intros raw d Hok Hin Ht Hno.
    rewrite (registros_por_tipo_linhas raw d Hok).
    cbn [registros_das_linhas b3].
    apply (sucessos_In "3" _ _ line); auto.
    now apply parse_tipo3_compacto.
  - intros Hreal. rewrite Hreal. split; [reflexivity |].
    intros antes depois n_pares o. apply gerar_sem_linha. right.
    cbn [exportar_marcacao m_dh_marcacao dh_marcacao].
    now rewrite (strip_carimbo _ _ Hl8 Hl4 Hd),
      (_parse_iso_dh_carimbo _ _ Hl8 Hl4), Hreal.
  - intros Hreal. now rewrite Hreal.
Qed.

Lemma compacto_sem_validacao_de_calendario_witness :
  exists r,
    parse_registro3_compacto Exemplos.compacta_mes_13 = Ok r /\
    dh_marcacao r = lit "2025-13-16T08:00:00-0300" /\
    _parse_iso_dh (strip (dh_marcacao r)) = None /\
    gerar_jornadas_por_cpf [exportar_marcacao r] N_PARES data_cpf = [].
Proof.
  destruct (compacto_sem_validacao_de_calendario Exemplos.compacta_mes_13 3)
    as (r & Hp & Hdh & _ & _ & Hbad & _);
    [vm_compute; lia | reflexivity | reflexivity | reflexivity |].
  exists r. split; [exact Hp |]. split; [rewrite Hdh; reflexivity |].
  destruct Hbad as [Hnone Hskip]; [reflexivity |].
  split; [exact Hnone |]. exact (Hskip [] [] N_PARES data_cpf).
Defined.

Example compacta_hora_99_excluida :
  exists r,
    parse_registro3_compacto Exemplos.compacta_hora_99 = Ok r /\
    dh_marcacao r = lit "2025-07-16T99:00:00-0300" /\
    _parse_iso_dh (strip (dh_marcacao r)) = None.
Proof. eexists. repeat split; vm_compute; reflexivity. Qed.

(* ===================================================================== *)
(** * Trailers as the interpreter sees them                              *)
(* ===================================================================== *)

(** The dispatch reads the type in column 10, where a trailer carries the
    first digit of its first count: a trailer is parsed when that digit is
    9, and then reconciled against the buckets. *)
Example trailer_coluna10_9_parsed :
  option_map contagens_ok (validacoes_de Exemplos.afd_com_trailer)
  = Some false /\
  option_map (fun d => option_map qtd_tipo2 (d_trailer d))
    (match interpretar_afd Exemplos.afd_com_trailer with
     | Ok d => Some d
     | Raise _ => None
     end) = Some (Some 9%Z).
Proof. split; vm_compute; reflexivity. Qed.

(** With a zero in column 10 the trailer line is reported as a line of
    unknown type and the document has no trailer. *)
Example trailer_padrao_unknown_type :
  option_map (fun d => (d_trailer d, v_erros (d_validacoes d),
                        contagens_ok (d_validacoes d)))
    (match interpretar_afd Exemplos.afd_com_trailer_padrao with
     | Ok d => Some d
     | Raise _ => None
     end)
  = Some (None, [Tipo_desconhecido "0"], true).
Proof. vm_compute. reflexivity. Qed.

(* ===================================================================== *)
(** * Further properties: splitting the text into lines                  *)
(* ===================================================================== *)

Lemma sem_lf_app (a b : str) : sem_lf (a ++ b) = sem_lf a && sem_lf b.
Proof. apply forallb_app. Qed.

Lemma sem_lf_rev (a : str) : sem_lf (rev a) = sem_lf a.
Proof. apply forallb_rev_eq. Qed.

Lemma split_lf_acc_sem_lf (s cur : str) :
  sem_lf cur = true ->
  Forall (fun l => sem_lf l = true) (split_lf_acc cur s).
Proof.
  revert cur. induction s as [| c s IH]; intros cur Hcur; cbn [split_lf_acc].
  - constructor; [now rewrite sem_lf_rev | constructor].
  - destruct (Ascii.eqb c LF) eqn:E.
    + constructor; [now rewrite sem_lf_rev | now apply IH].
    + apply IH. unfold sem_lf in *. cbn [forallb]. now rewrite E, Hcur.
Qed.

(** X1.  Every line [_split_lines] returns is free of line feeds and is
    not blank, whatever the text. *)
Theorem split_lines_linhas_de_texto (s : str) :
  Forall (fun l => sem_lf l = true /\ strip l <> []) (_split_lines s).
Proof.
  unfold _split_lines. apply Forall_forall. intros l Hin.
  apply filter_In in Hin as [Hin Hnb]. split.
  - pose proof (split_lf_acc_sem_lf (replace_crlf s) [] eq_refl) as Hall.
    rewrite Forall_forall in Hall. now apply Hall.
  - intros Hs. rewrite Hs in Hnb. discriminate.
Qed.

Lemma split_lf_acc_line (l rest cur : str) :
  sem_lf l = true ->
  split_lf_acc cur (l ++ LF :: rest) = (rev cur ++ l) :: split_lf_acc [] rest.
Proof.
  revert cur. induction l as [| c l IH]; intros cur Hl.
  - cbn. now rewrite app_nil_r.
  - unfold sem_lf in Hl. cbn [forallb] in Hl.
    apply andb_true_iff in Hl as [Hc Hl]. apply negb_true_iff in Hc.
    cbn [app split_lf_acc]. rewrite Hc, (IH (c :: cur) Hl).
    cbn [rev]. now rewrite <- app_assoc.
Qed.

Lemma split_lf_juntar (ls : list str) :
  Forall (fun l => sem_lf l = true) ls ->
  split_lf (juntar [LF] ls) = ls ++ [[]].
Proof.
  unfold split_lf. induction 1 as [| l ls Hl Hls IH]; [reflexivity |].
  cbn [juntar flat_map]. rewrite <- app_assoc. cbn [app].
  rewrite (split_lf_acc_line l _ [] Hl). cbn [rev app].
  unfold juntar in IH. now rewrite IH.
Qed.

Lemma replace_crlf_cons2 (c d : ascii) (t : str) :
  replace_crlf (c :: d :: t)
  = if Ascii.eqb c CR && Ascii.eqb d LF then LF :: replace_crlf t
    else c :: replace_crlf (d :: t).
Proof. reflexivity. Qed.

(** [replace] leaves a line and its line feed alone unless the line ends
    with a carriage return. *)
Lemma replace_crlf_lf (l rest : str) :
  sem_lf l = true -> termina_em_cr l = false ->
  replace_crlf (l ++ LF :: rest) = l ++ replace_crlf (LF :: rest).
Proof.
  induction l as [| c l IH]; intros Hl Hcr; [reflexivity |].
  unfold sem_lf in Hl. cbn [forallb] in Hl.
  apply andb_true_iff in Hl as [Hc Hl]. apply negb_true_iff in Hc.
  destruct l as [| d l].
  - assert (Hne : Ascii.eqb c CR = false) by exact Hcr.
    change ([c] ++ LF :: rest) with (c :: LF :: rest).
    rewrite replace_crlf_cons2, Hne. reflexivity.
  - assert (Hd : Ascii.eqb d LF = false).
    { unfold sem_lf in Hl. cbn [forallb] in Hl.
      apply andb_true_iff in Hl as [Hd _]. now apply negb_true_iff in Hd. }
    assert (Hcr' : termina_em_cr (d :: l) = false).
    { unfold termina_em_cr in *. cbn [rev] in *.
      destruct (rev l ++ [d]) eqn:E; [now destruct (rev l) |].
      cbn [app] in Hcr. exact Hcr. }
    change ((c :: d :: l) ++ LF :: rest) with (c :: d :: (l ++ LF :: rest)).
    rewrite replace_crlf_cons2, Hd, andb_false_r.
    change (d :: l ++ LF :: rest) with ((d :: l) ++ LF :: rest).
    now rewrite (IH Hl Hcr').
Qed.

Lemma replace_crlf_lf_head (rest : str) :
  replace_crlf (LF :: rest) = LF :: replace_crlf rest.
Proof. destruct rest; reflexivity. Qed.

Lemma replace_crlf_crlf (l rest : str) :
  sem_lf l = true ->
  replace_crlf (l ++ CR :: LF :: rest) = l ++ LF :: replace_crlf rest.
Proof.
  induction l as [| c l IH]; intros Hl; [reflexivity |].
  unfold sem_lf in Hl. cbn [forallb] in Hl.
  apply andb_true_iff in Hl as [Hc Hl].
  assert (Hnext : exists d t, l ++ CR :: LF :: rest = d :: t
                              /\ Ascii.eqb d LF = false).
  { destruct l as [| d l]; [exists CR, (LF :: rest); auto |].
    exists d, (l ++ CR :: LF :: rest). split; [reflexivity |].
    unfold sem_lf in Hl. cbn [forallb] in Hl.
    apply andb_true_iff in Hl as [Hd _]. now apply negb_true_iff in Hd. }
  destruct Hnext as (d & t & Heq & Hd).
  cbn [app]. rewrite <- (IH Hl), Heq, replace_crlf_cons2.
  now rewrite Hd, andb_false_r.
Qed.

Lemma replace_crlf_juntar_lf (ls : list str) :
  Forall (fun l => sem_lf l = true /\ termina_em_cr l = false) ls ->
  replace_crlf (juntar [LF] ls) = juntar [LF] ls.
Proof.
  induction 1 as [| l ls [Hl Hcr] Hls IH]; [reflexivity |].
  cbn [juntar flat_map]. rewrite <- app_assoc. cbn [app].
  rewrite (replace_crlf_lf l _ Hl Hcr), replace_crlf_lf_head.
  unfold juntar in IH. now rewrite IH.
Qed.

Lemma replace_crlf_juntar_crlf (ls : list str) :
  Forall (fun l => sem_lf l = true) ls ->
  replace_crlf (juntar [CR; LF] ls) = juntar [LF] ls.
Proof.
  induction 1 as [| l ls Hl Hls IH]; [reflexivity |].
  cbn [juntar flat_map]. rewrite <- !app_assoc. cbn [app].
  rewrite (replace_crlf_crlf l _ Hl).
  unfold juntar in IH. now rewrite IH.
Qed.

Lemma filter_nao_brancas (ls : list str) :
  Forall (fun l => strip l <> []) ls ->
  filter (fun ln => negb (Nat.eqb (length (strip ln)) 0)) (ls ++ [[]]) = ls.
Proof.
  induction 1 as [| l ls Hl Hls IH]; [reflexivity |].
  cbn [app filter]. destruct (strip l) eqn:E; [contradiction |].
  cbn. now rewrite IH.
Qed.

(** X2.  A text written as lines that contain no line feed and are not
    blank, each followed by CR LF, is split back into exactly those
    lines; with a bare LF after each line the same holds provided no line
    ends with a carriage return (which would be taken for half of a
    CR LF). *)
Theorem split_lines_juntar (ls : list str) :
  Forall (fun l => sem_lf l = true /\ strip l <> []) ls ->
  _split_lines (juntar [CR; LF] ls) = ls /\
  (Forall (fun l => termina_em_cr l = false) ls ->
   _split_lines (juntar [LF] ls) = ls).
Proof.
  intros H.
  assert (Hlf : Forall (fun l => sem_lf l = true) ls)
    by (eapply Forall_impl; [| exact H]; now intros l [? _]).
  assert (Hnb : Forall (fun l => strip l <> []) ls)
    by (eapply Forall_impl; [| exact H]; now intros l [_ ?]).
  unfold _split_lines. split.
  - rewrite (replace_crlf_juntar_crlf ls Hlf), (split_lf_juntar ls Hlf).
    now apply filter_nao_brancas.
  - intros Hcr. rewrite replace_crlf_juntar_lf.
    + rewrite (split_lf_juntar ls Hlf). now apply filter_nao_brancas.
    + apply Forall_forall. intros l Hin. rewrite Forall_forall in Hlf, Hcr.
      auto.
Qed.

Lemma split_lines_juntar_witness :
  Forall (fun l => sem_lf l = true /\ strip l <> [])
    [Exemplos.compacta_1; Exemplos.compacta_2] /\
  _split_lines (juntar [CR; LF] [Exemplos.compacta_1; Exemplos.compacta_2])
  = [Exemplos.compacta_1; Exemplos.compacta_2].
Proof.
  assert (H : Forall (fun l => sem_lf l = true /\ strip l <> [])
                [Exemplos.compacta_1; Exemplos.compacta_2])
    by (repeat constructor; vm_compute; discriminate).
  split; [exact H |].
  exact (proj1 (split_lines_juntar _ H)).
Defined.

(** A line that ends with a carriage return loses it when the file is
    written with bare line feeds. *)
Example split_lines_cr_lost :
  _split_lines (juntar [LF] [lit "a" ++ [CR]]) = [lit "a"].
Proof. vm_compute. reflexivity. Qed.

(* ===================================================================== *)
(** * Further properties: column slices                                  *)
(* ===================================================================== *)

Lemma firstn_add_skipn {A} (k m : nat) (l : list A) :
  firstn k l ++ firstn m (skipn k l) = firstn (k + m) l.
Proof.
  revert l. induction k as [| k IH]; intros l; [reflexivity |].
  destruct l as [| x l]; [now rewrite !firstn_nil |].
  cbn [firstn skipn Nat.add app]. now rewrite IH.
Qed.

Lemma columns_tiling (line : str) (a b c : nat) :
  (1 <= a)%nat -> (a <= S b)%nat -> (b <= c)%nat ->
  columns line a b ++ columns line (S b) c = columns line a c.
Proof.
  intros Ha Hab Hbc. unfold columns.
  replace (S b - 1)%nat with ((b - (a - 1)) + (a - 1))%nat by lia.
  rewrite <- skipn_skipn.
  replace (c - (b - (a - 1) + (a - 1)))%nat with (c - b)%nat by lia.
  rewrite firstn_add_skipn. f_equal. lia.
Qed.

(** X3.  [_slice] with a first column of at least 1 returns the columns
    [a..b] that exist: exactly [b - a + 1] characters when the line is
    long enough, fewer (never an error) when it is not; adjacent ranges
    concatenate to the enclosing range.  Column 0 does not extend a range
    to the left: it denotes the last character of the line. *)
Theorem slice_columns_tiling (line : str) (a b c : nat) :
  (1 <= a)%nat -> (a <= S b)%nat -> (b <= c)%nat ->
  _slice line (Z.of_nat a) (Z.of_nat b) = columns line a b /\
  length (_slice line (Z.of_nat a) (Z.of_nat b))
  = (Nat.min b (length line) - Nat.min (a - 1) (length line))%nat /\
  ((b <= length line)%nat ->
   length (_slice line (Z.of_nat a) (Z.of_nat b)) = (S b - a)%nat) /\
  _slice line (Z.of_nat a) (Z.of_nat b)
  ++ _slice line (Z.of_nat (S b)) (Z.of_nat c)
  = _slice line (Z.of_nat a) (Z.of_nat c) /\
  (line <> [] ->
   _slice line 0 (Z.of_nat b)
   = if Nat.leb (length line) b then skipn (length line - 1) line else []).
Proof.
  intros Ha Hab Hbc.
  rewrite !_slice_columns by lia.
  split; [reflexivity |].
  assert (Hlen : length (columns line a b)
                 = (Nat.min b (length line) - Nat.min (a - 1) (length line))%nat)
    by (unfold columns; rewrite length_firstn, length_skipn; lia).
  split; [exact Hlen |]. split; [intros Hb; rewrite Hlen; lia |].
  split; [now apply columns_tiling |].
  intros Hne. unfold _slice, slice.
  assert (Hpos : (1 <= length line)%nat) by (destruct line; [easy | cbn; lia]).
  assert (Hm : clamp (length line) (0 - 1) = (length line - 1)%nat).
  { unfold clamp. change (0 - 1)%Z with (-1)%Z.
    destruct (Z.ltb_spec (-1) 0); lia. }
  rewrite Hm, clamp_of_nat.
  destruct (Nat.leb_spec (length line) b) as [Hle | Hgt].
  - replace (Nat.min b (length line)) with (length line) by lia.
    apply firstn_all2. rewrite length_skipn. lia.
  - replace (Nat.min b (length line) - (length line - 1))%nat with 0%nat by lia.
    reflexivity.
Qed.

Lemma slice_columns_tiling_witness :
  (1 <= 11)%nat /\ (11 <= S 18)%nat /\ (18 <= 22)%nat /\
  _slice Exemplos.compacta_1 11 18 ++ _slice Exemplos.compacta_1 19 22
  = _slice Exemplos.compacta_1 11 22.
Proof.
  assert (H1 : (1 <= 11)%nat) by lia.
  assert (H2 : (11 <= S 18)%nat) by lia.
  assert (H3 : (18 <= 22)%nat) by lia.
  split; [exact H1 |]. split; [exact H2 |]. split; [exact H3 |].
  exact (proj1 (proj2 (proj2 (proj2
           (slice_columns_tiling Exemplos.compacta_1 11 18 22 H1 H2 H3))))).
Defined.

(* ===================================================================== *)
(** * Further properties: dates and timestamps as text                   *)
(* ===================================================================== *)

Lemma match_decimals_inv (k : nat) (s r : str) :
  match_decimals k s = Some r ->
  exists ds, s = ds ++ r /\ decimais k ds = true.
Proof.
  revert s. induction k as [| k IH]; intros s H.
  - injection H as <-. now exists [].
  - destruct s as [| c s]; [discriminate |]. cbn [match_decimals] in H.
    destruct (isdecimal c) eqn:Ec; [| discriminate].
    apply IH in H as (ds & -> & Hd). exists (c :: ds). split; [reflexivity |].
    unfold decimais in *. cbn [length forallb Nat.eqb]. now rewrite Ec.
Qed.

Lemma match_decimals_app (k : nat) (ds r : str) :
  decimais k ds = true -> match_decimals k (ds ++ r) = Some r.
Proof.
  unfold decimais. revert ds. induction k as [| k IH]; intros [| c ds] H;
    cbn [length Nat.eqb andb] in H; try discriminate; [reflexivity |].
  cbn [forallb] in H. apply andb_true_iff in H as [Hl H].
  apply andb_true_iff in H as [Hc H].
  cbn [app match_decimals]. rewrite Hc. apply IH. now rewrite Hl, H.
Qed.

Lemma match_lit_inv (l : string) (s r : str) :
  match_lit l s = Some r -> s = lit l ++ r.
Proof.
  unfold match_lit.
  destruct (str_eqb (firstn (length (lit l)) s) (lit l)) eqn:E; [| discriminate].
  intros [= <-]. apply str_eqb_eq in E. rewrite <- E at 1.
  symmetry. apply firstn_skipn.
Qed.

Lemma match_lit_app (l : string) (r : str) :
  match_lit l (lit l ++ r) = Some r.
Proof.
  unfold match_lit.
  rewrite firstn_app, Nat.sub_diag, firstn_all, firstn_O, app_nil_r.
  rewrite (proj2 (str_eqb_eq _ _) eq_refl).
  rewrite skipn_app, Nat.sub_diag, skipn_all. reflexivity.
Qed.

Lemma match_char_inv (p : ascii -> bool) (s r : str) :
  match_char p s = Some r -> exists c, s = c :: r /\ p c = true.
Proof.
  destruct s as [| c s]; [discriminate |]. cbn [match_char].
  destruct (p c) eqn:E; [| discriminate]. intros [= <-]. now exists c.
Qed.

Ltac and_then_inv H :=
  repeat match type of H with
    | match and_then ?m _ with _ => _ end = true =>
        let E := fresh "E" in
        destruct m eqn:E; cbn [and_then] in H; [| discriminate H]
    | match match_decimals ?k ?s with _ => _ end = true =>
        let E := fresh "E" in
        destruct (match_decimals k s) eqn:E; [| discriminate H]
    end.

(** The texts [_is_iso_dh] accepts are exactly those of the shape
    [AAAA-MM-DDTHH:MM:00sZZZZ] with decimal digits [0-9] in the digit
    fields and [s] a plus or minus sign. *)
Lemma _is_iso_dh_iff (s : str) :
  _is_iso_dh s = true <->
  exists y m d h n sg z,
    s = iso_dh y m d h n sg z /\
    decimais 4 y = true /\ decimais 2 m = true /\ decimais 2 d = true /\
    decimais 2 h = true /\ decimais 2 n = true /\ is_sign sg = true /\
    decimais 4 z = true.
Proof.
  split.
  - unfold _is_iso_dh. intros H. and_then_inv H.
    match type of H with match ?o with _ => _ end = true =>
      destruct o as [| ? ?]; [| discriminate H] end.
    repeat match goal with
      | E : match_decimals _ _ = Some _ |- _ =>
          apply match_decimals_inv in E as (? & -> & ?)
      | E : match_lit _ _ = Some _ |- _ => apply match_lit_inv in E as ->
      | E : match_char _ _ = Some _ |- _ =>
          apply match_char_inv in E as (? & -> & ?)
      end.
    do 7 eexists. split; [unfold iso_dh; rewrite app_nil_r; reflexivity |].
    repeat split; assumption.
  - intros (y & m & d & h & n & sg & z & -> & Hy & Hm & Hd & Hh & Hn & Hs & Hz).
    unfold _is_iso_dh, iso_dh.
    rewrite (match_decimals_app 4 y _ Hy). cbn [and_then].
    rewrite match_lit_app. cbn [and_then].
    rewrite (match_decimals_app 2 m _ Hm). cbn [and_then].
    rewrite match_lit_app. cbn [and_then].
    rewrite (match_decimals_app 2 d _ Hd). cbn [and_then].
    rewrite match_lit_app. cbn [and_then].
    rewrite (match_decimals_app 2 h _ Hh). cbn [and_then].
    rewrite match_lit_app. cbn [and_then].
    rewrite (match_decimals_app 2 n _ Hn). cbn [and_then].
    rewrite match_lit_app. cbn [and_then match_char]. rewrite Hs.
    cbn [and_then]. rewrite <- (app_nil_r z).
    now rewrite (match_decimals_app 4 z _ Hz).
Qed.

Lemma _is_iso_d_iff (s : str) :
  _is_iso_d s = true <->
  exists y m d,
    s = iso_d y m d /\
    decimais 4 y = true /\ decimais 2 m = true /\ decimais 2 d = true.
Proof.
  split.
  - unfold _is_iso_d. intros H. and_then_inv H.
    match type of H with match ?o with _ => _ end = true =>
      destruct o as [| ? ?]; [| discriminate H] end.
    repeat match goal with
      | E : match_decimals _ _ = Some _ |- _ =>
          apply match_decimals_inv in E as (? & -> & ?)
      | E : match_lit _ _ = Some _ |- _ => apply match_lit_inv in E as ->
      end.
    do 3 eexists. split; [unfold iso_d; rewrite app_nil_r; reflexivity |].
    repeat split; assumption.
  - intros (y & m & d & -> & Hy & Hm & Hd).
    unfold _is_iso_d, iso_d.
    rewrite (match_decimals_app 4 y _ Hy). cbn [and_then].
    rewrite match_lit_app. cbn [and_then].
    rewrite (match_decimals_app 2 m _ Hm). cbn [and_then].
    rewrite match_lit_app. cbn [and_then].
    rewrite <- (app_nil_r d).
    now rewrite (match_decimals_app 2 d _ Hd).
Qed.

Section IsoTexto.
Local Opaque isdecimal.

Ltac decimal_cases :=
  repeat (match goal with
          | |- context [isdecimal ?c] => destruct (isdecimal c) eqn:?
          end; cbn; rewrite ?andb_false_r; try reflexivity).

Lemma _is_iso_d_data_iso (d : str) :
  length d = 8%nat -> _is_iso_d (data_iso d) = forallb isdecimal d.
Proof.
  intros Hd. explode_list Hd. unfold _is_iso_d. cbn. decimal_cases.
Qed.

Lemma _is_iso_dh_carimbo (d h : str) :
  length d = 8%nat -> length h = 4%nat ->
  _is_iso_dh (carimbo d h) = forallb isdecimal (d ++ h).
Proof.
  intros Hd Hh. explode_list Hd. explode_list Hh. unfold _is_iso_dh. cbn.
  decimal_cases.
Qed.

End IsoTexto.

Lemma carimbo_length (d h : str) :
  length d = 8%nat -> length h = 4%nat -> length (carimbo d h) = 24%nat.
Proof. intros Hd Hh. explode_list Hd. explode_list Hh. reflexivity. Qed.

(** X4.  When [_ddmmaaaa_to_iso] returns a text it has ten characters and
    the argument is recovered from its columns 9-10, 6-7 and 1-4, so the
    conversion loses nothing; the text has the shape [_is_iso_d] accepts
    exactly when the eight characters are the ASCII digits [0-9].
    Likewise a result of [_hhmm_to_hhmm] has five characters and the
    argument is its columns 1-2 and 4-5. *)
Theorem data_hora_round_trip (d iso h hh : str) :
  (_ddmmaaaa_to_iso d = Some iso ->
   length iso = 10%nat /\
   columns iso 9 10 ++ columns iso 6 7 ++ columns iso 1 4 = d /\
   _is_iso_d iso = forallb isdecimal d) /\
  (_hhmm_to_hhmm h = Some hh ->
   length hh = 5%nat /\ columns hh 1 2 ++ columns hh 4 5 = h).
Proof.
  split.
  - intros H. apply _ddmmaaaa_to_iso_inv in H as (Hl & _ & ->).
    split; [| split].
    + explode_list Hl. reflexivity.
    + explode_list Hl. reflexivity.
    + now apply _is_iso_d_data_iso.
  - intros H. apply _hhmm_to_hhmm_inv in H as (Hl & _ & ->).
    explode_list Hl. split; reflexivity.
Qed.

Lemma data_hora_round_trip_witness :
  _ddmmaaaa_to_iso (lit "16072025") = Some (lit "2025-07-16") /\
  _is_iso_d (lit "2025-07-16") = forallb isdecimal (lit "16072025").
Proof.
  assert (H : _ddmmaaaa_to_iso (lit "16072025") = Some (lit "2025-07-16"))
    by reflexivity.
  split; [exact H |].
  exact (proj2 (proj2 (proj1
    (data_hora_round_trip (lit "16072025") (lit "2025-07-16") [] []) H))).
Defined.

(** X5.  The timestamp of a record parsed by the compact layout has 24
    characters and ends in [:00-0300]; it has the shape the official
    layout requires of its timestamp ([_is_iso_dh]) exactly when columns
    11-22 of the line are ASCII digits [0-9]. *)
Theorem compacto_carimbo_iso (line : str) (r : Registro3) :
  parse_registro3_compacto line = Ok r ->
  length (dh_marcacao r) = 24%nat /\
  skipn 16 (dh_marcacao r) = lit ":00-0300" /\
  _is_iso_dh (dh_marcacao r) = forallb isdecimal (columns line 11 22).
Proof.
  intros H. apply parse_registro3_compacto_inv in H
    as (Hlen & _ & _ & n & c & _ & _ & ->).
  cbn [dh_marcacao].
  assert (Hl8 : length (columns line 11 18) = 8%nat)
    by (rewrite columns_length by lia; reflexivity).
  assert (Hl4 : length (columns line 19 22) = 4%nat)
    by (rewrite columns_length by lia; reflexivity).
  split; [now apply carimbo_length |]. split.
  - generalize dependent (columns line 19 22).
    generalize dependent (columns line 11 18). intros d Hd h Hh.
    explode_list Hd. explode_list Hh. reflexivity.
  - rewrite (_is_iso_dh_carimbo _ _ Hl8 Hl4). f_equal.
    apply (columns_tiling line 11 18 22); lia.
Qed.

Lemma compacto_carimbo_iso_witness :
  exists r, parse_registro3_compacto Exemplos.compacta_1 = Ok r /\
    _is_iso_dh (dh_marcacao r)
    = forallb isdecimal (columns Exemplos.compacta_1 11 22).
Proof.
  eexists. split; [reflexivity |].
  exact (proj2 (proj2
    (compacto_carimbo_iso Exemplos.compacta_1 _ eq_refl))).
Defined.

(* ===================================================================== *)
(** * Further properties: the two layouts of a type-3 line               *)
(* ===================================================================== *)

Lemma lstrip_suffix (s : str) :
  exists p, s = p ++ lstrip s /\ forallb isspace p = true.
Proof.
  induction s as [| c s (p & Hs & Hp)]; [now exists [] |].
  cbn [lstrip]. destruct (isspace c) eqn:Ec.
  - exists (c :: p). cbn [app forallb]. rewrite Ec, Hp. now rewrite <- Hs.
  - now exists [].
Qed.

Lemma lstrip_head (s : str) (c : ascii) (t : str) :
  lstrip s = c :: t -> isspace c = false.
Proof.
  induction s as [| x s IH]; [discriminate |]. cbn [lstrip].
  destruct (isspace x) eqn:Ex; [exact IH |]. now intros [= <- _].
Qed.

Lemma lstrip_length (s : str) : (length (lstrip s) <= length s)%nat.
Proof.
  destruct (lstrip_suffix s) as (p & Hs & _).
  rewrite Hs at 2. rewrite length_app. lia.
Qed.

Lemma strip_length (s : str) : (length (strip s) <= length s)%nat.
Proof.
  unfold strip, rstrip. rewrite length_rev.
  etransitivity; [apply lstrip_length |]. rewrite length_rev.
  apply lstrip_length.
Qed.

(** A stripped text is empty or has no white space at either end. *)
Lemma strip_aparado (s : str) : aparado (strip s) = true.
Proof.
  unfold strip. destruct (lstrip s) as [| c u] eqn:Eu; [reflexivity |].
  pose proof (lstrip_head _ _ _ Eu) as Hc.
  unfold rstrip.
  destruct (lstrip_suffix (rev (c :: u))) as (p & Hs & Hp).
  destruct (lstrip (rev (c :: u))) as [| x w] eqn:Ew.
  - rewrite app_nil_r in Hs. exfalso.
    assert (Hin : In c p) by (rewrite <- Hs, <- in_rev; now left).
    rewrite forallb_forall in Hp. specialize (Hp c Hin). congruence.
  - pose proof (lstrip_head _ _ _ Ew) as Hx.
    apply (f_equal (@rev ascii)) in Hs.
    rewrite rev_involutive, rev_app_distr in Hs.
    cbn [rev] in *.
    destruct (rev w ++ [x]) as [| y t] eqn:Ey;
      [now destruct (rev w) |].
    cbn [app] in Hs. injection Hs as <- Hu.
    cbn [aparado]. rewrite Hc. cbn [negb andb].
    assert (Hl : last (c :: t) c = x).
    { rewrite <- Ey. apply last_last. }
    destruct t as [| t0 t]; cbn [last] in *; [now rewrite Hl, Hx |].
    now rewrite Hl, Hx.
Qed.

Lemma aparado_strip (s : str) : aparado s = true -> strip s = s.
Proof.
  destruct s as [| c t]; [reflexivity |]. cbn [aparado].
  intros H. apply andb_true_iff in H as [Hc Hl].
  apply negb_true_iff in Hc, Hl. apply strip_id; [exact Hc |].
  destruct t; [exact Hc | exact Hl].
Qed.

Lemma strip_idem (s : str) : strip (strip s) = strip s.
Proof. apply aparado_strip, strip_aparado. Qed.

Lemma iso_dh_length (y m d h n : str) (sg : ascii) (z : str) :
  decimais 4 y = true -> decimais 2 m = true -> decimais 2 d = true ->
  decimais 2 h = true -> decimais 2 n = true -> decimais 4 z = true ->
  length (iso_dh y m d h n sg z) = 24%nat.
Proof.
  unfold decimais, iso_dh. intros Hy Hm Hd Hh Hn Hz.
  repeat match goal with
    | H : _ && _ = true |- _ =>
        apply andb_true_iff in H as [H _]; apply Nat.eqb_eq in H
    end.
  rewrite !length_app. cbn [length lit list_ascii_of_string]. lia.
Qed.

Lemma _is_iso_dh_length (s : str) : _is_iso_dh s = true -> length s = 24%nat.
Proof.
  intros H. apply _is_iso_dh_iff in H
    as (y & m & d & h & n & sg & z & -> & Hy & Hm & Hd & Hh & Hn & _ & Hz).
  now apply iso_dh_length.
Qed.

Lemma isdigit_char_hyphen : isdigit_char "-" = false.
Proof. reflexivity. Qed.

(** The first eight characters of an accepted timestamp are not all
    digits: the fifth is a hyphen. *)
Lemma _is_iso_dh_firstn_8 (s : str) :
  _is_iso_dh s = true -> isdigit (firstn 8 s) = false.
Proof.
  intros H. apply _is_iso_dh_iff in H
    as (y & m & d & h & n & sg & z & -> & Hy & _).
  unfold decimais in Hy. apply andb_true_iff in Hy as [Hy _].
  apply Nat.eqb_eq in Hy. explode_list Hy.
  unfold iso_dh. cbn [app firstn lit list_ascii_of_string isdigit forallb].
  rewrite isdigit_char_hyphen. cbn [andb]. now rewrite !andb_false_r.
Qed.

Lemma _slice_columns_lit (line : str) (a b : nat) (za zb : Z) :
  za = Z.of_nat a -> zb = Z.of_nat b -> (1 <= a)%nat ->
  _slice line za zb = columns line a b.
Proof. intros -> ->. apply _slice_columns. Qed.

(** Rewrite [_slice line a b], with literal columns, into [columns]. *)
Ltac _slice_cols line a b :=
  let za := eval compute in (Z.of_nat a) in
  let zb := eval compute in (Z.of_nat b) in
  rewrite (_slice_columns_lit line a b za zb eq_refl eq_refl) in * by lia.

(** X6.  No line is accepted by both layouts of type 3: when the official
    parser returns a record the compact parser rejects the same line with
    its date/time error, because column 15 is a hyphen of the timestamp
    and cannot be a digit of a [DDMMAAAA] date. *)
Theorem oficial_exclui_compacto (line : str) (r : Registro3) :
  parse_registro3_oficial line = Ok r ->
  parse_registro3_compacto line
  = Raise (ValueError_data_hora (columns line 11 18) (columns line 19 22)).
Proof.
  intros H. apply parse_registro3_oficial_inv in H
    as (Hlen & Hiso & n & Hn & _).
  _slice_cols line 11%nat 34%nat.
  change (_slice line 1 9) with (slice line 0 9) in Hn.
  apply _is_iso_dh_firstn_8 in Hiso.
  assert (Hd : isdigit (columns line 11 18) = false).
  { unfold columns in *. rewrite firstn_firstn in Hiso. exact Hiso. }
  unfold parse_registro3_compacto, char_at, index.
  slice_cols line 10%nat 18%nat. slice_cols line 18%nat 22%nat.
  slice_cols line 22%nat 34%nat.
  assert (Hl : (34 <= length line)%nat) by lia.
  apply (require_len_ok "Tipo 3 compacto") in Hl. rewrite Hl. cbn [bind].
  unfold to_int. rewrite Hn. cbn [bind].
  destruct (nth_error line 9) as [c |] eqn:Ec;
    [| apply nth_error_None in Ec; lia].
  cbn [bind]. unfold _ddmmaaaa_to_iso, _is_digits. rewrite Hd.
  rewrite andb_false_r. reflexivity.
Qed.

Lemma oficial_exclui_compacto_witness :
  exists r, parse_registro3_oficial Exemplos.oficial_1 = Ok r /\
    parse_registro3_compacto Exemplos.oficial_1
    = Raise (ValueError_data_hora (columns Exemplos.oficial_1 11 18)
                                  (columns Exemplos.oficial_1 19 22)).
Proof.
  eexists. split; [reflexivity |].
  exact (oficial_exclui_compacto Exemplos.oficial_1 _ eq_refl).
Defined.

(** X7.  Every type-3 record the interpreter keeps, under either layout,
    has a timestamp of exactly 24 characters, its type field is column 10
    of the line, and its tax ID is at most 12 characters with no white
    space at either end, so that stripping it again changes nothing.  The
    layout tag is [compacto] exactly when the record carries no checksum
    and no verification flag. *)
Theorem parse_tipo3_invariantes (line : str) (r : Registro3) :
  parse_tipo3 line = Ok r ->
  length (dh_marcacao r) = 24%nat /\
  tipo r = columns line 10 10 /\
  (length (cpf r) <= 12)%nat /\ strip (cpf r) = cpf r /\
  (fmt r = compacto <-> crc_ok r = None) /\
  (fmt r = compacto <-> crc16 r = None).
Proof.
  unfold parse_tipo3, try_fallback. intros H.
  destruct (parse_registro3_oficial line) as [r1 | e1] eqn:E1.
  - injection H as ->.
    apply parse_registro3_oficial_inv in E1 as (Hlen & Hiso & n & _ & ->).
    cbn [dh_marcacao tipo cpf fmt crc_ok crc16].
    split; [now apply _is_iso_dh_length |].
    _slice_cols line 10%nat 10%nat. _slice_cols line 35%nat 46%nat.
    _slice_cols line 11%nat 34%nat.
    split; [reflexivity |].
    split.
    { etransitivity; [apply strip_length |].
      unfold columns.
      rewrite length_firstn. lia. }
    split; [apply strip_idem |]. split; split; discriminate.
  - destruct (parse_registro3_compacto line) as [r2 | e2] eqn:E2;
      [| discriminate].
    injection H as ->.
    apply parse_registro3_compacto_inv in E2
      as (Hlen & _ & _ & n & c & _ & Hc & ->).
    cbn [dh_marcacao tipo cpf fmt crc_ok crc16].
    split.
    { apply carimbo_length; rewrite columns_length by lia; reflexivity. }
    split.
    { unfold columns. cbn [Nat.sub].
      destruct (nth_error_split line 9 Hc) as (l1 & l2 & -> & Hl1).
      explode_list Hl1. reflexivity. }
    split.
    { etransitivity; [apply strip_length |]. unfold columns.
      rewrite length_firstn. lia. }
    split; [apply strip_idem |]. split; split; reflexivity.
Qed.

Lemma parse_tipo3_invariantes_witness :
  exists r, parse_tipo3 Exemplos.oficial_1 = Ok r /\
    length (dh_marcacao r) = 24%nat /\ strip (cpf r) = cpf r.
Proof.
  eexists. split; [reflexivity |].
  pose proof (parse_tipo3_invariantes Exemplos.oficial_1 _ eq_refl)
    as (H1 & _ & _ & H2 & _).
  split; [exact H1 | exact H2].
Defined.

(* ===================================================================== *)
(** * Further properties: records accepted on length alone               *)
(* ===================================================================== *)

Lemma columns_10 (line : str) (c : ascii) :
  nth_error line 9 = Some c -> columns line 10 10 = [c].
Proof.
  intros Hc. unfold columns. cbn [Nat.sub].
  destruct (nth_error_split line 9 Hc) as (l1 & l2 & -> & Hl1).
  explode_list Hl1. reflexivity.
Qed.

Lemma _slice_10_10 (line : str) (c : ascii) :
  nth_error line 9 = Some c -> _slice line 10 10 = [c].
Proof.
  intros Hc. rewrite (_slice_columns_lit line 10 10 10%Z 10%Z) by (auto; lia).
  now apply columns_10.
Qed.

Lemma _slice_1_9 (line : str) : _slice line 1 9 = firstn 9 line.
Proof. apply slice_0_9. Qed.

(** The head of an official parser: length check, NSR, numeric type. *)
Ltac cabeca_oficial Hlen Hn Hc :=
  rewrite (proj2 (require_len_ok _ _ _) Hlen); cbn [bind];
  rewrite _slice_1_9; unfold to_int; rewrite Hn; cbn [bind];
  rewrite (_slice_10_10 _ _ Hc).

(** X8.  For a line the interpreter dispatches (NSR readable as an
    integer) whose type character is 2, 4, 5, 6 or 7, the parser of that
    type succeeds exactly when the line has at least 331, 73, 118, 36 or
    137 characters: no field of these records is validated.  The record
    then carries the line's NSR and type. *)
Theorem tipos_aceitos_pelo_tamanho (line : str) (n : Z) :
  int (firstn 9 line) = Some n ->
  (nth_error line 9 = Some "2"%char ->
   ((331 <= length line)%nat <->
    exists r, parse_registro2 line = Ok r /\ r2_nsr r = n /\ r2_tipo r = 2%Z)) /\
  (nth_error line 9 = Some "4"%char ->
   ((73 <= length line)%nat <->
    exists r, parse_registro4 line = Ok r /\ r4_nsr r = n /\ r4_tipo r = 4%Z)) /\
  (nth_error line 9 = Some "5"%char ->
   ((118 <= length line)%nat <->
    exists r, parse_registro5 line = Ok r /\ r5_nsr r = n /\ r5_tipo r = 5%Z)) /\
  (nth_error line 9 = Some "6"%char ->
   ((36 <= length line)%nat <->
    exists r, parse_registro6 line = Ok r /\ r6_nsr r = n /\ r6_tipo r = 6%Z)) /\
  (nth_error line 9 = Some "7"%char ->
   ((137 <= length line)%nat <->
    exists r, parse_registro7 line = Ok r /\ r7_nsr r = n
              /\ r7_tipo r = ["7"%char])).
Proof.
  intros Hn.
  split; [| split; [| split; [| split]]]; intros Hc; split.
  - intros Hlen. unfold parse_registro2. cabeca_oficial Hlen Hn Hc.
    eexists. split; [reflexivity |]. split; reflexivity.
  - intros (r & H & _). unfold parse_registro2 in H. bind_inv H.
    match goal with u : unit |- _ => destruct u end.
    now apply require_len_ok in E.
  - intros Hlen. unfold parse_registro4. cabeca_oficial Hlen Hn Hc.
    eexists. split; [reflexivity |]. split; reflexivity.
  - intros (r & H & _). unfold parse_registro4 in H. bind_inv H.
    match goal with u : unit |- _ => destruct u end.
    now apply require_len_ok in E.
  - intros Hlen. unfold parse_registro5. cabeca_oficial Hlen Hn Hc.
    eexists. split; [reflexivity |]. split; reflexivity.
  - intros (r & H & _). unfold parse_registro5 in H. bind_inv H.
    match goal with u : unit |- _ => destruct u end.
    now apply require_len_ok in E.
  - intros Hlen. unfold parse_registro6. cabeca_oficial Hlen Hn Hc.
    eexists. split; [reflexivity |]. split; reflexivity.
  - intros (r & H & _). unfold parse_registro6 in H. bind_inv H.
    match goal with u : unit |- _ => destruct u end.
    now apply require_len_ok in E.
  - intros Hlen. unfold parse_registro7. cabeca_oficial Hlen Hn Hc.
    eexists. split; [reflexivity |]. split; reflexivity.
  - intros (r & H & _). unfold parse_registro7 in H. bind_inv H.
    match goal with u : unit |- _ => destruct u end.
    now apply require_len_ok in E.
Qed.

Lemma tipos_aceitos_pelo_tamanho_witness :
  exists r, parse_registro6 Exemplos.evento_6 = Ok r /\ r6_nsr r = 5%Z
            /\ r6_tipo r = 6%Z.
Proof.
  apply (proj1 (proj1 (proj2 (proj2 (proj2
           (tipos_aceitos_pelo_tamanho Exemplos.evento_6 5 eq_refl))))
         eq_refl)).
  cbn. lia.
Defined.

(* ===================================================================== *)
(** * Further properties: the trailer                                    *)
(* ===================================================================== *)

Lemma digit_val_nonneg (c : ascii) : (0 <= digit_val c)%Z.
Proof. unfold digit_val. lia. Qed.

Lemma int_digits_ge_fuel (k : nat) :
  forall (s : str) (acc z : Z),
    (length s <= k)%nat -> (0 <= acc)%Z ->
    int_digits acc s = Some z -> (acc <= z)%Z.
Proof.
  induction k as [| k IH]; intros s acc z Hk Hacc H.
  - destruct s; [| cbn in Hk; lia]. injection H as <-. lia.
  - destruct s as [| c s]; [injection H as <-; lia |].
    cbn [length] in Hk. cbn [int_digits] in H.
    pose proof (digit_val_nonneg c) as Hc.
    destruct (isdecimal c).
    { apply IH in H; lia. }
    destruct (underscore c).
    { destruct s as [| d s]; [discriminate |].
      pose proof (digit_val_nonneg d) as Hd. cbn [length] in Hk.
      destruct (isdecimal d); [| discriminate].
      apply IH in H; lia. }
    destruct (int_space c); [| discriminate].
    destruct (skip_int_space s); [| discriminate].
    injection H as <-. lia.
Qed.

Lemma int_digits_ge (s : str) (acc z : Z) :
  (0 <= acc)%Z -> int_digits acc s = Some z -> (acc <= z)%Z.
Proof. apply (int_digits_ge_fuel (length s)). lia. Qed.

(** A number whose text starts with the digit 9 is at least 9. *)
Lemma int_9_ge (s : str) (z : Z) : int ("9"%char :: s) = Some z -> (9 <= z)%Z.
Proof.
  unfold int. cbn [skip_int_space].
  change (int_space "9") with false. cbv iota.
  change (ord "9" =? 43) with false. change (ord "9" =? 45) with false.
  cbv iota. cbn [int_unsigned]. change (isdecimal "9") with true. cbv iota.
  change (digit_val "9") with 9%Z. apply int_digits_ge. lia.
Qed.

Lemma ultimo_In {A} (l : list A) (d : option A) (x : A) :
  ultimo l d = Some x -> In x l \/ d = Some x.
Proof.
  revert d. induction l as [| a l IH]; intros d H; [now right |].
  unfold ultimo in *. cbn [fold_left] in H. apply IH in H as [H | H].
  - left. now right.
  - left. left. congruence.
Qed.

Lemma sucessos_inv {R} (d : string) (parse : str -> result R)
    (ls : list str) (r : R) :
  In r (sucessos d parse ls) ->
  exists line, In line ls /\ tipo_da_linha d line = true /\ parse line = Ok r.
Proof.
  unfold sucessos. intros H. apply in_flat_map in H as (line & Hin & H).
  exists line. split; [exact Hin |].
  destruct (tipo_da_linha d line); [| contradiction].
  destruct (parse line) as [r' |]; [| contradiction].
  destruct H as [-> | []]. auto.
Qed.

Lemma parse_registro9_qtd_tipo2 (line : str) (t : Registro9) :
  nth_error line 9 = Some "9"%char -> parse_registro9 line = Ok t ->
  (9 <= qtd_tipo2 t)%Z.
Proof.
  intros Hc H. unfold parse_registro9 in H. bind_inv H. subst t.
  cbn [qtd_tipo2]. apply to_int_ok in E1.
  rewrite (_slice_columns_lit line 10 18 10%Z 18%Z) in E1 by (auto; lia).
  rewrite <- (columns_tiling line 10 10 18) in E1 by lia.
  rewrite (columns_10 _ _ Hc) in E1. now apply int_9_ge in E1.
Qed.

(** X9.  A document has a trailer only if some line has the character 9
    in column 10, which is also the first character of the trailer's
    count of type-2 records: the trailer of a document always declares at
    least nine records of type 2, and [contagens_ok] can then hold only
    if bucket 2 has at least nine records. *)
Theorem trailer_declara_nove (raw : list Byte.byte) (d : documento)
    (t : Registro9) :
  interpretar_afd raw = Ok d -> d_trailer d = Some t ->
  (9 <= qtd_tipo2 t)%Z /\
  (contagens_ok (d_validacoes d) = true ->
   (9 <= length (b2 (registros_por_tipo d)))%nat).
Proof.
  intros H Ht. apply interpretar_afd_ok in H as (st & _ & _ & Hapos & _ & ->).
  cbn [montar_documento d_trailer d_validacoes contagens_ok registros_por_tipo]
    in *.
  destruct Hapos as (_ & _ & _ & _ & _ & _ & _ & Htr & _).
  rewrite Ht in Htr. symmetry in Htr.
  apply ultimo_In in Htr as [Hin | Hin]; [| discriminate].
  apply sucessos_inv in Hin as (line & _ & Hc & Hp).
  apply tipo_da_linha_char in Hc.
  pose proof (parse_registro9_qtd_tipo2 line t Hc Hp) as Hq.
  split; [exact Hq |].
  rewrite Ht. cbn [calc_contagens_ok]. intros Hok.
  repeat (apply andb_true_iff in Hok as [Hok _]).
  apply Z.eqb_eq in Hok. unfold len in Hok. lia.
Qed.

Lemma trailer_declara_nove_witness :
  exists d t, interpretar_afd Exemplos.afd_com_trailer = Ok d /\
    d_trailer d = Some t /\ (9 <= qtd_tipo2 t)%Z.
Proof.
  assert (H : exists d, interpretar_afd Exemplos.afd_com_trailer = Ok d)
    by (vm_compute; eexists; reflexivity).
  destruct H as (d & H).
  assert (Ht : exists t, d_trailer d = Some t).
  { revert H. vm_compute. intros [= <-]. eexists. reflexivity. }
  destruct Ht as (t & Ht).
  exists d, t. split; [exact H |]. split; [exact Ht |].
  exact (proj1 (trailer_declara_nove _ d t H Ht)).
Defined.

(* ===================================================================== *)
(** * Further properties: every line is accounted for                    *)
(* ===================================================================== *)

Lemma registros_contados_cons (line : str) (ls : list str) :
  (registros_contados (line :: ls) + length (diagnosticos (line :: ls))
   = (registros_contados [line] + length (diagnosticos [line]))
     + (registros_contados ls + length (diagnosticos ls)))%nat.
Proof.
  unfold registros_contados.
  rewrite (sucessos_cons "1"), (sucessos_cons "2"), (sucessos_cons "3"),
    (sucessos_cons "4"), (sucessos_cons "5"), (sucessos_cons "6"),
    (sucessos_cons "7"), (sucessos_cons "9"), diagnosticos_cons.
  rewrite !length_app. lia.
Qed.

(** A line with a tenth character yields one record or one diagnostic. *)
Lemma uma_linha_um_efeito (line : str) :
  (10 <= length line)%nat ->
  (registros_contados [line] + length (diagnosticos [line]) = 1)%nat.
Proof.
  intros Hlen.
  destruct (nth_error line 9) as [c |] eqn:Ec;
    [| apply nth_error_None in Ec; lia].
  unfold registros_contados, sucessos, diagnosticos, tipo_da_linha,
    efeito_da_linha.
  cbn [flat_map]. rewrite Ec, !is_tipo_eqb, !app_nil_r.
  repeat match goal with
    | |- context [Ascii.eqb c ?d] =>
        destruct (Ascii.eqb_spec c d) as [-> | ?]; cbn
    end;
  repeat match goal with
    | |- context [efeito_de _ _ _ ?p] => destruct p; cbn
    end; reflexivity.
Qed.

Lemma linhas_efeitos (ls : list str) :
  Forall (fun line => (10 <= length line)%nat) ls ->
  (registros_contados ls + length (diagnosticos ls) = length ls)%nat.
Proof.
  induction 1 as [| line ls Hl _ IH]; [reflexivity |].
  rewrite registros_contados_cons, IH, (uma_linha_um_efeito line Hl).
  reflexivity.
Qed.

Lemma filter_partition_length {A} (f : A -> bool) (l : list A) :
  (length (filter f l) + length (filter (fun x => negb (f x)) l)
   = length l)%nat.
Proof.
  induction l as [| x l IH]; [reflexivity |]. cbn [filter].
  destruct (f x); cbn [negb length]; lia.
Qed.

(** X10.  When a document is returned every non-blank line of the file is
    accounted for exactly once: as a record in one of the six buckets, as
    a parsed header or trailer line, as a structural error, or as a parse
    diagnostic.  No line is dropped silently and none is counted twice. *)
Theorem linhas_contabilizadas (raw : list Byte.byte) (d : documento) :
  interpretar_afd raw = Ok d ->
  let ls := linhas_classificaveis raw in
  let b := registros_por_tipo d in
  (length (linhas raw)
   = length (b2 b) + length (b3 b) + length (b4 b) + length (b5 b)
     + length (b6 b) + length (b7 b)
     + length (sucessos "1" parse_tipo1 ls)
     + length (sucessos "9" parse_registro9 ls)
     + length (erros_estruturais raw) + length (diagnosticos ls))%nat.
Proof.
  intros H ls b. subst b. rewrite (registros_por_tipo_linhas raw d H).
  fold ls. cbn [registros_das_linhas b2 b3 b4 b5 b6 b7].
  assert (Hls : (registros_contados ls + length (diagnosticos ls)
                 = length ls)%nat).
  { apply linhas_efeitos. apply Forall_forall. intros line Hin.
    apply filter_In in Hin as [_ Hc]. now apply classificavel_len. }
  pose proof (filter_partition_length classificavel (linhas raw)) as Hp.
  fold (linhas_classificaveis raw) in Hp. fold ls in Hp.
  unfold erros_estruturais. rewrite length_map.
  unfold registros_contados in Hls. lia.
Qed.

Lemma linhas_contabilizadas_witness :
  exists d, interpretar_afd Exemplos.afd_com_trailer_padrao = Ok d /\
    (length (linhas Exemplos.afd_com_trailer_padrao)
     = length (b2 (registros_por_tipo d)) + length (b3 (registros_por_tipo d))
       + length (b4 (registros_por_tipo d)) + length (b5 (registros_por_tipo d))
       + length (b6 (registros_por_tipo d)) + length (b7 (registros_por_tipo d))
       + length (sucessos "1" parse_tipo1
                   (linhas_classificaveis Exemplos.afd_com_trailer_padrao))
       + length (sucessos "9" parse_registro9
                   (linhas_classificaveis Exemplos.afd_com_trailer_padrao))
       + length (erros_estruturais Exemplos.afd_com_trailer_padrao)
       + length (diagnosticos
                   (linhas_classificaveis Exemplos.afd_com_trailer_padrao)))%nat.
Proof.
  assert (H : exists d, interpretar_afd Exemplos.afd_com_trailer_padrao = Ok d)
    by (vm_compute; eexists; reflexivity).
  destruct H as (d & H). exists d. split; [exact H |].
  exact (linhas_contabilizadas _ d H).
Defined.

(** X11.  The error list of a document is the first 200 entries of the
    structural errors, in file order, followed by the parse diagnostics,
    in file order: a structural error of a late line precedes the parse
    diagnostic of an earlier one, and nothing is cut when there are at
    most 200 errors in all. *)
Theorem erros_em_duas_passagens (raw : list Byte.byte) (d : documento) :
  interpretar_afd raw = Ok d ->
  let es := erros_estruturais raw in
  let ds := diagnosticos (linhas_classificaveis raw) in
  v_erros (d_validacoes d) = firstn 200 (es ++ ds) /\
  ((length es + length ds <= 200)%nat -> v_erros (d_validacoes d) = es ++ ds) /\
  ((200 <= length es)%nat -> v_erros (d_validacoes d) = firstn 200 es).
Proof.
  intros H es ds.
  apply interpretar_afd_ok in H as (st & _ & _ & Hapos & _ & ->).
  destruct Hapos as (_ & _ & _ & _ & _ & _ & _ & _ & He & _).
  cbn [montar_documento d_validacoes v_erros]. rewrite He.
  cbn [estado_inicial erros]. fold es ds.
  split; [reflexivity |]. split.
  - intros Hle. apply firstn_all2. rewrite length_app. lia.
  - intros Hge. rewrite firstn_app.
    replace (200 - length es)%nat with 0%nat by lia.
    now rewrite firstn_O, app_nil_r.
Qed.

Lemma erros_em_duas_passagens_witness :
  exists d, interpretar_afd Exemplos.afd_com_trailer_padrao = Ok d /\
    v_erros (d_validacoes d)
    = firstn 200 (erros_estruturais Exemplos.afd_com_trailer_padrao
                  ++ diagnosticos
                       (linhas_classificaveis Exemplos.afd_com_trailer_padrao)).
Proof.
  assert (H : exists d, interpretar_afd Exemplos.afd_com_trailer_padrao = Ok d)
    by (vm_compute; eexists; reflexivity).
  destruct H as (d & H). exists d. split; [exact H |].
  exact (proj1 (erros_em_duas_passagens _ d H)).
Defined.

(* ===================================================================== *)
(** * Further properties: header, NSR order and checksum aggregates      *)
(* ===================================================================== *)

Lemma forallb_flags1_In (hs : list Registro1) (h : Registro1) :
  In h hs -> r1_crc_ok h = Some false ->
  forallb (fun x => x) (flags1 hs) = false.
Proof.
  intros Hin Hf. destruct (forallb (fun x => x) (flags1 hs)) eqn:E; [| easy].
  rewrite forallb_forall in E. symmetry. apply (E false).
  unfold flags1. apply in_flat_map. exists h. split; [exact Hin |].
  rewrite Hf. now left.
Qed.

Lemma all_or_none_true (v : list bool) :
  all_or_none v = Some true -> forallb (fun x => x) v = true.
Proof. destruct v; [discriminate |]. unfold all_or_none. congruence. Qed.

(** X12.  The header of a document is the record of the last type-1 line
    that parsed, but the type-1 checksum aggregate runs over every type-1
    line that parsed, also those whose record was replaced: the aggregate
    is true only if no parsed header line failed its checksum, and a
    failed checksum in the header kept makes it false. *)
Theorem cabecalho_ultimo_agregado_todos (raw : list Byte.byte)
    (d : documento) :
  interpretar_afd raw = Ok d ->
  let hs := sucessos "1" parse_tipo1 (linhas_classificaveis raw) in
  let agg := crc1 (v_crc_ok_por_tipo (d_validacoes d)) in
  d_header d = ultimo hs None /\
  agg = all_or_none (flags1 hs) /\
  (agg = Some true -> forall h, In h hs -> r1_crc_ok h <> Some false) /\
  (forall h, d_header d = Some h -> r1_crc_ok h = Some false ->
             agg = Some false).
Proof.
  intros H hs agg. subst agg.
  apply interpretar_afd_ok in H as (st & _ & _ & Hapos & _ & ->).
  destruct Hapos as (_ & _ & _ & _ & _ & _ & Hh & _ & _ & C1 & _).
  cbn [montar_documento d_header d_validacoes v_crc_ok_por_tipo crc1].
  cbn [estado_inicial header crc_ok_por_tipo c1 app] in Hh, C1.
  fold hs in Hh, C1. rewrite Hh, C1.
  split; [reflexivity |]. split; [reflexivity |]. split.
  - intros Ht h Hin Hf. apply all_or_none_true in Ht.
    rewrite (forallb_flags1_In hs h Hin Hf) in Ht. discriminate.
  - intros h Hu Hf. apply ultimo_In in Hu as [Hin | Hin]; [| discriminate].
    pose proof (forallb_flags1_In hs h Hin Hf) as Hall.
    unfold all_or_none. destruct (flags1 hs) as [| x v] eqn:Ev.
    + discriminate Hall.
    + now rewrite Hall.
Qed.

Lemma cabecalho_ultimo_agregado_todos_witness :
  exists d, interpretar_afd Exemplos.afd_dois_cabecalhos = Ok d /\
    d_header d
    = ultimo (sucessos "1" parse_tipo1
                (linhas_classificaveis Exemplos.afd_dois_cabecalhos)) None.
Proof.
  assert (H : exists d, interpretar_afd Exemplos.afd_dois_cabecalhos = Ok d)
    by (vm_compute; eexists; reflexivity).
  destruct H as (d & H). exists d. split; [exact H |].
  exact (proj1 (cabecalho_ultimo_agregado_todos _ d H)).
Defined.

(** The header kept can be one without any checksum while the aggregate
    reports the failure of a header line that was replaced. *)
Example cabecalho_agregado_diverge :
  option_map (fun d => (option_map r1_nsr (d_header d),
                        option_map r1_crc_ok (d_header d),
                        crc1 (v_crc_ok_por_tipo (d_validacoes d))))
    (match interpretar_afd Exemplos.afd_dois_cabecalhos with
     | Ok d => Some d
     | Raise _ => None
     end)
  = Some (Some 2%Z, Some None, Some false).
Proof. vm_compute. reflexivity. Qed.

Ltac nsr_do_registro H :=
  bind_inv H; subst;
  match goal with E : to_int (_slice _ 1 9) = Ok _ |- _ =>
    rewrite _slice_1_9 in E; apply to_int_ok in E; exact E end.

Lemma parse_registro2_nsr (line : str) (r : Registro2) :
  parse_registro2 line = Ok r -> int (firstn 9 line) = Some (r2_nsr r).
Proof. intros H. unfold parse_registro2 in H. nsr_do_registro H. Qed.

Lemma parse_registro4_nsr (line : str) (r : Registro4) :
  parse_registro4 line = Ok r -> int (firstn 9 line) = Some (r4_nsr r).
Proof. intros H. unfold parse_registro4 in H. nsr_do_registro H. Qed.

Lemma parse_registro5_nsr (line : str) (r : Registro5) :
  parse_registro5 line = Ok r -> int (firstn 9 line) = Some (r5_nsr r).
Proof. intros H. unfold parse_registro5 in H. nsr_do_registro H. Qed.

Lemma parse_registro6_nsr (line : str) (r : Registro6) :
  parse_registro6 line = Ok r -> int (firstn 9 line) = Some (r6_nsr r).
Proof. intros H. unfold parse_registro6 in H. nsr_do_registro H. Qed.

Lemma parse_registro7_nsr (line : str) (r : Registro7) :
  parse_registro7 line = Ok r -> int (firstn 9 line) = Some (r7_nsr r).
Proof. intros H. unfold parse_registro7 in H. nsr_do_registro H. Qed.

Lemma parse_tipo3_nsr (line : str) (r : Registro3) :
  parse_tipo3 line = Ok r -> int (firstn 9 line) = Some (nsr r).
Proof.
  unfold parse_tipo3, try_fallback. intros H.
  destruct (parse_registro3_oficial line) as [r1 | e1] eqn:E1.
  - injection H as ->.
    apply parse_registro3_oficial_inv in E1 as (_ & _ & n & Hn & ->).
    now rewrite _slice_1_9 in Hn.
  - destruct (parse_registro3_compacto line) as [r2 | e2] eqn:E2;
      [| discriminate].
    injection H as ->.
    now apply parse_registro3_compacto_inv in E2
      as (_ & _ & _ & n & c & Hn & _ & ->).
Qed.

Lemma sucessos_nsr_ordenados {R} (d : string) (parse : str -> result R)
    (proj : R -> Z) (ls : list str) :
  (forall line r, parse line = Ok r -> int (firstn 9 line) = Some (proj r)) ->
  Forall (fun l => int (firstn 9 l) = Some (nsr9 l)) ls ->
  StronglySorted Z.le (map nsr9 ls) ->
  StronglySorted Z.le (map proj (sucessos d parse ls)).
Proof.
  intros Hp Hint Hs. induction ls as [| a ls IH]; [constructor |].
  rewrite sucessos_cons, map_app.
  inversion Hint as [| ? ? Ha Hls]; subst.
  cbn [map] in Hs. apply StronglySorted_inv in Hs as [Hs Hall].
  specialize (IH Hls Hs).
  unfold sucessos at 1. cbn [flat_map]. rewrite app_nil_r.
  destruct (tipo_da_linha d a); [| exact IH].
  destruct (parse a) as [r |] eqn:Er; [| exact IH].
  cbn [map app]. constructor; [exact IH |].
  apply Forall_forall. intros z Hz.
  apply in_map_iff in Hz as (r' & <- & Hin).
  apply sucessos_inv in Hin as (line & Hl & _ & Hpl).
  pose proof (Hp _ _ Er) as H1. pose proof (Hp _ _ Hpl) as H2.
  rewrite Forall_forall in Hls. rewrite (Hls line Hl) in H2.
  rewrite Ha in H1. injection H1 as <-. injection H2 as <-.
  rewrite Forall_forall in Hall. apply Hall. now apply in_map.
Qed.

(** X13.  Each record carries the NSR of its line, and the buckets keep
    file order: when [ordem_nsr_ok] is true the NSRs inside every one of
    the six buckets are non-decreasing as well. *)
Theorem ordem_nsr_nos_baldes (raw : list Byte.byte) (d : documento) :
  interpretar_afd raw = Ok d ->
  ordem_nsr_ok (d_validacoes d) = true ->
  let b := registros_por_tipo d in
  Sorted Z.le (map r2_nsr (b2 b)) /\ Sorted Z.le (map nsr (b3 b)) /\
  Sorted Z.le (map r4_nsr (b4 b)) /\ Sorted Z.le (map r5_nsr (b5 b)) /\
  Sorted Z.le (map r6_nsr (b6 b)) /\ Sorted Z.le (map r7_nsr (b7 b)).
Proof.
  intros H Hord b. subst b.
  rewrite (registros_por_tipo_linhas raw d H).
  assert (Hint : Forall (fun l => int (firstn 9 l) = Some (nsr9 l))
                   (linhas_classificaveis raw)).
  { apply Forall_forall. intros line Hin.
    now apply (classificaveis_int raw d). }
  apply interpretar_afd_ok in H as (st & _ & _ & _ & _ & ->).
  cbn [montar_documento d_validacoes ordem_nsr_ok] in Hord.
  apply eq_sorted_iff in Hord.
  apply Sorted_StronglySorted in Hord; [| exact Z.le_trans].
  cbn [registros_das_linhas b2 b3 b4 b5 b6 b7].
  repeat split; apply StronglySorted_Sorted;
    apply sucessos_nsr_ordenados; auto using parse_registro2_nsr,
      parse_tipo3_nsr, parse_registro4_nsr, parse_registro5_nsr,
      parse_registro6_nsr, parse_registro7_nsr.
Qed.

Lemma ordem_nsr_nos_baldes_witness :
  exists d, interpretar_afd Exemplos.afd_1223 = Ok d /\
    Sorted Z.le (map nsr (b3 (registros_por_tipo d))).
Proof.
  assert (H : exists d, interpretar_afd Exemplos.afd_1223 = Ok d)
    by (vm_compute; eexists; reflexivity).
  destruct H as (d & H). exists d. split; [exact H |].
  assert (Ho : ordem_nsr_ok (d_validacoes d) = true).
  { revert H. vm_compute. now intros [= <-]. }
  exact (proj1 (proj2 (ordem_nsr_nos_baldes _ d H Ho))).
Defined.

Lemma parse_tipo3_fmt (line : str) (r : Registro3) :
  parse_tipo3 line = Ok r ->
  (fmt r = compacto /\ crc_ok r = None) \/
  (fmt r = oficial /\ exists ok, crc_ok r = Some ok).
Proof.
  unfold parse_tipo3, try_fallback. intros H.
  destruct (parse_registro3_oficial line) as [r1 | e1] eqn:E1.
  - injection H as ->.
    apply parse_registro3_oficial_inv in E1 as (_ & _ & n & _ & ->).
    right. split; [reflexivity |]. eexists. reflexivity.
  - destruct (parse_registro3_compacto line) as [r2 | e2] eqn:E2;
      [| discriminate].
    injection H as ->.
    apply parse_registro3_compacto_inv in E2
      as (_ & _ & _ & n & c & _ & _ & ->).
    left. split; reflexivity.
Qed.

Lemma flags3_In (rs : list Registro3) (ok : bool) :
  In ok (flags3 rs) <-> exists r, In r rs /\ crc_ok r = Some ok.
Proof.
  unfold flags3. rewrite in_flat_map. split.
  - intros (r & Hin & H). exists r. split; [exact Hin |].
    destruct (crc_ok r); [| contradiction]. destruct H as [-> | []].
    reflexivity.
  - intros (r & Hin & H). exists r. split; [exact Hin |]. rewrite H.
    now left.
Qed.

(** X14.  The type-3 checksum aggregate has three states.  It is absent
    exactly when every punch of bucket 3 came from the compact layout;
    it is false exactly when some punch failed its checksum; it is true
    exactly when at least one punch came from the official layout and
    none failed.  Compact punches never influence it. *)
Theorem crc3_tres_estados (raw : list Byte.byte) (d : documento) :
  interpretar_afd raw = Ok d ->
  let agg := crc3 (v_crc_ok_por_tipo (d_validacoes d)) in
  let rs := b3 (registros_por_tipo d) in
  (agg = None <-> forall r, In r rs -> fmt r = compacto) /\
  (agg = Some false <-> exists r, In r rs /\ crc_ok r = Some false) /\
  (agg = Some true <->
   (exists r, In r rs /\ fmt r = oficial) /\
   forall r, In r rs -> crc_ok r <> Some false).
Proof.
  intros H agg rs.
  assert (Hfmt : forall r, In r rs ->
            (fmt r = compacto /\ crc_ok r = None) \/
            (fmt r = oficial /\ exists ok, crc_ok r = Some ok)).
  { intros r Hin. subst rs. rewrite (registros_por_tipo_linhas raw d H) in Hin.
    cbn [registros_das_linhas b3] in Hin.
    apply sucessos_inv in Hin as (line & _ & _ & Hp).
    now apply (parse_tipo3_fmt line). }
  assert (Hagg : agg = all_or_none (flags3 rs))
    by (apply (crc_resumo_dos_registros raw d H)).
  clearbody agg rs. clear H. rewrite Hagg. clear Hagg.
  assert (Hnil : flags3 rs = [] <-> forall r, In r rs -> fmt r = compacto).
  { split.
    - intros Hn r Hin. destruct (Hfmt r Hin) as [[Hc _] | [_ [ok Hok]]];
        [exact Hc |].
      assert (Hi : In ok (flags3 rs)) by (apply flags3_In; eauto).
      rewrite Hn in Hi. contradiction.
    - intros Hall. destruct (flags3 rs) as [| ok v] eqn:Ev; [reflexivity |].
      assert (Hi : In ok (flags3 rs)) by (rewrite Ev; now left).
      apply flags3_In in Hi as (r & Hin & Hok).
      destruct (Hfmt r Hin) as [[_ Hc] | [Ho _]]; [congruence |].
      rewrite (Hall r Hin) in Ho. discriminate. }
  assert (Hfalse : forallb (fun x => x) (flags3 rs) = false <->
                   exists r, In r rs /\ crc_ok r = Some false).
  { rewrite <- flags3_In. split.
    - intros Hf. destruct (in_dec Bool.bool_dec false (flags3 rs)) as [Hi | Hn];
        [exact Hi |]. exfalso.
      assert (Ht : forallb (fun x => x) (flags3 rs) = true).
      { apply forallb_forall. intros [|] Hx; [reflexivity | contradiction]. }
      congruence.
    - intros Hi. destruct (forallb (fun x => x) (flags3 rs)) eqn:E; [| easy].
      rewrite forallb_forall in E. symmetry. now apply E. }
  split; [| split].
  - rewrite <- Hnil. unfold all_or_none.
    destruct (flags3 rs); split; congruence.
  - rewrite <- Hfalse. unfold all_or_none.
    destruct (flags3 rs) as [| x v] eqn:Ev; [split; discriminate |].
    split; congruence.
  - split.
    + intros Ht. split.
      * destruct (flags3 rs) as [| ok v] eqn:Ev; [discriminate |].
        assert (Hi : In ok (flags3 rs)) by (rewrite Ev; now left).
        apply flags3_In in Hi as (r & Hin & Hok). exists r.
        split; [exact Hin |].
        destruct (Hfmt r Hin) as [[_ Hc] | [Ho _]]; congruence.
      * intros r Hin Hf. apply all_or_none_true in Ht.
        assert (Hx : forallb (fun x => x) (flags3 rs) = false)
          by (apply Hfalse; eauto).
        congruence.
    + intros [(r & Hin & Ho) Hall]. unfold all_or_none.
      destruct (flags3 rs) as [| x v] eqn:Ev.
      * exfalso. destruct Hnil as [Hn _]. specialize (Hn eq_refl r Hin).
        congruence.
      * f_equal.
        destruct (Bool.bool_dec (forallb (fun x => x) (x :: v)) true)
          as [E | E]; [exact E |].
        apply not_true_is_false in E.
        apply Hfalse in E as (r' & Hin' & Hf'). now destruct (Hall r' Hin').
Qed.

Lemma crc3_tres_estados_witness :
  exists d, interpretar_afd Exemplos.afd_compacto = Ok d /\
    (crc3 (v_crc_ok_por_tipo (d_validacoes d)) = None <->
     forall r, In r (b3 (registros_por_tipo d)) -> fmt r = compacto).
Proof.
  assert (H : exists d, interpretar_afd Exemplos.afd_compacto = Ok d)
    by (vm_compute; eexists; reflexivity).
  destruct H as (d & H). exists d. split; [exact H |].
  exact (proj1 (crc3_tres_estados _ d H)).
Defined.

(* ===================================================================== *)
(** * Further properties: sealing a line and reading its checksum        *)
(* ===================================================================== *)

Lemma upper_hex_code (c : ascii) :
  upper_hex_digit c = true -> upper_char c = [ord c].
Proof.
  unfold upper_hex_digit, upper_char, between.
  pose proof (ord_lt_256 c) as Hc. set (n := ord c) in *. clearbody n.
  repeat match goal with
    | |- context [N.leb ?a ?b] => destruct (N.leb_spec a b)
    | |- context [N.eqb ?a ?b] => destruct (N.eqb_spec a b)
    end; cbn; intros Hx; try discriminate Hx; try reflexivity; lia.
Qed.

Lemma upper_upper_hex (s : str) :
  forallb upper_hex_digit s = true -> upper s = code_points s.
Proof.
  induction s as [| c s IH]; [reflexivity |]. cbn [forallb].
  intros H. apply andb_true_iff in H as [Hc Hs].
  unfold upper, code_points in *. cbn [flat_map map].
  now rewrite (upper_hex_code c Hc), IH.
Qed.

Lemma _crc16_hex4_for_line_length (line : str) (a b : nat) :
  (1 <= a)%nat ->
  length (_crc16_hex4_for_line line (Z.of_nat a, Z.of_nat b)) = 4%nat.
Proof.
  intros Ha. rewrite _crc16_hex4_for_line_excise by exact Ha.
  apply format_04X_length, crc16_ibm_arc_lt.
Qed.

Lemma selar_excise (line : str) (a : nat) :
  (1 <= a)%nat -> (a + 3 <= length line)%nat ->
  excise (selar a line) a (a + 3) = excise line a (a + 3) /\
  columns (selar a line) a (a + 3)
  = _crc16_hex4_for_line line (Z.of_nat a, Z.of_nat (a + 3)).
Proof.
  intros Ha Hb. apply excise_campo; try lia.
  rewrite _crc16_hex4_for_line_length by exact Ha. lia.
Qed.

Lemma substituir_campo_length (line f : str) (a b : nat) :
  (a - 1 <= b)%nat -> (b <= length line)%nat -> length f = (b - (a - 1))%nat ->
  length (substituir_campo a b f line) = length line.
Proof.
  intros Hab Hb Hf. unfold substituir_campo.
  rewrite !length_app, length_firstn, length_skipn, Hf. lia.
Qed.

Lemma columns_substituir_antes (line f : str) (a b x y : nat) :
  (x - 1 <= y)%nat -> (y <= a - 1)%nat -> (a - 1 <= length line)%nat ->
  columns (substituir_campo a b f line) x y = columns line x y.
Proof.
  intros Hxy Hya Hal. unfold columns, substituir_campo.
  rewrite !firstn_skipn_comm.
  replace (x - 1 + (y - (x - 1)))%nat with y by lia.
  f_equal. rewrite firstn_app, firstn_firstn, length_firstn.
  replace (Nat.min y (a - 1)) with y by lia.
  replace (y - Nat.min (a - 1) (length line))%nat with 0%nat by lia.
  now rewrite firstn_O, app_nil_r.
Qed.

Lemma selar_confere (line : str) (a : nat) :
  (1 <= a)%nat -> (a + 3 <= length line)%nat ->
  crc_confere (upper (_slice (selar a line) (Z.of_nat a) (Z.of_nat (a + 3))))
    (selar a line) (Z.of_nat a, Z.of_nat (a + 3)) = true.
Proof.
  intros Ha Hb. rewrite crc_confere_reference by exact Ha.
  destruct (selar_excise line a Ha Hb) as [-> ->].
  rewrite _crc16_hex4_for_line_excise by exact Ha.
  rewrite crc16_ibm_arc_reference.
  rewrite upper_upper_hex by apply format_04X_upper.
  now apply ustr_eqb_eq.
Qed.

(** X15.  Sealing: writing the checksum the code computes for a line
    into its four-column checksum field changes nothing outside the
    field, leaves the computed checksum as it was, and makes the
    comparison true.  For an official type-3 line the sealed line parses
    to the same record with the computed checksum and [crc_ok] true. *)
Theorem linha_selada_confere (line : str) (a : nat) :
  (1 <= a)%nat -> (a + 3 <= length line)%nat ->
  let pos := (Z.of_nat a, Z.of_nat (a + 3)) in
  length (selar a line) = length line /\
  excise (selar a line) a (a + 3) = excise line a (a + 3) /\
  _crc16_hex4_for_line (selar a line) pos = _crc16_hex4_for_line line pos /\
  crc_confere (upper (_slice (selar a line) (Z.of_nat a) (Z.of_nat (a + 3))))
    (selar a line) pos = true /\
  (forall r,
     a = 47%nat -> parse_registro3_oficial line = Ok r ->
     parse_registro3_oficial (selar a line)
     = Ok (mkRegistro3 (nsr r) (tipo r) (dh_marcacao r) (cpf r)
             (Some (code_points (_crc16_hex4_for_line line pos)))
             (Some true) oficial)).
Proof.
  intros Ha Hb pos. subst pos.
  assert (Hlen : length (selar a line) = length line).
  { apply substituir_campo_length; try lia.
    rewrite _crc16_hex4_for_line_length by exact Ha. lia. }
  destruct (selar_excise line a Ha Hb) as [He Hc].
  split; [exact Hlen |]. split; [exact He |]. split.
  { rewrite !_crc16_hex4_for_line_excise by exact Ha. now rewrite He. }
  split; [now apply selar_confere |].
  intros r -> Hp.
  pose proof (selar_confere line 47 Ha Hb) as Hok.
  apply parse_registro3_oficial_inv in Hp as (Hl & Hiso & n & Hn & ->).
  cbn [nsr tipo dh_marcacao cpf].
  unfold parse_registro3_oficial.
  rewrite (proj2 (require_len_ok _ _ _)) by lia. cbn [bind].
  change (Z.of_nat 47) with 47%Z in *. change (Z.of_nat (47 + 3)) with 50%Z in *.
  rewrite Hok.
  assert (Hcol : forall x y, (x - 1 <= y)%nat -> (y <= 46)%nat ->
            columns (selar 47 line) x y = columns line x y).
  { intros x y Hxy Hy. apply columns_substituir_antes; lia. }
  rewrite (_slice_columns_lit (selar 47 line) 1 9 1%Z 9%Z) by (auto; lia).
  rewrite (_slice_columns_lit (selar 47 line) 10 10 10%Z 10%Z) by (auto; lia).
  rewrite (_slice_columns_lit (selar 47 line) 11 34 11%Z 34%Z) by (auto; lia).
  rewrite (_slice_columns_lit (selar 47 line) 35 46 35%Z 46%Z) by (auto; lia).
  rewrite (_slice_columns_lit (selar 47 line) 47 50 47%Z 50%Z) by (auto; lia).
  rewrite !Hcol by lia.
  rewrite (_slice_columns_lit line 1 9 1%Z 9%Z) in Hn by (auto; lia).
  rewrite (_slice_columns_lit line 11 34 11%Z 34%Z) in Hiso by (auto; lia).
  rewrite (_slice_columns_lit line 10 10 10%Z 10%Z) by (auto; lia).
  rewrite (_slice_columns_lit line 11 34 11%Z 34%Z) by (auto; lia).
  rewrite (_slice_columns_lit line 35 46 35%Z 46%Z) by (auto; lia).
  unfold to_int. rewrite Hn. cbn [bind]. rewrite Hiso. cbn [negb].
  change (47 + 3)%nat with 50%nat in Hc. rewrite Hc.
  rewrite upper_upper_hex; [reflexivity |].
  change 47%Z with (Z.of_nat 47). change 50%Z with (Z.of_nat 50).
  rewrite _crc16_hex4_for_line_excise by lia. apply format_04X_upper.
Qed.

Lemma linha_selada_confere_witness :
  (1 <= 47)%nat /\ (47 + 3 <= length Exemplos.oficial_crc_errado)%nat /\
  crc_confere
    (upper (_slice (selar 47 Exemplos.oficial_crc_errado) 47 50))
    (selar 47 Exemplos.oficial_crc_errado) (47, 50)%Z = true.
Proof.
  assert (H1 : (1 <= 47)%nat) by lia.
  assert (H2 : (47 + 3 <= length Exemplos.oficial_crc_errado)%nat)
    by (cbn; lia).
  split; [exact H1 |]. split; [exact H2 |].
  exact (proj1 (proj2 (proj2 (proj2
    (linha_selada_confere Exemplos.oficial_crc_errado 47 H1 H2))))).
Defined.

(** Sealing the punch whose checksum was wrong restores the record. *)
Example selar_oficial_crc_errado :
  selar 47 Exemplos.oficial_crc_errado = Exemplos.oficial_1.
Proof. vm_compute. reflexivity. Qed.

(* ===================================================================== *)
(** * Further properties: algebra of the CRC engine                      *)
(* ===================================================================== *)

Lemma crc_bit_even (x : N) : N.testbit x 0 = false -> crc_bit x = N.shiftr x 1.
Proof. intros H. unfold crc_bit. now rewrite low_bit_test, H. Qed.

(** With [k] zero bits at the bottom, [k] passes of the inner loop only
    shift. *)
Lemma iter_crc_bit_shift (k : nat) (x : N) :
  (forall i, i < N.of_nat k -> N.testbit x i = false) ->
  Nat.iter k crc_bit x = N.shiftr x (N.of_nat k).
Proof.
  revert x. induction k as [| k IH]; intros x Hx.
  - cbn [Nat.iter nat_rect]. change (N.of_nat 0) with 0.
    now rewrite N.shiftr_0_r.
  - rewrite Nat.iter_succ_r, crc_bit_even by (apply Hx; lia).
    rewrite IH.
    + rewrite N.shiftr_shiftr. f_equal. lia.
    + intros i Hi. rewrite N.shiftr_spec by lia. apply Hx. lia.
Qed.

Lemma crc_byte_low (c : N) (lo : Byte.byte) :
  Byte.to_N lo = c mod 256 -> crc_byte c lo = c / 256.
Proof.
  intros Hlo. unfold crc_byte. rewrite Hlo.
  change 256 with (2 ^ 8). change 8%nat with (N.to_nat 8).
  rewrite iter_crc_bit_shift.
  - rewrite N2Nat.id, N.shiftr_lxor, <- !N.shiftr_div_pow2.
    replace (N.shiftr (c mod 2 ^ 8) 8) with 0; [apply N.lxor_0_r |].
    symmetry. rewrite N.shiftr_div_pow2. apply N.div_small.
    apply N.mod_lt. discriminate.
  - rewrite N2Nat.id. intros i Hi.
    rewrite N.lxor_spec, N.mod_pow2_bits_low by exact Hi.
    apply xorb_nilpotent.
Qed.

Lemma crc_byte_self (c : N) (hi : Byte.byte) :
  Byte.to_N hi = c -> crc_byte c hi = 0.
Proof.
  intros H. unfold crc_byte. rewrite H, N.lxor_nilpotent. reflexivity.
Qed.

Lemma fold_crc_byte_zeros (k : nat) (data : list Byte.byte) :
  fold_left crc_byte (repeat Byte.x00 k ++ data) 0
  = fold_left crc_byte data 0.
Proof.
  induction k as [| k IH]; [reflexivity |].
  cbn [repeat app fold_left]. exact IH.
Qed.

(** X16.  The engine is a pure CRC with zero initial value and no final
    XOR: appending the two bytes of the CRC of a message, low byte first,
    gives a message whose CRC is zero, and zero bytes put in front of a
    message do not change its CRC. *)
Theorem crc16_residuo_zero (data : list Byte.byte) (lo hi : Byte.byte)
    (k : nat) :
  Byte.to_N lo = crc16_ibm_arc data mod 256 ->
  Byte.to_N hi = crc16_ibm_arc data / 256 ->
  crc16_ibm_arc (data ++ [lo; hi]) = 0 /\
  crc16_ibm_arc (repeat Byte.x00 k ++ data) = crc16_ibm_arc data.
Proof.
  intros Hlo Hhi. rewrite !crc16_ibm_arc_fold in *. split.
  - rewrite fold_left_app. cbn [fold_left].
    rewrite (crc_byte_low _ lo Hlo). now apply crc_byte_self.
  - apply fold_crc_byte_zeros.
Qed.

Lemma crc16_residuo_zero_witness :
  crc16_ibm_arc (encode_latin1 (lit "123456789") ++ [Byte.x3d; Byte.xbb]) = 0.
Proof.
  exact (proj1 (crc16_residuo_zero (encode_latin1 (lit "123456789"))
                  Byte.x3d Byte.xbb 0 eq_refl eq_refl)).
Defined.

(* ===================================================================== *)
(** * Further properties: the checksum field read as a number           *)
(* ===================================================================== *)

Ltac cmp_cases :=
  repeat (match goal with
          | |- context [N.leb ?a ?b] => destruct (N.leb_spec a b)
          | |- context [N.ltb ?a ?b] => destruct (N.ltb_spec a b)
          | |- context [N.eqb ?a ?b] => destruct (N.eqb_spec a b)
          end; try lia; cbn [andb orb negb]; cbv iota).

Lemma upper_hex_digit_range (d : ascii) :
  upper_hex_digit d = true ->
  (48 <= ord d <= 57) \/ (65 <= ord d <= 70).
Proof.
  unfold upper_hex_digit, between.
  cmp_cases; intros Hd; try discriminate Hd; lia.
Qed.

(** A character whose uppercase form is an uppercase hexadecimal digit is
    that digit in either case, and denotes the same number. *)
Lemma upper_char_hex (c d : ascii) :
  upper_hex_digit d = true ->
  (upper_char c = [ord d] <->
   hex_digit_char c = true /\ hex_digit_val_ci c = hex_digit_val d).
Proof.
  intros Hd. apply upper_hex_digit_range in Hd.
  unfold upper_char, hex_digit_char, upper_hex_digit, hex_digit_val_ci,
    hex_digit_val, between.
  pose proof (ord_lt_256 c) as Hc.
  set (n := ord c) in *. set (m := ord d) in *. clearbody n m.
  cmp_cases;
    (split;
     [ intros Hq; first [discriminate Hq | injection Hq as Hq;
         first [lia | split; [reflexivity | lia]]]
     | intros [Hq1 Hq2]; first [discriminate Hq1 | f_equal; lia] ]).
Qed.

Lemma upper_char_shape (c : ascii) :
  (exists x, upper_char c = [x]) \/ upper_char c = [83; 83].
Proof.
  unfold upper_char.
  repeat match goal with
    | |- context [if ?b then _ else _] => destruct b
    end; eauto.
Qed.

Lemma hex_digit_val_lt (d : ascii) :
  upper_hex_digit d = true -> hex_digit_val d < 16.
Proof.
  intros Hd. apply upper_hex_digit_range in Hd. unfold hex_digit_val.
  cmp_cases.
Qed.

Lemma hex_digit_val_ci_lt (c : ascii) :
  hex_digit_char c = true -> hex_digit_val_ci c < 16.
Proof.
  unfold hex_digit_char, upper_hex_digit, hex_digit_val_ci, between.
  cmp_cases; intros H; try discriminate H; lia.
Qed.

Lemma upper_hex_digit_ex (c : ascii) :
  hex_digit_char c = true ->
  exists d, upper_hex_digit d = true /\ upper_char c = [ord d].
Proof.
  intros Hc.
  assert (Hv := hex_digit_val_ci_lt c Hc).
  exists (hex_digit (hex_digit_val_ci c)).
  assert (Hu : upper_hex_digit (hex_digit (hex_digit_val_ci c)) = true)
    by now apply hex_digit_upper.
  split; [exact Hu |]. apply upper_char_hex; [exact Hu |].
  split; [exact Hc |].
  unfold hex_digit, hex_digit_val, ord, chr.
  destruct (N.ltb_spec (hex_digit_val_ci c) 10).
  - rewrite N_ascii_embedding by lia. cmp_cases.
  - rewrite N_ascii_embedding by lia. cmp_cases.
Qed.

(** Comparison after [upper()] against four uppercase hexadecimal digits
    is comparison of numbers, whatever the letter case of the field. *)
Lemma upper_eq_hex4 (f g : str) :
  length f = 4%nat -> length g = 4%nat ->
  forallb upper_hex_digit g = true ->
  (upper f = code_points g <->
   forallb hex_digit_char f = true /\ hex_val_ci f = hex_val g).
Proof.
  intros Hf Hg Hu. explode_list Hf. explode_list Hg.
  cbn [forallb] in Hu.
  repeat match goal with
    | H : _ && _ = true |- _ => apply andb_true_iff in H as [? H]
    end.
  match goal with
  | |- upper [?c1; ?c2; ?c3; ?c4] = code_points [?d1; ?d2; ?d3; ?d4] <-> _ =>
      pose proof (upper_char_hex c1 d1) as U1;
      pose proof (upper_char_hex c2 d2) as U2;
      pose proof (upper_char_hex c3 d3) as U3;
      pose proof (upper_char_hex c4 d4) as U4;
      pose proof (hex_digit_val_lt d1) as V1;
      pose proof (hex_digit_val_lt d2) as V2;
      pose proof (hex_digit_val_lt d3) as V3;
      pose proof (hex_digit_val_lt d4) as V4;
      pose proof (hex_digit_val_ci_lt c1) as W1;
      pose proof (hex_digit_val_ci_lt c2) as W2;
      pose proof (hex_digit_val_ci_lt c3) as W3;
      pose proof (hex_digit_val_ci_lt c4) as W4;
      destruct (upper_char_shape c1) as [[x1 E1] | E1];
      destruct (upper_char_shape c2) as [[x2 E2] | E2];
      destruct (upper_char_shape c3) as [[x3 E3] | E3];
      destruct (upper_char_shape c4) as [[x4 E4] | E4]
  end;
  unfold upper, code_points, hex_val_ci, hex_val;
  cbn [flat_map map fold_left forallb app];
  rewrite ?E1, ?E2, ?E3, ?E4; cbn [app].
  all: split.
  all: match goal with
       | |- _ = _ -> _ =>
           intros Hq; injection Hq as; subst;
           repeat match goal with
             | H : upper_hex_digit ?d = true, E : 83 = ord ?d |- _ =>
                 apply upper_hex_digit_range in H; rewrite <- E in H; lia
             end; try discriminate;
           destruct (proj1 (U1 ltac:(assumption)) E1) as [A1 B1];
           destruct (proj1 (U2 ltac:(assumption)) E2) as [A2 B2];
           destruct (proj1 (U3 ltac:(assumption)) E3) as [A3 B3];
           destruct (proj1 (U4 ltac:(assumption)) E4) as [A4 B4];
           rewrite A1, A2, A3, A4, B1, B2, B3, B4; split; reflexivity
       | |- _ /\ _ -> _ =>
           intros [Hh Hv];
           repeat match goal with
             | H : _ && _ = true |- _ => apply andb_true_iff in H as [? H]
             end;
           specialize (U1 ltac:(assumption)); specialize (U2 ltac:(assumption));
           specialize (U3 ltac:(assumption)); specialize (U4 ltac:(assumption));
           specialize (V1 ltac:(assumption)); specialize (V2 ltac:(assumption));
           specialize (V3 ltac:(assumption)); specialize (V4 ltac:(assumption));
           specialize (W1 ltac:(assumption)); specialize (W2 ltac:(assumption));
           specialize (W3 ltac:(assumption)); specialize (W4 ltac:(assumption));
           match type of U1 with _ <-> ?p /\ ?l = ?r =>
             assert (R1 : p /\ l = r) by (split; [assumption | lia]) end;
           match type of U2 with _ <-> ?p /\ ?l = ?r =>
             assert (R2 : p /\ l = r) by (split; [assumption | lia]) end;
           match type of U3 with _ <-> ?p /\ ?l = ?r =>
             assert (R3 : p /\ l = r) by (split; [assumption | lia]) end;
           match type of U4 with _ <-> ?p /\ ?l = ?r =>
             assert (R4 : p /\ l = r) by (split; [assumption | lia]) end;
           apply (proj2 U1) in R1;
           apply (proj2 U2) in R2;
           apply (proj2 U3) in R3;
           apply (proj2 U4) in R4;
           rewrite E1 in R1; rewrite E2 in R2; rewrite E3 in R3;
           rewrite E4 in R4; congruence
       end.
Qed.

(** X17.  Checksum verification is a comparison of numbers: for a line
    that reaches the end of its four-column checksum field, the stored
    comparison is true exactly when the four characters of the field are
    hexadecimal digits, in either letter case, and the number they write
    is the CRC of the rest of the line.  In particular this is when an
    official type-3 record has [crc_ok] true. *)
Theorem crc_confere_numerico (line : str) (a : nat) :
  (1 <= a)%nat -> (a + 3 <= length line)%nat ->
  let campo := columns line a (a + 3) in
  let crc := crc16_ibm_arc (encode_latin1 (excise line a (a + 3))) in
  (crc_confere (upper (_slice line (Z.of_nat a) (Z.of_nat (a + 3)))) line
     (Z.of_nat a, Z.of_nat (a + 3)) = true <->
   forallb hex_digit_char campo = true /\ hex_val_ci campo = crc) /\
  (forall r, a = 47%nat -> parse_registro3_oficial line = Ok r ->
     (crc_ok r = Some true <->
      forallb hex_digit_char campo = true /\ hex_val_ci campo = crc)).
Proof.
  intros Ha Hb campo crc.
  assert (Hc : crc_confere
                 (upper (_slice line (Z.of_nat a) (Z.of_nat (a + 3)))) line
                 (Z.of_nat a, Z.of_nat (a + 3)) = true <->
               forallb hex_digit_char campo = true /\ hex_val_ci campo = crc).
  { rewrite crc_confere_reference by exact Ha.
    rewrite <- crc16_ibm_arc_reference. fold campo crc.
    rewrite ustr_eqb_eq.
    assert (Hx := upper_eq_hex4 campo (format_04X crc)).
    rewrite hex_val_format_04X in Hx. apply Hx.
    - subst campo. rewrite columns_length by lia. lia.
    - apply format_04X_length, crc16_ibm_arc_lt.
    - apply format_04X_upper. }
  split; [exact Hc |].
  intros r -> Hp. apply verifica_crc3_parse in Hp. rewrite Hp.
  unfold verifica_crc3. rewrite <- Hc.
  change (Z.of_nat 47) with 47%Z. change (Z.of_nat (47 + 3)) with 50%Z.
  split; [now intros [= ->] | now intros ->].
Qed.

Lemma crc_confere_numerico_witness :
  (1 <= 47)%nat /\ (47 + 3 <= length Exemplos.oficial_1_minusculo)%nat /\
  (crc_confere (upper (_slice Exemplos.oficial_1_minusculo 47 50))
     Exemplos.oficial_1_minusculo (47, 50)%Z = true <->
   forallb hex_digit_char (columns Exemplos.oficial_1_minusculo 47 50) = true /\
   hex_val_ci (columns Exemplos.oficial_1_minusculo 47 50)
   = crc16_ibm_arc
       (encode_latin1 (excise Exemplos.oficial_1_minusculo 47 50))).
Proof.
  assert (H1 : (1 <= 47)%nat) by lia.
  assert (H2 : (47 + 3 <= length Exemplos.oficial_1_minusculo)%nat)
    by (cbn; lia).
  split; [exact H1 |]. split; [exact H2 |].
  exact (proj1 (crc_confere_numerico Exemplos.oficial_1_minusculo 47 H1 H2)).
Defined.

(* ===================================================================== *)
(** * Further properties: the compact header                             *)
(* ===================================================================== *)

Lemma slice_from_ultimos (s : str) (k : nat) :
  (1 <= k)%nat -> (k <= length s)%nat ->
  slice_from s (- Z.of_nat k) = skipn (length s - k) s.
Proof.
  intros Hk Hl. unfold slice_from, clamp.
  destruct (Z.ltb_spec (- Z.of_nat k) 0) as [_ | Hn]; [| lia].
  f_equal. lia.
Qed.

Lemma isdigit_columns (s : str) (a b : nat) :
  isdigit s = true -> (1 <= a)%nat -> (a <= b)%nat -> (b <= length s)%nat ->
  isdigit (columns s a b) = true.
Proof.
  intros Hs Ha Hab Hb.
  assert (Hall : forallb isdigit_char s = true)
    by (destruct s; [discriminate | exact Hs]).
  assert (Hc : forallb isdigit_char (columns s a b) = true).
  { unfold columns. rewrite <- (firstn_skipn (a - 1) s) in Hall.
    rewrite forallb_app in Hall. apply andb_true_iff in Hall as [_ Hall].
    rewrite <- (firstn_skipn (b - (a - 1)) (skipn (a - 1) s)) in Hall.
    rewrite forallb_app in Hall. now apply andb_true_iff in Hall as [Hall _]. }
  assert (Hl : length (columns s a b) = (b - (a - 1))%nat)
    by (apply columns_length; lia).
  destruct (columns s a b); [cbn in Hl; lia | exact Hc].
Qed.

(** X18.  When the compact header parser returns a record, the last 28
    characters of the line are digits and the record always has its two
    period dates and its generation timestamp, rewritten from those 28
    characters wherever they sit in the line; every other text field, the
    checksum and the verification flag are absent.  The branch of the
    source that would leave the generation timestamp empty is never
    taken. *)
Theorem parse_registro1_compacto_campos (line : str) (r : Registro1) :
  parse_registro1_compacto line = Ok r ->
  let t := skipn (length line - 28) line in
  (38 <= length line)%nat /\ isdigit t = true /\
  r1_data_inicio r = Some (data_iso (columns t 1 8)) /\
  r1_data_fim r = Some (data_iso (columns t 9 16)) /\
  r1_data_hora_geracao r
  = Some (carimbo (columns t 17 24) (columns t 25 28)) /\
  r1_crc16 r = None /\ r1_crc_ok r = None /\
  r1_id_empregador r = None /\ r1_razao_social r = None /\
  r1_versao_layout r = None /\ r1_modelo_rep_c r = None.
Proof.
  intros H t. unfold parse_registro1_compacto in H.
  destruct (require_len "Tipo 1 compacto" line (9 + 1 + 28)) as [[] |] eqn:El;
    cbn [bind] in H; [| discriminate].
  apply require_len_ok in El. cbn [Nat.add] in El.
  change (-28)%Z with (- Z.of_nat 28)%Z in H.
  rewrite slice_from_ultimos in H by lia. fold t in H.
  bind_inv H. apply negb_false_iff in E2. unfold _is_digits in E2.
  assert (Ht : length t = 28%nat) by (subst t; rewrite length_skipn; lia).
  slice_cols t 0%nat 8%nat. slice_cols t 8%nat 16%nat.
  slice_cols t 16%nat 24%nat. slice_cols t 24%nat 28%nat.
  rewrite (_ddmmaaaa_to_iso_some (columns t 1 8)) in H
    by (try apply isdigit_columns; try rewrite columns_length; auto; lia).
  rewrite (_ddmmaaaa_to_iso_some (columns t 9 16)) in H
    by (try apply isdigit_columns; try rewrite columns_length; auto; lia).
  rewrite (_ddmmaaaa_to_iso_some (columns t 17 24)) in H
    by (try apply isdigit_columns; try rewrite columns_length; auto; lia).
  rewrite (_hhmm_to_hhmm_some (columns t 25 28)) in H
    by (try apply isdigit_columns; try rewrite columns_length; auto; lia).
  rewrite !truthy_app_lit in H. cbn [andb] in H. subst r.
  cbn [r1_data_inicio r1_data_fim r1_data_hora_geracao r1_crc16 r1_crc_ok
       r1_id_empregador r1_razao_social r1_versao_layout r1_modelo_rep_c].
  split; [lia |]. split; [exact E2 |].
  split; [reflexivity |]. split; [reflexivity |].
  split; [| repeat split]. f_equal. apply carimbo_assoc.
Qed.

Lemma parse_registro1_compacto_campos_witness :
  exists r, parse_registro1_compacto Exemplos.cabecalho_compacto = Ok r /\
    r1_data_hora_geracao r = Some (lit "2025-08-01T08:00:00-0300").
Proof.
  eexists. split; [reflexivity |].
  exact (proj1 (proj2 (proj2 (proj2 (proj2
    (parse_registro1_compacto_campos Exemplos.cabecalho_compacto _
       eq_refl)))))).
Defined.

(* ===================================================================== *)
(** * Further properties: totals over ordered timestamps                 *)
(* ===================================================================== *)

Section SomaOrdenada.
Local Open Scope Z_scope.

Let cedo (a b : datetime) : Prop := instante a <= instante b.

Lemma last_cons_indep {A} (l : list A) (x d d' : A) :
  last (x :: l) d = last (x :: l) d'.
Proof.
  revert x. induction l as [| y l IH]; intros x; [reflexivity |].
  change (last (x :: y :: l) d) with (last (y :: l) d).
  change (last (x :: y :: l) d') with (last (y :: l) d'). apply IH.
Qed.

Lemma emparelhar_length (times : list datetime) :
  (2 * length (emparelhar times) = length times + length times mod 2)%nat.
Proof.
  assert (H : forall k (l : list datetime), (length l <= k)%nat ->
            (2 * length (emparelhar l)
             = length l + length l mod 2)%nat).
  { induction k as [| k IH]; intros l Hl.
    - destruct l; [reflexivity | cbn in Hl; lia].
    - destruct l as [| e [| s rest]]; [reflexivity | reflexivity |].
      cbn [emparelhar length] in *.
      specialize (IH rest ltac:(lia)).
      replace (S (S (length rest))) with (length rest + 1 * 2)%nat by lia.
      rewrite Nat.Div0.mod_add. lia. }
  apply (H (length times)). lia.
Qed.

Lemma soma_ordenada_fuel (k : nat) :
  forall times : list datetime,
    (length times <= k)%nat -> StronglySorted cedo times ->
    map duracao (emparelhar times) = map intervalo (emparelhar times) /\
    0 <= soma (map intervalo (emparelhar times)) <= amplitude times.
Proof.
  induction k as [| k IH]; intros times Hl Hs.
  - destruct times; [split; [reflexivity | cbn; lia] | cbn in Hl; lia].
  - destruct times as [| e [| s rest]];
      [split; [reflexivity | cbn; lia] | split; [reflexivity | cbn; lia] |].
    cbn [length] in Hl.
    apply StronglySorted_inv in Hs as [Hs He].
    apply StronglySorted_inv in Hs as [Hs Hse].
    destruct (IH rest ltac:(lia) Hs) as (Hd & H0 & Ha).
    assert (Hes : instante e <= instante s)
      by (inversion He; assumption).
    cbn [emparelhar map]. rewrite Hd. split.
    + f_equal. cbn [duracao intervalo]. unfold dt_gtb, dt_sub.
      destruct (Z.ltb_spec (instante e) (instante s)); lia.
    + unfold soma in *. cbn [fold_right intervalo].
      unfold amplitude in *.
      destruct rest as [| r rest].
      * cbn in *. lia.
      * assert (Hsr : instante s <= instante r)
          by (inversion Hse; assumption).
        change (last (e :: s :: r :: rest) e) with (last (r :: rest) e).
        rewrite (last_cons_indep rest r e r). lia.
Qed.

End SomaOrdenada.

(** X19.  On timestamps in ascending order, as [gerar_jornadas_por_cpf]
    passes them, no complete pair is left out of the total: the total is
    the sum of [exit - entry] over all complete pairs, and it never
    exceeds the time from the first to the last timestamp.  The number of
    pairs is half the number of timestamps, rounded up. *)
Theorem sum_pairs_ordenado (times : list datetime) :
  Sorted (fun a b => (instante a <= instante b)%Z) times ->
  let '(total, pares) := _sum_pairs times in
  total = soma (map intervalo pares) /\
  (0 <= total <= amplitude times)%Z /\
  (2 * length pares = length times + length times mod 2)%nat.
Proof.
  intros Hs. rewrite _sum_pairs_spec.
  apply Sorted_StronglySorted in Hs;
    [| intros a b c Hab Hbc; cbv beta in *; lia].
  destruct (soma_ordenada_fuel (length times) times (Nat.le_refl _) Hs)
    as (Hd & Hb).
  rewrite Hd. split; [reflexivity |]. split; [exact Hb |].
  apply emparelhar_length.
Qed.

Lemma sum_pairs_ordenado_witness :
  fst (_sum_pairs [Exemplos.as_0800; Exemplos.as_1200; Exemplos.as_1300;
                   Exemplos.as_1700])
  = soma (map intervalo
            (snd (_sum_pairs [Exemplos.as_0800; Exemplos.as_1200;
                              Exemplos.as_1300; Exemplos.as_1700]))).
Proof.
  assert (Hs : Sorted (fun a b => (instante a <= instante b)%Z)
                 [Exemplos.as_0800; Exemplos.as_1200; Exemplos.as_1300;
                  Exemplos.as_1700]).
  { repeat constructor; vm_compute; discriminate. }
  pose proof (sum_pairs_ordenado _ Hs) as H.
  destruct (_sum_pairs [Exemplos.as_0800; Exemplos.as_1200;
                        Exemplos.as_1300; Exemplos.as_1700])
    as [total pares].
  exact (proj1 H).
Defined.

(* ===================================================================== *)
(** * Further properties: groups and rows of the summary                 *)
(* ===================================================================== *)

Lemma chave_eqb_refl (k : chave) : chave_eqb k k = true.
Proof. now apply chave_eqb_eq. Qed.

Lemma chave_eqb_neq (a b : chave) : chave_eqb a b = false <-> a <> b.
Proof.
  rewrite <- chave_eqb_eq. destruct (chave_eqb a b); split; congruence.
Qed.

Lemma grupo_de_snoc (k k' : chave) (dt : datetime)
    (aceitas : list (chave * datetime)) :
  grupo_de k (aceitas ++ [(k', dt)])
  = grupo_de k aceitas ++ (if chave_eqb k' k then [dt] else []).
Proof.
  unfold grupo_de. rewrite filter_app, map_app. cbn [filter fst].
  now destruct (chave_eqb k' k).
Qed.

Lemma agrupar_linha_aceita (g : grupos) (row : marcacao) :
  agrupar_linha g row
  = match marcacao_aceita row with
    | Some (k, dt) => adicionar k dt g
    | None => g
    end.
Proof.
  unfold agrupar_linha, marcacao_aceita.
  destruct (nonempty (strip (m_cpf row))),
    (nonempty (strip (m_dh_marcacao row))); cbn [negb orb andb];
    try reflexivity.
  now destruct (_parse_iso_dh (strip (m_dh_marcacao row))).
Qed.

Lemma adicionar_chaves (k : chave) (dt : datetime) (g : grupos) (k' : chave) :
  In k' (map fst (adicionar k dt g)) <-> k' = k \/ In k' (map fst g).
Proof.
  induction g as [| [k0 ts] g IH]; cbn [adicionar map fst In].
  - intuition congruence.
  - destruct (chave_eqb k k0) eqn:E; cbn [map fst In].
    + apply chave_eqb_eq in E as <-. intuition congruence.
    + rewrite IH. intuition congruence.
Qed.

Lemma adicionar_agrupado (k : chave) (dt : datetime) (g : grupos)
    (aceitas : list (chave * datetime)) :
  agrupado g aceitas -> agrupado (adicionar k dt g) (aceitas ++ [(k, dt)]).
Proof.
  intros (Hnd & Hg & Hne & Hin).
  assert (Hvazio : ~ In k (map fst g) -> grupo_de k aceitas = []).
  { intros Hk. unfold grupo_de.
    destruct (filter (fun p => chave_eqb (fst p) k) aceitas) as [| p l] eqn:E;
      [reflexivity |].
    assert (Hp : In p (filter (fun p => chave_eqb (fst p) k) aceitas))
      by (rewrite E; now left).
    apply filter_In in Hp as [Hp Hk']. apply chave_eqb_eq in Hk'.
    subst k. now destruct (Hk (Hin p Hp)). }
  split; [| split; [| split]].
  - clear Hg Hne Hin Hvazio.
    induction g as [| [k0 ts] g IH]; cbn [adicionar map fst].
    + repeat constructor. intros [].
    + destruct (chave_eqb k k0) eqn:E; [exact Hnd |].
      cbn [map fst]. inversion Hnd as [| ? ? Hk0 Hnd']; subst.
      constructor; [| now apply IH].
      rewrite adicionar_chaves. intros [-> | H]; [| contradiction].
      now rewrite chave_eqb_refl in E.
  - clear Hne Hin.
    induction g as [| [k0 ts] g IH]; cbn [adicionar].
    + constructor; [| constructor]. cbn [fst snd].
      rewrite grupo_de_snoc, chave_eqb_refl, Hvazio; [reflexivity |].
      intros [].
    + inversion Hnd as [| ? ? Hk0 Hnd']; subst.
      inversion Hg as [| ? ? Hts Hg']; subst. cbn [fst snd] in *.
      destruct (chave_eqb k k0) eqn:E.
      * apply chave_eqb_eq in E as <-. constructor.
        { cbn [fst snd]. now rewrite grupo_de_snoc, chave_eqb_refl, Hts. }
        rewrite Forall_forall in *. intros e He.
        rewrite grupo_de_snoc.
        destruct (chave_eqb k (fst e)) eqn:E'.
        { apply chave_eqb_eq in E'. subst k. destruct Hk0.
          now apply in_map. }
        rewrite app_nil_r. now apply Hg'.
      * constructor.
        { cbn [fst snd]. now rewrite grupo_de_snoc, E, app_nil_r. }
        apply IH; auto. intros Hk. apply Hvazio.
        cbn [map fst In]. intros [-> | H]; [| contradiction].
        now rewrite chave_eqb_refl in E.
  - clear Hnd Hg Hin Hvazio.
    induction g as [| [k0 ts] g IH]; cbn [adicionar].
    + constructor; [discriminate | constructor].
    + inversion Hne as [| ? ? Hts Hne']; subst.
      destruct (chave_eqb k k0).
      * constructor; [| exact Hne']. cbn [snd]. now destruct ts.
      * constructor; [exact Hts | now apply IH].
  - intros p Hp. rewrite adicionar_chaves.
    apply in_app_or in Hp as [Hp | [<- | []]]; [right; now apply Hin |].
    now left.
Qed.

Lemma agrupar_linha_agrupado (g : grupos) (row : marcacao)
    (aceitas : list (chave * datetime)) :
  agrupado g aceitas ->
  agrupado (agrupar_linha g row) (aceitas ++ marcacoes_aceitas [row]).
Proof.
  intros H. rewrite agrupar_linha_aceita. unfold marcacoes_aceitas.
  cbn [flat_map]. rewrite app_nil_r.
  destruct (marcacao_aceita row) as [[k dt] |].
  - now apply adicionar_agrupado.
  - now rewrite app_nil_r.
Qed.

Lemma fold_agrupar_agrupado (rows : list marcacao) (g : grupos)
    (aceitas : list (chave * datetime)) :
  agrupado g aceitas ->
  agrupado (fold_left agrupar_linha rows g)
    (aceitas ++ marcacoes_aceitas rows).
Proof.
  revert g aceitas. induction rows as [| row rows IH]; intros g aceitas H.
  - cbn. now rewrite app_nil_r.
  - cbn [fold_left].
    replace (marcacoes_aceitas (row :: rows))
      with (marcacoes_aceitas [row] ++ marcacoes_aceitas rows)
      by (unfold marcacoes_aceitas; cbn [flat_map]; now rewrite app_nil_r).
    rewrite app_assoc. now apply IH, agrupar_linha_agrupado.
Qed.

Lemma agrupar_agrupado (dados : list marcacao) :
  agrupado (agrupar dados) (marcacoes_aceitas dados).
Proof.
  apply (fold_agrupar_agrupado dados [] []).
  repeat split; try constructor. intros p [].
Qed.

Lemma marcacoes_aceitas_forma (dados : list marcacao) (k : chave)
    (dt : datetime) :
  In (k, dt) (marcacoes_aceitas dados) ->
  snd k = data_local dt /\ fst k <> [] /\
  exists row, In row dados /\ fst k = strip (m_cpf row) /\
    _parse_iso_dh (strip (m_dh_marcacao row)) = Some dt.
Proof.
  unfold marcacoes_aceitas. intros H.
  apply in_flat_map in H as (row & Hrow & H).
  unfold marcacao_aceita in H.
  destruct (nonempty (strip (m_cpf row))) eqn:Ec; cbn [andb] in H;
    [| contradiction].
  destruct (nonempty (strip (m_dh_marcacao row))); [| contradiction].
  destruct (_parse_iso_dh (strip (m_dh_marcacao row))) as [dt' |] eqn:Ep;
    [| contradiction].
  destruct H as [[= <- <-] | []]. cbn [fst snd].
  split; [reflexivity |]. split; [now apply nonempty_true |].
  exists row. auto.
Qed.

(** X20.  The groups of the summarizer hold exactly the punches it
    accepts: the keys (tax ID, local date) are distinct, no group is
    empty, the group of a key lists the timestamps of the accepted rows
    with that key in the order of the file, every accepted row has its
    group, and every timestamp in a group has the group's date as its
    local date.  No punch is lost, duplicated or filed under another
    day. *)
Theorem agrupar_exato (dados : list marcacao) :
  let g := agrupar dados in
  let aceitas := marcacoes_aceitas dados in
  NoDup (map fst g) /\
  (forall k ts, In (k, ts) g -> ts <> [] /\ ts = grupo_de k aceitas) /\
  (forall k dt, In (k, dt) aceitas -> exists ts, In (k, ts) g /\ In dt ts) /\
  (forall k ts dt, In (k, ts) g -> In dt ts ->
     data_local dt = snd k /\ fst k <> []).
Proof.
  intros g aceitas.
  destruct (agrupar_agrupado dados) as (Hnd & Hg & Hne & Hin).
  fold g aceitas in Hnd, Hg, Hne, Hin.
  rewrite Forall_forall in Hg, Hne.
  assert (Hmem : forall k ts dt, In (k, ts) g -> In dt ts ->
                   In (k, dt) aceitas).
  { intros k ts dt Hk Hdt. specialize (Hg _ Hk). cbn [fst snd] in Hg.
    rewrite Hg in Hdt. unfold grupo_de in Hdt.
    apply in_map_iff in Hdt as ([k' dt'] & Heq & Hf). cbn [snd] in Heq.
    subst dt'. apply filter_In in Hf as [Hf Hk'].
    apply chave_eqb_eq in Hk'. cbn [fst] in Hk'. now subst k'. }
  split; [exact Hnd |]. split; [| split].
  - intros k ts Hk. split; [apply (Hne _ Hk) | apply (Hg _ Hk)].
  - intros k dt Hp. specialize (Hin _ Hp). cbn [fst] in Hin.
    apply in_map_iff in Hin as ([k' ts] & Heq & Hk). cbn [fst] in Heq.
    subst k'. exists ts. split; [exact Hk |].
    pose proof (Hg _ Hk) as Hts. cbn [fst snd] in Hts. rewrite Hts.
    unfold grupo_de.
    apply in_map_iff. exists (k, dt). split; [reflexivity |].
    apply filter_In. split; [exact Hp | apply chave_eqb_refl].
  - intros k ts dt Hk Hdt.
    destruct (marcacoes_aceitas_forma dados k dt (Hmem _ _ _ Hk Hdt))
      as (H1 & H2 & _).
    split; [now symmetry | exact H2].
Qed.

Lemma str_ltb_asym (a b : str) : str_ltb a b = true -> str_ltb b a = false.
Proof.
  revert b. induction a as [| x a IH]; intros [| y b]; cbn [str_ltb];
    try discriminate; try reflexivity.
  destruct (N.ltb_spec (ord x) (ord y)), (N.ltb_spec (ord y) (ord x));
    try lia; try discriminate; try reflexivity.
  apply IH.
Qed.

Lemma par_str_ltb_asym (a b : str * str) :
  par_str_ltb a b = true -> par_str_ltb b a = false.
Proof.
  unfold par_str_ltb.
  destruct (str_ltb (fst a) (fst b)) eqn:E1.
  - intros _. now rewrite (str_ltb_asym _ _ E1).
  - destruct (str_ltb (fst b) (fst a)) eqn:E2; [discriminate |].
    apply str_ltb_asym.
Qed.

Lemma jornada_ltb_asym (o : ordenacao) (a b : jornada) :
  jornada_ltb o a b = true -> jornada_ltb o b a = false.
Proof. destruct o; apply par_str_ltb_asym. Qed.

Section SortAsym.
Context {A : Type} (lt : A -> A -> bool).
Hypothesis lt_asym : forall a b, lt a b = true -> lt b a = false.

Let nao_depois (a b : A) : Prop := lt b a = false.

Lemma insert_by_Sorted_asym (x : A) (l : list A) :
  Sorted nao_depois l -> Sorted nao_depois (insert_by lt x l).
Proof.
  induction 1 as [| y l Hs IH Hhd]; cbn [insert_by]; [repeat constructor |].
  destruct (lt y x) eqn:E.
  - constructor; [exact IH |].
    destruct l as [| z l]; cbn [insert_by].
    + constructor. now apply lt_asym.
    + inversion Hhd; subst. destruct (lt z x); constructor;
        [assumption | now apply lt_asym].
  - constructor; [now constructor | constructor; exact E].
Qed.

Lemma sort_by_Sorted_asym (l : list A) : Sorted nao_depois (sort_by lt l).
Proof.
  unfold sort_by. induction l as [| x l IH]; cbn [fold_right];
    [constructor | now apply insert_by_Sorted_asym].
Qed.

End SortAsym.

Lemma montar_linha_chave (n_pares : nat) (k : chave) (ts : list datetime) :
  chave_da_jornada (montar_linha n_pares (k, ts)) = k /\
  length (j_pares (montar_linha n_pares (k, ts))) = n_pares.
Proof.
  destruct k as [c d]. rewrite montar_linha_spec. cbn.
  split; [reflexivity |]. now rewrite length_map, length_seq.
Qed.

Lemma map_chave_montar (n_pares : nat) (g : grupos) :
  map chave_da_jornada (map (montar_linha n_pares) g) = map fst g.
Proof.
  rewrite map_map. apply map_ext. intros [k ts].
  apply montar_linha_chave.
Qed.

(** X21.  The summary has one row for each (tax ID, local date) group and
    no other: the rows are a rearrangement of the rows built from the
    groups, their keys are pairwise distinct, every row has exactly
    [n_pares] entry/exit slots, no row is followed by one that the
    chosen ordering puts before it, and the two orderings give the same
    rows in a different order. *)
Theorem jornadas_uma_por_grupo (dados : list marcacao) (n_pares : nat)
    (o : ordenacao) :
  let rows := gerar_jornadas_por_cpf dados n_pares o in
  Permutation rows (map (montar_linha n_pares) (agrupar dados)) /\
  Permutation (map chave_da_jornada rows) (map fst (agrupar dados)) /\
  NoDup (map chave_da_jornada rows) /\
  Forall (fun j => length (j_pares j) = n_pares) rows /\
  Sorted (fun a b => jornada_ltb o b a = false) rows /\
  Permutation (gerar_jornadas_por_cpf dados n_pares data_cpf)
    (gerar_jornadas_por_cpf dados n_pares cpf_data).
Proof.
  intros rows. subst rows. unfold gerar_jornadas_por_cpf.
  assert (Hp : forall o', Permutation
            (sort_by (jornada_ltb o') (map (montar_linha n_pares) (agrupar dados)))
            (map (montar_linha n_pares) (agrupar dados)))
    by (intros o'; symmetry; apply sort_by_Permutation).
  assert (Hk : Permutation
            (map chave_da_jornada
               (sort_by (jornada_ltb o)
                  (map (montar_linha n_pares) (agrupar dados))))
            (map fst (agrupar dados))).
  { rewrite <- (map_chave_montar n_pares). apply Permutation_map, Hp. }
  split; [apply Hp |]. split; [exact Hk |]. split; [| split; [| split]].
  - apply (Permutation_NoDup (Permutation_sym Hk)).
    apply (agrupar_agrupado dados).
  - apply Forall_forall. intros j Hj.
    apply (Permutation_in _ (Hp o)) in Hj.
    apply in_map_iff in Hj as ([k ts] & <- & _).
    apply montar_linha_chave.
  - apply sort_by_Sorted_asym. apply jornada_ltb_asym.
  - rewrite (Hp data_cpf). symmetry. apply Hp.
Qed.

(* ===================================================================== *)
(** * Further properties: decimal numerals, durations and dates          *)
(* ===================================================================== *)

Section Decimal.
Local Open Scope Z_scope.

Lemma lt_10_cases (d : N) :
  (d < 10)%N -> In d [0; 1; 2; 3; 4; 5; 6; 7; 8; 9]%N.
Proof.
  intros Hd. rewrite <- (N2Nat.id d).
  assert (H : (N.to_nat d < 10)%nat) by lia.
  revert H. generalize (N.to_nat d). intros n Hn.
  do 10 (destruct n as [| n]; [simpl; tauto |]). lia.
Qed.

Lemma dec_digit_val (d : N) :
  (d < 10)%N -> digit_val (dec_digit d) = Z.of_N d /\
                isdecimal (dec_digit d) = true.
Proof.
  intros Hd. apply lt_10_cases in Hd. simpl in Hd.
  repeat (destruct Hd as [<- | Hd]; [split; reflexivity |]). contradiction.
Qed.

Lemma isdecimal_digit_val (c : ascii) :
  isdecimal c = true -> 0 <= digit_val c <= 9 /\
                        ord c = (48 + Z.to_N (digit_val c))%N.
Proof.
  unfold isdecimal, between, digit_val.
  destruct (N.leb_spec 48 (ord c)), (N.leb_spec (ord c) 57);
    cbn [andb]; intros Hx; try discriminate Hx. lia.
Qed.

Lemma valor_acc (s : str) (acc : Z) :
  fold_left dec_step s acc = acc * 10 ^ Z.of_nat (length s) + valor s.
Proof.
  unfold valor. revert acc. induction s as [| c s IH]; intros acc.
  - cbn. lia.
  - cbn [fold_left length]. rewrite IH, (IH (dec_step 0 c)).
    unfold dec_step. rewrite Nat2Z.inj_succ, Z.pow_succ_r by lia. lia.
Qed.

Lemma valor_cons (c : ascii) (s : str) :
  valor (c :: s) = digit_val c * 10 ^ Z.of_nat (length s) + valor s.
Proof.
  unfold valor at 1. cbn [fold_left]. rewrite valor_acc.
  unfold dec_step. lia.
Qed.

Lemma valor_snoc (s : str) (c : ascii) :
  valor (s ++ [c]) = 10 * valor s + digit_val c.
Proof. unfold valor. now rewrite fold_left_app. Qed.

Lemma valor_bound (s : str) :
  forallb isdecimal s = true -> 0 <= valor s < 10 ^ Z.of_nat (length s).
Proof.
  induction s as [| c s IH]; [cbn; lia |]. cbn [forallb].
  intros H. apply andb_true_iff in H as [Hc Hs].
  specialize (IH Hs). apply isdecimal_digit_val in Hc as [Hc _].
  rewrite valor_cons. cbn [length].
  rewrite Nat2Z.inj_succ, Z.pow_succ_r by lia. nia.
Qed.

(** Two numerals of the same width that write the same number are the
    same text. *)
Lemma valor_inj (s t : str) :
  length s = length t ->
  forallb isdecimal s = true -> forallb isdecimal t = true ->
  valor s = valor t -> s = t.
Proof.
  revert t. induction s as [| c s IH]; intros [| d t] Hl Hs Ht Hv;
    try discriminate; [reflexivity |].
  cbn [forallb length] in *. injection Hl as Hl.
  apply andb_true_iff in Hs as [Hc Hs]. apply andb_true_iff in Ht as [Hd Ht].
  rewrite !valor_cons, Hl in Hv.
  pose proof (valor_bound s Hs) as Bs. pose proof (valor_bound t Ht) as Bt.
  rewrite Hl in Bs.
  apply isdecimal_digit_val in Hc as [Hc Oc].
  apply isdecimal_digit_val in Hd as [Hd Od].
  assert (Hcd : digit_val c = digit_val d) by nia.
  f_equal.
  - apply ord_inj. now rewrite Oc, Od, Hcd.
  - apply IH; auto. rewrite Hcd in Hv. lia.
Qed.

Lemma valor_rev_dec_rev (fuel : nat) (n : N) :
  (n < 10 ^ N.of_nat fuel)%N ->
  valor (rev (dec_rev fuel n)) = Z.of_N n /\
  forallb isdecimal (dec_rev fuel n) = true.
Proof.
  revert n. induction fuel as [| fuel IH]; intros n Hn.
  - simpl in Hn. assert (n = 0%N) by lia. subst. split; reflexivity.
  - cbn [dec_rev]. destruct (N.ltb_spec n 10) as [Hlt | Hge].
    + destruct (dec_digit_val n Hlt) as [Hv Hd].
      cbn [rev app forallb]. rewrite Hd. split; [| reflexivity].
      unfold valor. cbn [fold_left]. unfold dec_step. lia.
    + assert (Hm : (n mod 10 < 10)%N) by (apply N.mod_upper_bound; lia).
      destruct (dec_digit_val _ Hm) as [Hv Hd].
      destruct (IH (n / 10)%N) as [IHv IHd].
      { apply N.Div0.div_lt_upper_bound.
        rewrite Nat2N.inj_succ, N.pow_succ_r' in Hn. exact Hn. }
      cbn [rev forallb]. rewrite valor_snoc, IHv, Hv, Hd, IHd.
      split; [| reflexivity].
      rewrite (N.div_mod' n 10) at 3. lia.
Qed.

Lemma dec_rev_length (fuel : nat) (n : N) (k : nat) :
  (n < 10 ^ N.of_nat (S k))%N -> (length (dec_rev fuel n) <= S k)%nat.
Proof.
  revert n k. induction fuel as [| fuel IH]; intros n k Hn; [simpl; lia |].
  cbn [dec_rev]. destruct (N.ltb_spec n 10) as [Hlt | Hge]; [simpl; lia |].
  destruct k as [| k]; [change (10 ^ N.of_nat 1)%N with 10%N in Hn; lia |].
  cbn [length]. apply le_n_S, IH.
  apply N.Div0.div_lt_upper_bound.
  rewrite Nat2N.inj_succ, N.pow_succ_r' in Hn. exact Hn.
Qed.

Lemma dec_rev_nonempty (fuel : nat) (n : N) :
  (1 <= length (dec_rev (S fuel) n))%nat.
Proof. cbn [dec_rev]. destruct (n <? 10)%N; simpl; lia. Qed.

Lemma size_fuel_10 (n : N) : (n < 10 ^ N.of_nat (S (N.to_nat (N.size n))))%N.
Proof.
  rewrite Nat2N.inj_succ, N2Nat.id.
  eapply N.lt_le_trans; [apply N.size_gt |].
  eapply N.le_trans; [| apply N.pow_le_mono_r; [lia | apply N.le_succ_diag_r]].
  apply N.pow_le_mono_l. lia.
Qed.

Lemma valor_zeros (k : nat) (s : str) :
  valor (repeat "0"%char k ++ s) = valor s.
Proof.
  unfold valor. rewrite fold_left_app. f_equal.
  induction k as [| k IH]; simpl; [reflexivity | exact IH].
Qed.

(** What [f"{n:0{k}d}"] writes: decimal digits that read back as [n], at
    least [k] of them and exactly [k] when [n] has no more digits. *)
Lemma format_0d_spec (k : nat) (n : N) :
  valor (format_0d k n) = Z.of_N n /\
  forallb isdecimal (format_0d k n) = true /\
  (k <= length (format_0d k n))%nat /\
  ((1 <= k)%nat -> (n < 10 ^ N.of_nat k)%N ->
   length (format_0d k n) = k).
Proof.
  unfold format_0d, zero_pad.
  destruct (valor_rev_dec_rev _ n (size_fuel_10 n)) as [Hv Hd].
  split; [now rewrite valor_zeros |]. split.
  { rewrite forallb_app, forallb_repeat by reflexivity.
    now rewrite forallb_rev_eq. }
  rewrite length_app, repeat_length, length_rev. split; [lia |].
  intros Hk Hn. destruct k as [| k]; [lia |].
  pose proof (dec_rev_length (S (N.to_nat (N.size n))) n k Hn). lia.
Qed.

(** Writing the number of a numeral with its own width gives it back. *)
Lemma format_0d_valor (k : nat) (ds : str) :
  (1 <= k)%nat -> decimais k ds = true ->
  format_0d k (Z.to_N (valor ds)) = ds.
Proof.
  intros Hk Hd. unfold decimais in Hd. apply andb_true_iff in Hd as [Hl Hd].
  apply Nat.eqb_eq in Hl.
  pose proof (valor_bound ds Hd) as Hb. rewrite Hl in Hb.
  destruct (format_0d_spec k (Z.to_N (valor ds))) as (Hv & Hdec & _ & Hlen).
  apply valor_inj; auto.
  - rewrite Hl. apply Hlen; [exact Hk |].
    apply N2Z.inj_lt. rewrite Z2N.id, N2Z.inj_pow by lia.
    now rewrite nat_N_Z.
  - rewrite Hv. lia.
Qed.

End Decimal.

(** X22.  [_format_td_hhmm] writes hours, a colon and minutes in decimal
    digits that read back as the whole hours and the remaining whole
    minutes of the duration, a negative duration counting as zero: the
    minutes take two digits and stay below 60, the hours take at least
    two digits and are not wrapped at 24, and seconds are dropped. *)
Theorem format_td_hhmm_decode (td : timedelta) :
  let t := Z.max td 0 in
  exists hh mm,
    _format_td_hhmm td = hh ++ lit ":" ++ mm /\
    forallb isdecimal hh = true /\ decimais 2 mm = true /\
    (2 <= length hh)%nat /\ (t < 360000 -> length hh = 2%nat)%Z /\
    (valor hh = t / 3600)%Z /\ (valor mm = (t mod 3600) / 60)%Z /\
    (valor mm <= 59)%Z /\
    (3600 * valor hh + 60 * valor mm <= t
     < 3600 * valor hh + 60 * valor mm + 60)%Z /\
    (td <= 0 -> _format_td_hhmm td = lit "00:00")%Z.
Proof.
  intros t. unfold _format_td_hhmm.
  replace (if (td <? 0)%Z then 0%Z else td) with t
    by (subst t; destruct (Z.ltb_spec td 0); lia).
  assert (Ht : (0 <= t)%Z) by (subst t; lia).
  assert (Hm : (0 <= (t mod 3600) / 60 < 60)%Z).
  { pose proof (Z.mod_pos_bound t 3600 ltac:(lia)) as Hb.
    split; [apply Z.div_pos; lia | apply Z.div_lt_upper_bound; lia]. }
  assert (Hh : (0 <= t / 3600)%Z) by (apply Z.div_pos; lia).
  destruct (format_0d_spec 2 (Z.to_N (t / 3600))) as (Hv1 & Hd1 & Hl1 & Hk1).
  destruct (format_0d_spec 2 (Z.to_N ((t mod 3600) / 60)))
    as (Hv2 & Hd2 & _ & Hk2).
  rewrite Z2N.id in Hv1, Hv2 by lia.
  exists (format_0d 2 (Z.to_N (t / 3600))),
    (format_0d 2 (Z.to_N ((t mod 3600) / 60))).
  split; [reflexivity |]. split; [exact Hd1 |]. split.
  { unfold decimais. rewrite Hd2, Hk2; [reflexivity | lia |].
    change (10 ^ N.of_nat 2)%N with 100%N. lia. }
  split; [exact Hl1 |]. split.
  { intros Hlt. apply Hk1; [lia |].
    change (10 ^ N.of_nat 2)%N with 100%N.
    assert (t / 3600 < 100)%Z by (apply Z.div_lt_upper_bound; lia). lia. }
  split; [exact Hv1 |]. split; [exact Hv2 |]. split; [lia |]. split.
  { rewrite Hv1, Hv2.
    pose proof (Z.div_mod t 3600 ltac:(lia)) as E1.
    pose proof (Z.div_mod (t mod 3600) 60 ltac:(lia)) as E2.
    pose proof (Z.mod_pos_bound (t mod 3600) 60 ltac:(lia)) as B2. lia. }
  intros Hneg. assert (t = 0%Z) by (subst t; lia).
  replace t with 0%Z. reflexivity.
Qed.

Section ParseOficial.
Local Open Scope Z_scope.

Lemma read_decimals_app (k : nat) (ds r : str) (acc : Z) :
  decimais k ds = true ->
  read_decimals k acc (ds ++ r) = Some (fold_left dec_step ds acc, r).
Proof.
  unfold decimais. revert ds acc.
  induction k as [| k IH]; intros [| c ds] acc H;
    cbn [length Nat.eqb andb] in H; try discriminate; [reflexivity |].
  cbn [forallb] in H. apply andb_true_iff in H as [Hl H].
  apply andb_true_iff in H as [Hc H].
  cbn [app read_decimals fold_left]. rewrite Hc. unfold dec_step at 2.
  apply IH. now rewrite Hl, H.
Qed.

Lemma decimais_4_split (z : str) :
  decimais 4 z = true ->
  z = columns z 1 2 ++ columns z 3 4 /\
  decimais 2 (columns z 1 2) = true /\ decimais 2 (columns z 3 4) = true.
Proof.
  unfold decimais. intros H. apply andb_true_iff in H as [Hl H].
  apply Nat.eqb_eq in Hl. explode_list Hl. cbn [forallb] in H.
  repeat (apply andb_true_iff in H as [? H]).
  unfold columns. cbn [Nat.sub firstn skipn app length Nat.eqb forallb andb].
  repeat match goal with Hx : isdecimal _ = true |- _ => rewrite Hx; clear Hx end.
  auto.
Qed.

Lemma read_sign_is_sign (sg : ascii) (r : str) :
  is_sign sg = true ->
  read_sign (sg :: r) = Some (if (ord sg =? 45)%N then -1 else 1, r).
Proof.
  unfold is_sign, read_sign.
  destruct (N.eqb_spec (ord sg) 43) as [E | E].
  - rewrite E. reflexivity.
  - cbn [orb]. now intros ->.
Qed.

(** [strptime] on a timestamp of the official shape succeeds exactly when
    its fields are real, and returns them. *)
Lemma _parse_iso_dh_iso_dh (y m d h n : str) (sg : ascii) (z : str) :
  decimais 4 y = true -> decimais 2 m = true -> decimais 2 d = true ->
  decimais 2 h = true -> decimais 2 n = true -> is_sign sg = true ->
  decimais 4 z = true ->
  _parse_iso_dh (iso_dh y m d h n sg z)
  = if campos_reais y m d h n z
    then Some (mkDatetime (valor y) (valor m) (valor d) (valor h) (valor n)
                 (deslocamento sg z))
    else None.
Proof.
  intros Hy Hm Hd Hh Hn Hs Hz.
  destruct (decimais_4_split z Hz) as (Ez & Hz1 & Hz2).
  unfold _parse_iso_dh, iso_dh, campos_reais, deslocamento.
  rewrite Ez at 1.
  rewrite (read_decimals_app 4 y _ 0 Hy). cbn [and_then].
  rewrite match_lit_app. cbn [and_then].
  rewrite (read_decimals_app 2 m _ 0 Hm). cbn [and_then].
  rewrite match_lit_app. cbn [and_then].
  rewrite (read_decimals_app 2 d _ 0 Hd). cbn [and_then].
  rewrite match_lit_app. cbn [and_then].
  rewrite (read_decimals_app 2 h _ 0 Hh). cbn [and_then].
  rewrite match_lit_app. cbn [and_then].
  rewrite (read_decimals_app 2 n _ 0 Hn). cbn [and_then].
  rewrite match_lit_app. cbn [and_then].
  rewrite (read_sign_is_sign sg _ Hs). cbn [and_then].
  rewrite (read_decimals_app 2 _ _ 0 Hz1). cbn [and_then].
  rewrite <- (app_nil_r (columns z 3 4)) at 1.
  rewrite (read_decimals_app 2 _ _ 0 Hz2). cbn [and_then nonempty negb guard].
  fold (valor y) (valor m) (valor d) (valor h) (valor n)
    (valor (columns z 1 2)) (valor (columns z 3 4)).
  pose proof (days_in_month_le_31 (valor y) (valor m)) as Hdim.
  assert (H0 : 0 <= valor (columns z 3 4)).
  { apply valor_bound. unfold decimais in Hz2.
    now apply andb_true_iff in Hz2 as [_ Hz2]. }
  set (Y := valor y) in *. set (M := valor m) in *. set (D := valor d) in *.
  set (HH := valor h) in *. set (NN := valor n) in *.
  set (ZH := valor (columns z 1 2)) in *.
  set (ZM := valor (columns z 3 4)) in *.
  set (DIM := days_in_month Y M) in *.
  clearbody Y M D HH NN ZH ZM DIM.
  destruct (Z.leb_spec 1 Y), (Z.leb_spec 1 M), (Z.leb_spec M 12),
    (Z.leb_spec 1 D), (Z.leb_spec D DIM), (Z.leb_spec D 31),
    (Z.leb_spec HH 23), (Z.leb_spec NN 59), (Z.leb_spec ZM 59),
    (Z.leb_spec ZH 23), (Z.ltb_spec (ZH * 3600 + ZM * 60) 86400);
    cbn [andb and_then guard]; try reflexivity; lia.
Qed.

Lemma data_local_campos (y m d : str) (H N O : Z) :
  decimais 4 y = true -> decimais 2 m = true -> decimais 2 d = true ->
  data_local (mkDatetime (valor y) (valor m) (valor d) H N O) = iso_d y m d.
Proof.
  intros Hy Hm Hd. unfold data_local, iso_d. cbn [year month day].
  now rewrite !format_0d_valor by (auto; lia).
Qed.

Lemma firstn_10_iso_dh (y m d h n : str) (sg : ascii) (z : str) :
  decimais 4 y = true -> decimais 2 m = true -> decimais 2 d = true ->
  firstn 10 (iso_dh y m d h n sg z) = iso_d y m d.
Proof.
  unfold decimais. intros Hy Hm Hd.
  apply andb_true_iff in Hy as [Hy _]. apply andb_true_iff in Hm as [Hm _].
  apply andb_true_iff in Hd as [Hd _]. apply Nat.eqb_eq in Hy, Hm, Hd.
  explode_list Hy. explode_list Hm. explode_list Hd. reflexivity.
Qed.

End ParseOficial.

Lemma isdecimal_not_space (c : ascii) : isdecimal c = true -> isspace c = false.
Proof. intros H. now apply isdigit_not_space, isdecimal_isdigit. Qed.

Lemma decimais_explode_4 (s : str) :
  decimais 4 s = true ->
  exists a b c d, s = [a; b; c; d] /\ isdecimal a = true /\ isdecimal d = true.
Proof.
  unfold decimais. intros H. apply andb_true_iff in H as [Hl H].
  apply Nat.eqb_eq in Hl. explode_list Hl. cbn [forallb] in H.
  repeat (apply andb_true_iff in H as [? H]). eauto 10.
Qed.

(** A timestamp of the official shape has no white space to strip. *)
Lemma strip_iso_dh (s : str) : _is_iso_dh s = true -> strip s = s.
Proof.
  intros H. apply _is_iso_dh_iff in H
    as (y & m & d & h & n & sg & z & -> & Hy & _ & _ & _ & _ & _ & Hz).
  apply decimais_explode_4 in Hy as (y1 & y2 & y3 & y4 & -> & Hy1 & _).
  apply decimais_explode_4 in Hz as (z1 & z2 & z3 & z4 & -> & _ & Hz4).
  unfold iso_dh. cbn [app].
  apply strip_id; [now apply isdecimal_not_space |].
  repeat rewrite app_comm_cons.
  replace (sg :: [z1; z2; z3; z4]) with ([sg; z1; z2; z3] ++ [z4])
    by reflexivity.
  rewrite !app_assoc, last_last. now apply isdecimal_not_space.
Qed.

(** The local date of a parsed timestamp of the official shape is the
    date it writes: its first ten characters.  The offset does not move
    the day. *)
Lemma data_local_iso_dh (s : str) (dt : datetime) :
  _is_iso_dh s = true -> _parse_iso_dh s = Some dt ->
  data_local dt = firstn 10 s.
Proof.
  intros H Hp. apply _is_iso_dh_iff in H
    as (y & m & d & h & n & sg & z & -> & Hy & Hm & Hd & Hh & Hn & Hs & Hz).
  rewrite _parse_iso_dh_iso_dh in Hp by assumption.
  destruct (campos_reais y m d h n z); [| discriminate].
  injection Hp as <-.
  now rewrite data_local_campos, firstn_10_iso_dh.
Qed.

Lemma firstn_10_carimbo (d h : str) :
  length d = 8%nat -> length h = 4%nat ->
  firstn 10 (carimbo d h) = data_iso d.
Proof. intros Hd Hh. explode_list Hd. explode_list Hh. reflexivity. Qed.

(** X23.  The day a punch is filed under is the date written in its
    line.  For a type-3 record whose timestamp the summarizer parses, the
    local date used as grouping key is the first ten characters of the
    timestamp, whatever the UTC offset: columns 11-20 of the line in the
    official layout, the [DDMMAAAA] date of columns 11-18 rewritten as
    [AAAA-MM-DD] in the compact layout. *)
Theorem data_da_marcacao (line : str) (r : Registro3) (dt : datetime) :
  parse_tipo3 line = Ok r ->
  _parse_iso_dh (strip (dh_marcacao r)) = Some dt ->
  strip (dh_marcacao r) = dh_marcacao r /\
  data_local dt = firstn 10 (dh_marcacao r) /\
  (fmt r = oficial -> data_local dt = columns line 11 20) /\
  (fmt r = compacto -> data_local dt = data_iso (columns line 11 18)).
Proof.
  unfold parse_tipo3, try_fallback. intros H Hp.
  destruct (parse_registro3_oficial line) as [r1 | e1] eqn:E1.
  - injection H as ->.
    apply parse_registro3_oficial_inv in E1 as (Hlen & Hiso & n & _ & ->).
    cbn [dh_marcacao fmt] in *.
    rewrite (strip_iso_dh _ Hiso) in *.
    pose proof (data_local_iso_dh _ _ Hiso Hp) as Hd.
    split; [reflexivity |]. split; [exact Hd |]. split; [| discriminate].
    intros _. rewrite Hd.
    rewrite (_slice_columns_lit line 11 34 11%Z 34%Z) by (auto; lia).
    unfold columns. cbn [Nat.sub]. rewrite firstn_firstn. reflexivity.
  - destruct (parse_registro3_compacto line) as [r2 | e2] eqn:E2;
      [| discriminate].
    injection H as ->.
    apply parse_registro3_compacto_inv in E2
      as (Hlen & Hd & Hh & n & c & _ & _ & ->).
    cbn [dh_marcacao fmt] in *.
    assert (Hl8 : length (columns line 11 18) = 8%nat)
      by (rewrite columns_length by lia; reflexivity).
    assert (Hl4 : length (columns line 19 22) = 4%nat)
      by (rewrite columns_length by lia; reflexivity).
    rewrite (strip_carimbo _ _ Hl8 Hl4 Hd) in *.
    assert (Hiso : _is_iso_dh (carimbo (columns line 11 18)
                                 (columns line 19 22)) = true).
    { rewrite (_is_iso_dh_carimbo _ _ Hl8 Hl4), forallb_app.
      rewrite (_parse_iso_dh_carimbo _ _ Hl8 Hl4) in Hp.
      unfold data_hora_real in Hp.
      destruct (forallb isdecimal (columns line 11 18)),
        (forallb isdecimal (columns line 19 22)); try discriminate Hp.
      reflexivity. }
    pose proof (data_local_iso_dh _ _ Hiso Hp) as Hdl.
    split; [reflexivity |]. split; [exact Hdl |]. split; [discriminate |].
    intros _. rewrite Hdl. now apply firstn_10_carimbo.
Qed.

Lemma data_da_marcacao_witness :
  exists r dt, parse_tipo3 Exemplos.oficial_1 = Ok r /\
    _parse_iso_dh (strip (dh_marcacao r)) = Some dt /\
    data_local dt = columns Exemplos.oficial_1 11 20.
Proof.
  assert (Hr : parse_tipo3 Exemplos.oficial_1
               = Ok (mkRegistro3 1 (lit "3") (lit "2025-07-16T18:22:00-0300")
                       (lit "123456789012") (Some (code_points (lit "CC1A")))
                       (Some true) oficial))
    by (vm_compute; reflexivity).
  assert (Hd : _parse_iso_dh (strip (lit "2025-07-16T18:22:00-0300"))
               = Some (mkDatetime 2025 7 16 18 22 (-10800)))
    by (vm_compute; reflexivity).
  eexists _, _. split; [exact Hr |]. split; [exact Hd |].
  exact (proj1 (proj2 (proj2 (data_da_marcacao _ _ _ Hr Hd))) eq_refl).
Defined.

(* ===================================================================== *)
(** * Further properties: from the file to the summary                   *)
(* ===================================================================== *)

Lemma parse_tipo3_forma (line : str) (r : Registro3) :
  parse_tipo3 line = Ok r ->
  strip (cpf r) = cpf r /\
  forall dt, _parse_iso_dh (strip (dh_marcacao r)) = Some dt ->
             data_local dt = firstn 10 (dh_marcacao r).
Proof.
  unfold parse_tipo3, try_fallback. intros H.
  destruct (parse_registro3_oficial line) as [r1 | e1] eqn:E1.
  - injection H as ->.
    apply parse_registro3_oficial_inv in E1 as (_ & Hiso & n & _ & ->).
    cbn [dh_marcacao cpf]. split; [apply strip_idem |].
    intros dt Hp. rewrite (strip_iso_dh _ Hiso) in Hp.
    now apply data_local_iso_dh.
  - destruct (parse_registro3_compacto line) as [r2 | e2] eqn:E2;
      [| discriminate].
    injection H as ->.
    apply parse_registro3_compacto_inv in E2
      as (Hlen & Hd & Hh & n & c & _ & _ & ->).
    cbn [dh_marcacao cpf]. split; [apply strip_idem |].
    assert (Hl8 : length (columns line 11 18) = 8%nat)
      by (rewrite columns_length by lia; reflexivity).
    assert (Hl4 : length (columns line 19 22) = 4%nat)
      by (rewrite columns_length by lia; reflexivity).
    intros dt Hp. rewrite (strip_carimbo _ _ Hl8 Hl4 Hd) in Hp.
    apply data_local_iso_dh; [| exact Hp].
    rewrite (_is_iso_dh_carimbo _ _ Hl8 Hl4), forallb_app.
    rewrite (_parse_iso_dh_carimbo _ _ Hl8 Hl4) in Hp.
    unfold data_hora_real in Hp.
    destruct (forallb isdecimal (columns line 11 18)),
      (forallb isdecimal (columns line 19 22)); try discriminate Hp.
    reflexivity.
Qed.

(** X24.  Every row of the summary of a document comes from a punch of
    bucket 3: its tax ID is the tax ID of some type-3 record, which is
    not empty, its date is the first ten characters of that record's
    timestamp, and it has [n_pares] slots.  Nothing but type-3 records
    reaches the summary. *)
Theorem jornadas_do_documento (raw : list Byte.byte) (d : documento)
    (n_pares : nat) (o : ordenacao) (j : jornada) :
  interpretar_afd raw = Ok d ->
  In j (gerar_jornadas_por_cpf (exportar_marcacoes_tipo3 d) n_pares o) ->
  exists r,
    In r (b3 (registros_por_tipo d)) /\
    j_cpf j = cpf r /\ cpf r <> [] /\
    j_data j = firstn 10 (dh_marcacao r) /\
    length (j_pares j) = n_pares.
Proof.
  intros H Hj. unfold gerar_jornadas_por_cpf in Hj.
  apply (Permutation_in _ (Permutation_sym (sort_by_Permutation _ _))) in Hj.
  apply in_map_iff in Hj as ([k ts] & <- & Hg).
  destruct (montar_linha_chave n_pares k ts) as [Hk Hn].
  assert (Hk1 : j_cpf (montar_linha n_pares (k, ts)) = fst k)
    by (rewrite <- Hk at 2; reflexivity).
  assert (Hk2 : j_data (montar_linha n_pares (k, ts)) = snd k)
    by (rewrite <- Hk at 2; reflexivity).
  clear Hk.
  destruct (agrupar_agrupado (exportar_marcacoes_tipo3 d))
    as (_ & Hts & Hne & _).
  rewrite Forall_forall in Hts, Hne.
  pose proof (Hts _ Hg) as Ets. pose proof (Hne _ Hg) as Nts.
  cbn [fst snd] in Ets, Nts.
  destruct ts as [| dt ts]; [contradiction |].
  assert (Hin : In dt (grupo_de k (marcacoes_aceitas
                                     (exportar_marcacoes_tipo3 d))))
    by (rewrite <- Ets; now left).
  unfold grupo_de in Hin.
  apply in_map_iff in Hin as ([k' dt'] & Heq & Hf). cbn [snd] in Heq.
  subst dt'. apply filter_In in Hf as [Hf Hk'].
  apply chave_eqb_eq in Hk'. cbn [fst] in Hk'. subst k'.
  apply marcacoes_aceitas_forma in Hf as (Hdata & Hcpf & row & Hrow & Hc & Hp).
  unfold exportar_marcacoes_tipo3 in Hrow.
  apply in_map_iff in Hrow as (r & <- & Hr).
  cbn [exportar_marcacao m_cpf m_dh_marcacao] in Hc, Hp.
  pose proof Hr as Hr'.
  rewrite (registros_por_tipo_linhas raw d H) in Hr'.
  cbn [registros_das_linhas b3] in Hr'.
  apply sucessos_inv in Hr' as (line & _ & _ & Hparse).
  destruct (parse_tipo3_forma line r Hparse) as [Hs Hd].
  exists r. split; [exact Hr |].
  rewrite Hs in Hc. rewrite Hk1, Hk2, Hdata.
  split; [exact Hc |]. split; [now rewrite <- Hc |].
  split; [now apply Hd | exact Hn].
Qed.

Lemma jornadas_do_documento_witness :
  exists d j,
    interpretar_afd Exemplos.afd_compacto = Ok d /\
    In j (gerar_jornadas_por_cpf (exportar_marcacoes_tipo3 d) 4 data_cpf) /\
    exists r, In r (b3 (registros_por_tipo d)) /\ j_cpf j = cpf r.
Proof.
  assert (H : exists d,
             interpretar_afd Exemplos.afd_compacto = Ok d /\
             agrupar (exportar_marcacoes_tipo3 d)
             = [((lit "123456789012", lit "2025-07-16"),
                 [Exemplos.as_0800; Exemplos.as_1200])])
    by (eexists; split; [vm_compute; reflexivity | vm_compute; reflexivity]).
  destruct H as (d & H & Hg).
  assert (Hj : In (montar_linha 4 ((lit "123456789012", lit "2025-07-16"),
                                   [Exemplos.as_0800; Exemplos.as_1200]))
                 (gerar_jornadas_por_cpf (exportar_marcacoes_tipo3 d) 4
                    data_cpf)).
  { unfold gerar_jornadas_por_cpf.
    apply (Permutation_in _ (sort_by_Permutation _ _)).
    rewrite Hg. left. reflexivity. }
  exists d. eexists. split; [exact H |]. split; [exact Hj |].
  destruct (jornadas_do_documento _ d 4 data_cpf _ H Hj)
    as (r & Hr & Hc & _).
  exists r. split; [exact Hr | exact Hc].
Defined.

Lemma ultimo_None {A} (l : list A) : ultimo l None = None -> l = [].
Proof.
  destruct l as [| x l]; [reflexivity |]. unfold ultimo. cbn [fold_left].
  assert (H : forall (l : list A) (y : A),
            fold_left (fun _ z => Some z) l (Some y) <> None).
  { clear. induction l as [| z l IH]; intros y; [discriminate |].
    cbn [fold_left]. apply IH. }
  intros E. now destruct (H l x).
Qed.

(** X25.  When the interpreter gives up because nothing was interpreted,
    every non-blank line of the file has produced exactly one entry of
    the error list, so the examples the exception carries are the first
    three of as many errors as there are lines, and there is at least
    one. *)
Theorem nenhum_registro_um_erro_por_linha (raw : list Byte.byte)
    (exemplos : list erro) :
  forallb nsr_decimal (linhas_classificaveis raw) = true ->
  interpretar_afd raw = Raise (ValueError_nenhum_registro exemplos) ->
  let todos := erros_estruturais raw
               ++ diagnosticos (linhas_classificaveis raw) in
  length todos = length (linhas raw) /\
  exemplos = firstn 3 todos /\ exemplos <> [] /\
  length (diagnosticos (linhas_classificaveis raw))
  = length (linhas_classificaveis raw).
Proof.
  intros Hd Hr todos.
  destruct (interpretar_afd_decimal raw Hd) as (st & Hapos & He & Hrun).
  rewrite Hrun in Hr.
  destruct (nonempty (linhas raw)) eqn:En; [| discriminate].
  destruct (algo_interpretado st) eqn:Ea; [discriminate |].
  injection Hr as <-. rewrite He. fold todos.
  unfold algo_interpretado, any_bucket in Ea.
  destruct Hapos as (A2 & A3 & A4 & A5 & A6 & A7 & Hh & Ht & _).
  cbn [estado_inicial bucket header trailer b2 b3 b4 b5 b6 b7 app]
    in A2, A3, A4, A5, A6, A7, Hh, Ht.
  assert (Hzero : registros_contados (linhas_classificaveis raw) = 0%nat).
  { unfold registros_contados.
    rewrite <- A2, <- A3, <- A4, <- A5, <- A6, <- A7.
    destruct (header st); [cbn in Ea; rewrite !orb_true_r in Ea;
                           try discriminate Ea;
                           destruct (nonempty _ || _); discriminate |].
    destruct (trailer st);
      [cbn in Ea; rewrite ?orb_true_r in Ea; discriminate |].
    symmetry in Hh, Ht. apply ultimo_None in Hh, Ht. rewrite Hh, Ht.
    destruct (b2 (bucket st)), (b3 (bucket st)), (b4 (bucket st)),
      (b5 (bucket st)), (b6 (bucket st)), (b7 (bucket st));
      cbn in Ea; try discriminate Ea; reflexivity. }
  assert (Hls : length (diagnosticos (linhas_classificaveis raw))
                = length (linhas_classificaveis raw)).
  { rewrite <- (linhas_efeitos (linhas_classificaveis raw)), Hzero;
      [reflexivity | apply classificaveis_len]. }
  assert (Hlen : length todos = length (linhas raw)).
  { subst todos. rewrite length_app, Hls. unfold erros_estruturais.
    rewrite length_map.
    pose proof (filter_partition_length classificavel (linhas raw)) as Hp.
    fold (linhas_classificaveis raw) in Hp. lia. }
  split; [exact Hlen |]. split; [reflexivity |]. split; [| exact Hls].
  destruct (linhas raw) as [| l ls]; [discriminate En |].
  destruct todos as [| e es]; [discriminate Hlen | discriminate].
Qed.

Lemma nenhum_registro_um_erro_por_linha_witness :
  exists exemplos,
    interpretar_afd Exemplos.afd_estranho
    = Raise (ValueError_nenhum_registro exemplos) /\
    length (erros_estruturais Exemplos.afd_estranho
            ++ diagnosticos (linhas_classificaveis Exemplos.afd_estranho))
    = length (linhas Exemplos.afd_estranho).
Proof.
  assert (Hd : forallb nsr_decimal
                 (linhas_classificaveis Exemplos.afd_estranho) = true)
    by (vm_compute; reflexivity).
  assert (Hr : exists exemplos,
             interpretar_afd Exemplos.afd_estranho
             = Raise (ValueError_nenhum_registro exemplos))
    by (vm_compute; eexists; reflexivity).
  destruct Hr as (exemplos & Hr). exists exemplos. split; [exact Hr |].
  exact (proj1 (nenhum_registro_um_erro_por_linha _ exemplos Hd Hr)).
Defined.

Lemma decode_encode_latin1 (s : str) : decode_latin1 (encode_latin1 s) = s.
Proof.
  unfold decode_latin1, encode_latin1. rewrite map_map.
  rewrite <- (map_id s) at 2. apply map_ext. intros c.
  apply ascii_of_byte_of_ascii.
Qed.

(** X26.  The interpreter sees a file only through its non-blank lines:
    a file whose lines end in CR LF and the same lines ending in LF alone
    give the same result, document or error, provided no line itself ends
    in a carriage return. *)
Theorem interpretar_afd_terminadores (ls : list str) :
  Forall (fun l => sem_lf l = true /\ termina_em_cr l = false) ls ->
  linhas (encode_latin1 (juntar [CR; LF] ls))
  = linhas (encode_latin1 (juntar [LF] ls)) /\
  interpretar_afd (encode_latin1 (juntar [CR; LF] ls))
  = interpretar_afd (encode_latin1 (juntar [LF] ls)).
Proof.
  intros H.
  assert (Hlf : Forall (fun l => sem_lf l = true) ls)
    by (eapply Forall_impl; [| exact H]; now intros l [? _]).
  assert (Hl : linhas (encode_latin1 (juntar [CR; LF] ls))
               = linhas (encode_latin1 (juntar [LF] ls))).
  { unfold linhas. rewrite !decode_encode_latin1. unfold _split_lines.
    now rewrite (replace_crlf_juntar_crlf ls Hlf),
      (replace_crlf_juntar_lf ls H). }
  split; [exact Hl |].
  unfold interpretar_afd. fold (linhas (encode_latin1 (juntar [CR; LF] ls))).
  fold (linhas (encode_latin1 (juntar [LF] ls))). now rewrite Hl.
Qed.

Lemma interpretar_afd_terminadores_witness :
  interpretar_afd
    (encode_latin1 (juntar [CR; LF] [Exemplos.compacta_1; Exemplos.compacta_2]))
  = interpretar_afd
      (encode_latin1 (juntar [LF] [Exemplos.compacta_1; Exemplos.compacta_2])).
Proof.
  assert (H : Forall (fun l => sem_lf l = true /\ termina_em_cr l = false)
                [Exemplos.compacta_1; Exemplos.compacta_2])
    by (repeat constructor; vm_compute; reflexivity).
  exact (proj2 (interpretar_afd_terminadores _ H)).
Defined.
